(** * Flight control core of the Tello control panel

    A shallow embedding of [DroneController] (src/drone_controller.py) and
    the properties of its command sequencing: connection lifecycle,
    take-off / landing state, the stabilisation delay of the inertial unit,
    command throttling, the discrete / continuous movement fallback and the
    real-time control vector.

    Conventions of the embedding.
    - The speed multiplier and the numbers it is multiplied with are
      binary64 floats: the product is the one of IEEE 754, rounded to
      nearest even, and [int(x)] truncates toward zero and raises on an
      infinity and on NaN.
    - Instants returned by [time.time()] are rationals [Q]: they are only
      subtracted and compared with the constants 0.5, 1.0, 3.0 and 5.0.
    - The vehicle link (djitellopy's [Tello]) is an external collaborator:
      every call on it is recorded in the world and its outcome (a value or
      a raised exception) is read from an oracle.
    - [print] and the beep are recorded as outputs; threads and timers
      started by the controller are recorded as spawned tasks, and the body
      of each task is a computation of its own that a scheduler may run
      later.
    - The two threads that the interface starts, for [connect] and for
      [update_telemetry], block in their calls on the link: their bodies are
      cut at every such call, and other operations may run between two
      segments. *)

From Stdlib Require Import ZArith QArith Lqa Lia List String Bool SpecFloat.
From stdpp Require Import base decidable countable gmap sets.
Import ListNotations.

Local Open Scope Z_scope.

(** ** Values of the Python program *)

(** [int(x)] on a rational: truncation toward zero. *)
Definition py_int (x : Q) : Z := Z.quot (Qnum x) (Z.pos (Qden x)).

(** Python's [float]: a binary64 number (53 bits of precision, exponents
    below 1024), a signed zero, a signed infinity or NaN.  The binary64
    numbers are the values [x] of this type with [valid_binary 53 1024 x]. *)
Definition float : Type := spec_float.

(** [x * y] on floats: the product of IEEE 754, rounded to nearest even. *)
Definition float_mul (x y : float) : float := SFmul 53 1024 x y.

(** [x > y] and [x >= y] on floats; false when one of the two is NaN. *)
Definition float_gt (x y : float) : bool := SFltb y x.
Definition float_ge (x y : float) : bool := SFleb y x.

(** The float nearest to an integer, and the float that the quotient of
    two integers below [2 ^ 53] rounds to: [decimal 7 10] is the literal
    [0.7]. *)
Definition float_of_Z (z : Z) : float := binary_normalize 53 1024 z 0 false.
Definition decimal (n d : Z) : float :=
  SFdiv 53 1024 (float_of_Z n) (float_of_Z d).

Definition float_inf : float := S754_infinity false.
Definition float_nan : float := S754_nan.

(** [ConnectionStatus(Enum)]. *)
Inductive ConnectionStatus : Type :=
| DISCONNECTED
| CONNECTING
| CONNECTED
| ERROR.

Definition ConnectionStatus_eqb (a b : ConnectionStatus) : bool :=
  match a, b with
  | DISCONNECTED, DISCONNECTED | CONNECTING, CONNECTING
  | CONNECTED, CONNECTED | ERROR, ERROR => true
  | _, _ => false
  end.

(** The handle stored in [self.tello]; [None] is Python's [None]. *)
Variant Tello : Type := TelloObject.

(** The bound methods of the link that the controller passes around as
    [command_func]. *)
Inductive Command : Type :=
| cmd_takeoff
| cmd_land
| cmd_flip_forward
| cmd_move_forward
| cmd_move_back
| cmd_move_left
| cmd_move_right
| cmd_move_up
| cmd_move_down
| cmd_rotate_clockwise
| cmd_rotate_counter_clockwise.

Definition Command_eqb (a b : Command) : bool :=
  match a, b with
  | cmd_takeoff, cmd_takeoff | cmd_land, cmd_land
  | cmd_flip_forward, cmd_flip_forward
  | cmd_move_forward, cmd_move_forward | cmd_move_back, cmd_move_back
  | cmd_move_left, cmd_move_left | cmd_move_right, cmd_move_right
  | cmd_move_up, cmd_move_up | cmd_move_down, cmd_move_down
  | cmd_rotate_clockwise, cmd_rotate_clockwise
  | cmd_rotate_counter_clockwise, cmd_rotate_counter_clockwise => true
  | _, _ => false
  end.

(** An element of [*args]: an [int], a [float], or anything else. *)
Inductive Arg : Type :=
| AInt (z : Z)
| AFloat (x : float)
| AOther (repr : string).

(** The dictionary [{'left_right', 'forward_back', 'up_down', 'yaw'}]. *)
Record RcValues : Type := mkRc {
  left_right : Z;
  forward_back : Z;
  up_down : Z;
  yaw : Z
}.

Definition RcValues_eqb (a b : RcValues) : bool :=
  (left_right a =? left_right b) && (forward_back a =? forward_back b)
  && (up_down a =? up_down b) && (yaw a =? yaw b).

Definition rc_zero : RcValues := mkRc 0 0 0 0.

(** ** The controller object *)

(** The attributes assigned in [__init__].  Three of them are assigned there
    and nowhere else, and are constants here. *)
Definition imu_stabilization_delay : Q := 3.
Definition command_cooldown : Q := 1 # 2.
Definition ready_beep_interval : Q := 5.

Record DroneController : Type := mkController {
  tello : option Tello;
  connection_status : ConnectionStatus;
  battery_level : Z;
  height : Z;
  flight_time : Z;
  is_flying : bool;
  imu_ready : bool;
  takeoff_time : Q;
  last_command_time : Q;
  command_queue : list Command;
  speed_multiplier : float;
  last_ready_beep : Q;
  rc_mode_active : bool;
  rc_stop_event : bool;
  current_rc_values : RcValues;
  audio_enabled : bool
}.

(** [DroneController.__init__]; whether the mixer could be initialised is
    decided by the machine the program runs on. *)
Definition init (audio : bool) : DroneController :=
  {| tello := None;
     connection_status := DISCONNECTED;
     battery_level := 0;
     height := 0;
     flight_time := 0;
     is_flying := false;
     imu_ready := false;
     takeoff_time := 0;
     last_command_time := 0;
     command_queue := [];
     speed_multiplier := float_of_Z 1;
     last_ready_beep := 0;
     rc_mode_active := false;
     rc_stop_event := false;
     current_rc_values := rc_zero;
     audio_enabled := audio |}.

(** Attribute assignment [self.f = v], one function per attribute. *)
Definition with_tello (v : option Tello) (self : DroneController) : DroneController :=
  {| tello := v; connection_status := connection_status self; battery_level :=
     battery_level self; height := height self; flight_time := flight_time self;
     is_flying := is_flying self; imu_ready := imu_ready self; takeoff_time :=
     takeoff_time self; last_command_time := last_command_time self;
     command_queue := command_queue self; speed_multiplier := speed_multiplier
     self; last_ready_beep := last_ready_beep self; rc_mode_active :=
     rc_mode_active self; rc_stop_event := rc_stop_event self; current_rc_values
     := current_rc_values self; audio_enabled := audio_enabled self |}.

Definition with_connection_status (v : ConnectionStatus) (self : DroneController) : DroneController :=
  {| tello := tello self; connection_status := v; battery_level :=
     battery_level self; height := height self; flight_time := flight_time self;
     is_flying := is_flying self; imu_ready := imu_ready self; takeoff_time :=
     takeoff_time self; last_command_time := last_command_time self;
     command_queue := command_queue self; speed_multiplier := speed_multiplier
     self; last_ready_beep := last_ready_beep self; rc_mode_active :=
     rc_mode_active self; rc_stop_event := rc_stop_event self; current_rc_values
     := current_rc_values self; audio_enabled := audio_enabled self |}.

Definition with_battery_level (v : Z) (self : DroneController) : DroneController :=
  {| tello := tello self; connection_status := connection_status self;
     battery_level := v; height := height self; flight_time := flight_time self;
     is_flying := is_flying self; imu_ready := imu_ready self; takeoff_time :=
     takeoff_time self; last_command_time := last_command_time self;
     command_queue := command_queue self; speed_multiplier := speed_multiplier
     self; last_ready_beep := last_ready_beep self; rc_mode_active :=
     rc_mode_active self; rc_stop_event := rc_stop_event self; current_rc_values
     := current_rc_values self; audio_enabled := audio_enabled self |}.

Definition with_height (v : Z) (self : DroneController) : DroneController :=
  {| tello := tello self; connection_status := connection_status self;
     battery_level := battery_level self; height := v; flight_time := flight_time
     self; is_flying := is_flying self; imu_ready := imu_ready self; takeoff_time
     := takeoff_time self; last_command_time := last_command_time self;
     command_queue := command_queue self; speed_multiplier := speed_multiplier
     self; last_ready_beep := last_ready_beep self; rc_mode_active :=
     rc_mode_active self; rc_stop_event := rc_stop_event self; current_rc_values
     := current_rc_values self; audio_enabled := audio_enabled self |}.

Definition with_flight_time (v : Z) (self : DroneController) : DroneController :=
  {| tello := tello self; connection_status := connection_status self;
     battery_level := battery_level self; height := height self; flight_time :=
     v; is_flying := is_flying self; imu_ready := imu_ready self; takeoff_time :=
     takeoff_time self; last_command_time := last_command_time self;
     command_queue := command_queue self; speed_multiplier := speed_multiplier
     self; last_ready_beep := last_ready_beep self; rc_mode_active :=
     rc_mode_active self; rc_stop_event := rc_stop_event self; current_rc_values
     := current_rc_values self; audio_enabled := audio_enabled self |}.

Definition with_is_flying (v : bool) (self : DroneController) : DroneController :=
  {| tello := tello self; connection_status := connection_status self;
     battery_level := battery_level self; height := height self; flight_time :=
     flight_time self; is_flying := v; imu_ready := imu_ready self; takeoff_time
     := takeoff_time self; last_command_time := last_command_time self;
     command_queue := command_queue self; speed_multiplier := speed_multiplier
     self; last_ready_beep := last_ready_beep self; rc_mode_active :=
     rc_mode_active self; rc_stop_event := rc_stop_event self; current_rc_values
     := current_rc_values self; audio_enabled := audio_enabled self |}.

Definition with_imu_ready (v : bool) (self : DroneController) : DroneController :=
  {| tello := tello self; connection_status := connection_status self;
     battery_level := battery_level self; height := height self; flight_time :=
     flight_time self; is_flying := is_flying self; imu_ready := v; takeoff_time
     := takeoff_time self; last_command_time := last_command_time self;
     command_queue := command_queue self; speed_multiplier := speed_multiplier
     self; last_ready_beep := last_ready_beep self; rc_mode_active :=
     rc_mode_active self; rc_stop_event := rc_stop_event self; current_rc_values
     := current_rc_values self; audio_enabled := audio_enabled self |}.

Definition with_takeoff_time (v : Q) (self : DroneController) : DroneController :=
  {| tello := tello self; connection_status := connection_status self;
     battery_level := battery_level self; height := height self; flight_time :=
     flight_time self; is_flying := is_flying self; imu_ready := imu_ready self;
     takeoff_time := v; last_command_time := last_command_time self;
     command_queue := command_queue self; speed_multiplier := speed_multiplier
     self; last_ready_beep := last_ready_beep self; rc_mode_active :=
     rc_mode_active self; rc_stop_event := rc_stop_event self; current_rc_values
     := current_rc_values self; audio_enabled := audio_enabled self |}.

Definition with_last_command_time (v : Q) (self : DroneController) : DroneController :=
  {| tello := tello self; connection_status := connection_status self;
     battery_level := battery_level self; height := height self; flight_time :=
     flight_time self; is_flying := is_flying self; imu_ready := imu_ready self;
     takeoff_time := takeoff_time self; last_command_time := v; command_queue :=
     command_queue self; speed_multiplier := speed_multiplier self;
     last_ready_beep := last_ready_beep self; rc_mode_active := rc_mode_active
     self; rc_stop_event := rc_stop_event self; current_rc_values :=
     current_rc_values self; audio_enabled := audio_enabled self |}.

Definition with_command_queue (v : list Command) (self : DroneController) : DroneController :=
  {| tello := tello self; connection_status := connection_status self;
     battery_level := battery_level self; height := height self; flight_time :=
     flight_time self; is_flying := is_flying self; imu_ready := imu_ready self;
     takeoff_time := takeoff_time self; last_command_time := last_command_time
     self; command_queue := v; speed_multiplier := speed_multiplier self;
     last_ready_beep := last_ready_beep self; rc_mode_active := rc_mode_active
     self; rc_stop_event := rc_stop_event self; current_rc_values :=
     current_rc_values self; audio_enabled := audio_enabled self |}.

Definition with_speed_multiplier (v : float) (self : DroneController) : DroneController :=
  {| tello := tello self; connection_status := connection_status self;
     battery_level := battery_level self; height := height self; flight_time :=
     flight_time self; is_flying := is_flying self; imu_ready := imu_ready self;
     takeoff_time := takeoff_time self; last_command_time := last_command_time
     self; command_queue := command_queue self; speed_multiplier := v;
     last_ready_beep := last_ready_beep self; rc_mode_active := rc_mode_active
     self; rc_stop_event := rc_stop_event self; current_rc_values :=
     current_rc_values self; audio_enabled := audio_enabled self |}.

Definition with_last_ready_beep (v : Q) (self : DroneController) : DroneController :=
  {| tello := tello self; connection_status := connection_status self;
     battery_level := battery_level self; height := height self; flight_time :=
     flight_time self; is_flying := is_flying self; imu_ready := imu_ready self;
     takeoff_time := takeoff_time self; last_command_time := last_command_time
     self; command_queue := command_queue self; speed_multiplier :=
     speed_multiplier self; last_ready_beep := v; rc_mode_active :=
     rc_mode_active self; rc_stop_event := rc_stop_event self; current_rc_values
     := current_rc_values self; audio_enabled := audio_enabled self |}.

Definition with_rc_mode_active (v : bool) (self : DroneController) : DroneController :=
  {| tello := tello self; connection_status := connection_status self;
     battery_level := battery_level self; height := height self; flight_time :=
     flight_time self; is_flying := is_flying self; imu_ready := imu_ready self;
     takeoff_time := takeoff_time self; last_command_time := last_command_time
     self; command_queue := command_queue self; speed_multiplier :=
     speed_multiplier self; last_ready_beep := last_ready_beep self;
     rc_mode_active := v; rc_stop_event := rc_stop_event self; current_rc_values
     := current_rc_values self; audio_enabled := audio_enabled self |}.

Definition with_rc_stop_event (v : bool) (self : DroneController) : DroneController :=
  {| tello := tello self; connection_status := connection_status self;
     battery_level := battery_level self; height := height self; flight_time :=
     flight_time self; is_flying := is_flying self; imu_ready := imu_ready self;
     takeoff_time := takeoff_time self; last_command_time := last_command_time
     self; command_queue := command_queue self; speed_multiplier :=
     speed_multiplier self; last_ready_beep := last_ready_beep self;
     rc_mode_active := rc_mode_active self; rc_stop_event := v; current_rc_values
     := current_rc_values self; audio_enabled := audio_enabled self |}.

Definition with_current_rc_values (v : RcValues) (self : DroneController) : DroneController :=
  {| tello := tello self; connection_status := connection_status self;
     battery_level := battery_level self; height := height self; flight_time :=
     flight_time self; is_flying := is_flying self; imu_ready := imu_ready self;
     takeoff_time := takeoff_time self; last_command_time := last_command_time
     self; command_queue := command_queue self; speed_multiplier :=
     speed_multiplier self; last_ready_beep := last_ready_beep self;
     rc_mode_active := rc_mode_active self; rc_stop_event := rc_stop_event self;
     current_rc_values := v; audio_enabled := audio_enabled self |}.

Definition with_audio_enabled (v : bool) (self : DroneController) : DroneController :=
  {| tello := tello self; connection_status := connection_status self;
     battery_level := battery_level self; height := height self; flight_time :=
     flight_time self; is_flying := is_flying self; imu_ready := imu_ready self;
     takeoff_time := takeoff_time self; last_command_time := last_command_time
     self; command_queue := command_queue self; speed_multiplier :=
     speed_multiplier self; last_ready_beep := last_ready_beep self;
     rc_mode_active := rc_mode_active self; rc_stop_event := rc_stop_event self;
     current_rc_values := current_rc_values self; audio_enabled := v |}.

(** ** The world around the controller *)

(** Calls on the link, in the order of the vendor interface. *)
Inductive LinkCall : Type :=
| New_Tello
| Link_connect
| Link_end
| Link_get_battery
| Link_get_height
| Link_get_flight_time
| Invoke (command_func : Command) (args : list Arg)
| Send_rc_control (lr fb ud yw : Z).

(** What a call on the link does: return a value or raise. *)
Inductive Outcome : Type :=
| Returns (v : Z)
| Raises (msg : string).

(** Tasks handed to [threading.Thread] and [threading.Timer]. *)
Inductive Deferred : Type :=
| Notify_imu_ready (sleep : Q)
| Rc_stop_timer (duration : Q).

(** Lines written by [print], and the tone of [play_beep]. *)
Inductive Output : Type :=
| Connected_ok
| Connection_failed (e : string)
| Battery (level : Z)
| Speed_boost (multiplier : float)
| Normal_speed
| Cleared (n : nat)
| No_commands_to_clear
| Beep (frequency : Z) (duration : Q)
| Ready_for_commands
| Imu_error
| Command_failed (e : string)
| Cannot_execute (status : ConnectionStatus)
| Movement_requires_takeoff
| Imu_stabilizing (remaining_time : Q)
| Command_line (boost : bool) (command_func : Command) (first : Arg)
| Rc_pulse (boost : bool) (command_func : Command) (rc_speed : Z)
| Rc_movement_failed (e : string)
| Already_flying
| Attempting_takeoff
| Takeoff_successful
| Imu_stabilized
| Takeoff_failed
| Already_on_ground
| Landing
| Landing_successful
| Landing_failed
| Flip_requires_takeoff
| Imu_must_stabilize
| Performing_flip
| Start_rc_mode_called (has_tello : bool) (status : ConnectionStatus)
    (active : bool)
| Rc_mode_activated
| Rc_mode_already_active
| Rc_mode_not_started
| Rc_mode_deactivated
| Update_rc_called (active : bool) (keys : nat)
| Rc_control_skipped (active : bool) (has_tello : bool)
    (status : ConnectionStatus)
| Rc_active (boost : bool) (movements : list (string * Z))
| Rc_control_failed (e : string).

(** The world: the clock ([clock] gives the successive readings of
    [time.time()], [reads] counts those taken), the link ([link n c] is the
    outcome of call [c] when it is the [n]-th call issued, [calls] lists
    the calls issued, oldest first), the outputs and the spawned tasks. *)
Record World : Type := mkWorld {
  clock : nat -> Q;
  reads : nat;
  link : nat -> LinkCall -> Outcome;
  calls : list LinkCall;
  out : list Output;
  spawned : list Deferred
}.

Definition with_clock (v : nat -> Q) (w : World) : World :=
  {| clock := v; reads := reads w; link := link w; calls := calls w; out :=
     out w; spawned := spawned w |}.

Definition with_reads (v : nat) (w : World) : World :=
  {| clock := clock w; reads := v; link := link w; calls := calls w; out :=
     out w; spawned := spawned w |}.

Definition with_link (v : nat -> LinkCall -> Outcome) (w : World) : World :=
  {| clock := clock w; reads := reads w; link := v; calls := calls w; out :=
     out w; spawned := spawned w |}.

Definition with_calls (v : list LinkCall) (w : World) : World :=
  {| clock := clock w; reads := reads w; link := link w; calls := v; out :=
     out w; spawned := spawned w |}.

Definition with_out (v : list Output) (w : World) : World :=
  {| clock := clock w; reads := reads w; link := link w; calls := calls w; out
     := v; spawned := spawned w |}.

Definition with_spawned (v : list Deferred) (w : World) : World :=
  {| clock := clock w; reads := reads w; link := link w; calls := calls w; out
     := out w; spawned := v |}.

(** The instant the next [time.time()] returns. *)
Definition now (w : World) : Q := clock w (reads w).

(** ** Computations of the controller *)

Inductive Exn : Type :=
| TelloException (msg : string)
| AttributeError (attr : string)
| OverflowError (msg : string)
| ValueError (msg : string).

Inductive Res (A : Type) : Type :=
| Val (a : A)
| Exc (e : Exn).
Arguments Val {A} a.
Arguments Exc {A} e.

Definition res_bind {A B : Type} (r : Res A) (k : A -> Res B) : Res B :=
  match r with
  | Val a => k a
  | Exc e => Exc e
  end.

(** The conversions between [int] and [float].  [float(z)], which
    [z * x] applies to [z] when [x] is a float, raises when [z] is too
    large; [int(x)] raises on an infinity and on NaN. *)
Definition float_of_int (z : Z) : Res float :=
  match float_of_Z z with
  | S754_infinity _ => Exc (OverflowError "int too large to convert to float")
  | x => Val x
  end.

Definition int_of_float (x : float) : Res Z :=
  match x with
  | S754_zero _ => Val 0
  | S754_finite s m e =>
      Val (cond_Zopp s (if 0 <=? e then Z.pos m * 2 ^ e
                        else Z.pos m / 2 ^ (- e)))
  | S754_infinity _ =>
      Exc (OverflowError "cannot convert float infinity to integer")
  | S754_nan => Exc (ValueError "cannot convert float NaN to integer")
  end.

(** [z * x] for an [int] and a [float]. *)
Definition int_times_float (z : Z) (x : float) : Res float :=
  res_bind (float_of_int z) (fun f => Val (float_mul f x)).

(** A method body: it runs on the controller and the world, and returns a
    value or raises. *)
Definition M (A : Type) : Type :=
  DroneController -> World -> Res A * DroneController * World.

Definition ret {A : Type} (a : A) : M A := fun self w => (Val a, self, w).

Definition bind {A B : Type} (m : M A) (k : A -> M B) : M B :=
  fun self w =>
    match m self w with
    | (Val a, self', w') => k a self' w'
    | (Exc e, self', w') => (Exc e, self', w')
    end.

Definition throw {A : Type} (e : Exn) : M A := fun self w => (Exc e, self, w).

(** A computation on numbers, which changes nothing and may raise. *)
Definition lift {A : Type} (r : Res A) : M A := fun self w => (r, self, w).

(** [try: m  except Exception as e: h e]. *)
Definition try_except {A : Type} (m : M A) (h : Exn -> M A) : M A :=
  fun self w =>
    match m self w with
    | (Val a, self', w') => (Val a, self', w')
    | (Exc e, self', w') => h e self' w'
    end.

Declare Scope ctrl_scope.
Delimit Scope ctrl_scope with ctrl.
Bind Scope ctrl_scope with M.
Notation "x <- m ;; k" := (bind m (fun x => k))
  (at level 100, m at next level, k at level 200, only parsing) : ctrl_scope.
Notation "m ;; k" := (bind m (fun _ => k))
  (at level 100, k at level 200, only parsing) : ctrl_scope.
Local Open Scope ctrl_scope.

Definition read {A : Type} (f : DroneController -> A) : M A :=
  fun self w => (Val (f self), self, w).

Definition assign (f : DroneController -> DroneController) : M unit :=
  fun self w => (Val tt, f self, w).

Definition time_time : M Q :=
  fun self w => (Val (now w), self, with_reads (S (reads w)) w).

Definition print (o : Output) : M unit :=
  fun self w => (Val tt, self, with_out (out w ++ [o]) w).

Definition spawn (d : Deferred) : M unit :=
  fun self w => (Val tt, self, with_spawned (spawned w ++ [d]) w).

(** A call on the link: recorded, then answered by the oracle. *)
Definition link_call (c : LinkCall) : M Z :=
  fun self w =>
    let w' := with_calls (calls w ++ [c]) w in
    match link w (length (calls w)) c with
    | Returns v => (Val v, self, w')
    | Raises msg => (Exc (TelloException msg), self, w')
    end.

(** The two halves of a call on the link that blocks: the call is issued
    (and recorded) by the calling thread, which other threads may overtake
    before the answer comes; [link_issue] returns the position of the call
    in the trace, at which [link_answer] reads the outcome. *)
Definition link_issue (c : LinkCall) : M nat :=
  fun self w => (Val (length (calls w)), self, with_calls (calls w ++ [c]) w).

Definition link_answer (n : nat) (c : LinkCall) : M Z :=
  fun self w =>
    match link w n c with
    | Returns v => (Val v, self, w)
    | Raises msg => (Exc (TelloException msg), self, w)
    end.

(** Evaluating [self.tello.attr]: fails on [None]. *)
Definition tello_attr (attr : string) : M unit :=
  fun self w =>
    match tello self with
    | Some _ => (Val tt, self, w)
    | None => (Exc (AttributeError attr), self, w)
    end.

Definition when (b : bool) (m : M unit) : M unit := if b then m else ret tt.

Definition exn_message (e : Exn) : string :=
  match e with
  | TelloException msg => msg
  | AttributeError attr =>
      ("'NoneType' object has no attribute '" ++ attr ++ "'")%string
  | OverflowError msg => msg
  | ValueError msg => msg
  end.

Definition is_some {A : Type} (o : option A) : bool :=
  match o with Some _ => true | None => false end.

Definition Q_ge (a b : Q) : bool := Qle_bool b a.

Definition connected (self : DroneController) : bool :=
  ConnectionStatus_eqb (connection_status self) CONNECTED.

(** [needle in haystack] on strings. *)
Definition contains (needle haystack : string) : bool :=
  is_some (String.index 0 needle haystack).

(** ** Methods of [DroneController] *)

(** [play_beep]: silent without the mixer.  The synthesis of the tone is
    outside the model; the tone (or the bell that replaces it when the
    mixer fails) is one output. *)
Definition play_beep (frequency : Z) (duration : Q) : M unit :=
  self <- read id ;;
  if negb (audio_enabled self) then ret tt
  else print (Beep frequency duration).

Definition check_ready_beep : M unit :=
  current_time <- time_time ;;
  self <- read id ;;
  when (is_flying self && imu_ready self
        && (length (command_queue self) =? 0)%nat
        && Q_ge (current_time - last_ready_beep self) ready_beep_interval)
    (play_beep 1200 (1 # 10) ;;
     assign (with_last_ready_beep current_time) ;;
     print Ready_for_commands).

Definition update_telemetry : M unit :=
  self <- read id ;;
  when (is_some (tello self) && connected self)
    (try_except
       (b <- link_call Link_get_battery ;;
        assign (with_battery_level b) ;;
        print (Battery b) ;;
        h <- link_call Link_get_height ;;
        assign (with_height h) ;;
        f <- link_call Link_get_flight_time ;;
        assign (with_flight_time f) ;;
        check_ready_beep)
       (fun _ => ret tt)).

Definition connect : M bool :=
  try_except
    (assign (with_connection_status CONNECTING) ;;
     link_call New_Tello ;;
     assign (with_tello (Some TelloObject)) ;;
     link_call Link_connect ;;
     assign (with_connection_status CONNECTED) ;;
     update_telemetry ;;
     print Connected_ok ;;
     ret true)
    (fun e =>
       print (Connection_failed (exn_message e)) ;;
       assign (with_connection_status ERROR) ;;
       ret false).

(** [connect] and [update_telemetry] as the bodies of threads.  The
    interface runs them beside its own loop, and they block in every call
    on the link; [Pending] names the call a thread is blocked in (with its
    position in the trace, and whether the telemetry is read on behalf of
    [connect]).  [connect_begin] and [telemetry_begin] run a body up to its
    first call, [resume] runs it from the answer of a call to the next
    call, or to its end ([None]).  After an interruption [self.tello] may
    have changed, so the attribute is looked up again before each call. *)
Inductive Pending : Type :=
| In_Tello (n : nat)
| In_connect (n : nat)
| In_get_battery (in_connect : bool) (n : nat)
| In_get_height (in_connect : bool) (n : nat)
| In_get_flight_time (in_connect : bool) (n : nat).

(** The handler of [connect]. *)
Definition connect_failed (e : Exn) : M (option Pending) :=
  print (Connection_failed (exn_message e)) ;;
  assign (with_connection_status ERROR) ;;
  ret None.

(** What follows [update_telemetry]: the end of [connect], or nothing. *)
Definition telemetry_done (in_connect : bool) : M (option Pending) :=
  when in_connect (print Connected_ok) ;;
  ret None.

Definition telemetry_begin (in_connect : bool) : M (option Pending) :=
  self <- read id ;;
  if is_some (tello self) && connected self then
    n <- link_issue Link_get_battery ;;
    ret (Some (In_get_battery in_connect n))
  else telemetry_done in_connect.

Definition connect_begin : M (option Pending) :=
  assign (with_connection_status CONNECTING) ;;
  n <- link_issue New_Tello ;;
  ret (Some (In_Tello n)).

Definition resume (p : Pending) : M (option Pending) :=
  match p with
  | In_Tello n =>
      try_except
        (link_answer n New_Tello ;;
         assign (with_tello (Some TelloObject)) ;;
         n' <- link_issue Link_connect ;;
         ret (Some (In_connect n')))
        connect_failed
  | In_connect n =>
      try_except
        (link_answer n Link_connect ;;
         assign (with_connection_status CONNECTED) ;;
         telemetry_begin true)
        connect_failed
  | In_get_battery in_connect n =>
      try_except
        (b <- link_answer n Link_get_battery ;;
         assign (with_battery_level b) ;;
         print (Battery b) ;;
         tello_attr "get_height" ;;
         n' <- link_issue Link_get_height ;;
         ret (Some (In_get_height in_connect n')))
        (fun _ => telemetry_done in_connect)
  | In_get_height in_connect n =>
      try_except
        (h <- link_answer n Link_get_height ;;
         assign (with_height h) ;;
         tello_attr "get_flight_time" ;;
         n' <- link_issue Link_get_flight_time ;;
         ret (Some (In_get_flight_time in_connect n')))
        (fun _ => telemetry_done in_connect)
  | In_get_flight_time in_connect n =>
      try_except
        (f <- link_answer n Link_get_flight_time ;;
         assign (with_flight_time f) ;;
         check_ready_beep)
        (fun _ => ret tt) ;;
      telemetry_done in_connect
  end.

(** A thread that nothing overtakes: each call is answered as soon as it
    is issued.  [fuel] bounds the number of calls; no body makes more
    than five. *)
Fixpoint uninterrupted (fuel : nat) (p : option Pending) : M unit :=
  match p, fuel with
  | None, _ => ret tt
  | Some _, O => ret tt
  | Some p, S fuel' => p' <- resume p ;; uninterrupted fuel' p'
  end.

Definition set_speed_multiplier (multiplier : float) : M unit :=
  assign (with_speed_multiplier multiplier) ;;
  if float_gt multiplier (float_of_Z 1) then print (Speed_boost multiplier)
  else print Normal_speed.

Definition clear_command_queue : M unit :=
  self <- read id ;;
  if (0 <? length (command_queue self))%nat then
    assign (with_command_queue []) ;;
    self <- read id ;;
    print (Cleared (length (command_queue self))) ;;
    play_beep 800 (1 # 10)
  else print No_commands_to_clear.

Definition can_execute_command : M bool :=
  current_time <- time_time ;;
  self <- read id ;;
  if Q_ge (current_time - last_command_time self) command_cooldown then
    assign (with_last_command_time current_time) ;;
    ret true
  else ret false.

(** The handler of [execute_command]: [str(e)] decides the diagnosis. *)
Definition report_command_failure (e : Exn) : M bool :=
  let error_msg := exn_message e in
  (if contains "No valid imu" error_msg then print Imu_error
   else print (Command_failed error_msg)) ;;
  ret false.

Definition execute_command (command_func : Command) (args : list Arg)
  : M bool :=
  self <- read id ;;
  guard <- (if is_some (tello self) && connected self
            then can_execute_command else ret false) ;;
  if guard then
    try_except
      (link_call (Invoke command_func args) ;; ret true)
      report_command_failure
  else
    self <- read id ;;
    when (negb (connected self))
      (print (Cannot_execute (connection_status self))) ;;
    ret false.

Definition check_imu_ready : M bool :=
  self <- read id ;;
  if negb (is_flying self) then ret false
  else
    current_time <- time_time ;;
    when (Q_ge (current_time - takeoff_time self) imu_stabilization_delay)
      (assign (with_imu_ready true)) ;;
    read imu_ready.

(** [min(int(base_rc_speed * self.speed_multiplier), 100)] with
    [base_rc_speed = 50], as [execute_rc_movement] and
    [calculate_rc_values] both compute it. *)
Definition rc_speed_of (self : DroneController) : Res Z :=
  let base_rc_speed := 50 in
  res_bind (int_times_float base_rc_speed (speed_multiplier self)) (fun p =>
  res_bind (int_of_float p) (fun z =>
  Val (Z.min z 100))).

Definition execute_rc_movement (command_func : Command) (args : list Arg)
  : M bool :=
  self <- read id ;;
  if negb (is_some (tello self)) || negb (connected self) then ret false
  else
    try_except
      (rc_speed <- lift (rc_speed_of self) ;;
       let boost := float_gt (speed_multiplier self) (float_of_Z 1) in
       (if Command_eqb command_func cmd_move_forward then
          link_call (Send_rc_control 0 rc_speed 0 0) ;;
          print (Rc_pulse boost cmd_move_forward rc_speed)
        else if Command_eqb command_func cmd_move_back then
          link_call (Send_rc_control 0 (- rc_speed) 0 0) ;;
          print (Rc_pulse boost cmd_move_back rc_speed)
        else if Command_eqb command_func cmd_move_left then
          link_call (Send_rc_control (- rc_speed) 0 0 0) ;;
          print (Rc_pulse boost cmd_move_left rc_speed)
        else if Command_eqb command_func cmd_move_right then
          link_call (Send_rc_control rc_speed 0 0 0) ;;
          print (Rc_pulse boost cmd_move_right rc_speed)
        else if Command_eqb command_func cmd_move_up then
          link_call (Send_rc_control 0 0 rc_speed 0) ;;
          print (Rc_pulse boost cmd_move_up rc_speed)
        else if Command_eqb command_func cmd_move_down then
          link_call (Send_rc_control 0 0 (- rc_speed) 0) ;;
          print (Rc_pulse boost cmd_move_down rc_speed)
        else if Command_eqb command_func cmd_rotate_clockwise then
          link_call (Send_rc_control 0 0 0 rc_speed) ;;
          print (Rc_pulse boost cmd_rotate_clockwise rc_speed)
        else if Command_eqb command_func cmd_rotate_counter_clockwise then
          link_call (Send_rc_control 0 0 0 (- rc_speed)) ;;
          print (Rc_pulse boost cmd_rotate_counter_clockwise rc_speed)
        else ret tt) ;;
       let duration := if boost then 4 # 10 else 3 # 10 in
       spawn (Rc_stop_timer duration) ;;
       ret true)
      (fun e => print (Rc_movement_failed (exn_message e)) ;; ret false).

(** The body of the timer started by [execute_rc_movement]; it looks
    [self.tello] up when it fires. *)
Definition rc_stop_timer : M unit :=
  tello_attr "send_rc_control" ;;
  link_call (Send_rc_control 0 0 0 0) ;;
  ret tt.

(** [int(arg * self.speed_multiplier)] on a number of [*args]. *)
Definition scale_arg (multiplier : float) (arg : Arg) : Res Arg :=
  match arg with
  | AInt z =>
      res_bind (int_times_float z multiplier) (fun p =>
      res_bind (int_of_float p) (fun v => Val (AInt v)))
  | AFloat x =>
      res_bind (int_of_float (float_mul x multiplier)) (fun v =>
      Val (AInt v))
  | AOther r => Val (AOther r)
  end.

(** The loop that fills [modified_args]; it stops at the first argument
    whose conversion raises. *)
Fixpoint scale_args (multiplier : float) (args : list Arg)
  : Res (list Arg) :=
  match args with
  | [] => Val []
  | arg :: rest =>
      res_bind (scale_arg multiplier arg) (fun v =>
      res_bind (scale_args multiplier rest) (fun modified_args =>
      Val (v :: modified_args)))
  end.

Definition execute_movement_command (command_func : Command)
  (args : list Arg) : M bool :=
  self <- read id ;;
  if negb (is_flying self) then
    print Movement_requires_takeoff ;;
    ret false
  else
    ready <- check_imu_ready ;;
    if negb ready then
      t <- time_time ;;
      self <- read id ;;
      let remaining_time :=
        (imu_stabilization_delay - (t - takeoff_time self))%Q in
      print (Imu_stabilizing remaining_time) ;;
      execute_rc_movement command_func args
    else
      self <- read id ;;
      modified_args <- lift (scale_args (speed_multiplier self) args) ;;
      let boost := float_gt (speed_multiplier self) (float_of_Z 1) in
      match modified_args with
      | first :: _ => print (Command_line boost command_func first)
      | [] => ret tt
      end ;;
      execute_command command_func modified_args.

(** The body of the thread started by [takeoff], after its sleep. *)
Definition notify_imu_ready : M unit :=
  self <- read id ;;
  when (is_flying self)
    (assign (with_imu_ready true) ;;
     print Imu_stabilized).

Definition takeoff : M unit :=
  self <- read id ;;
  if is_flying self then print Already_flying
  else
    print Attempting_takeoff ;;
    tello_attr "takeoff" ;;
    ok <- execute_command cmd_takeoff [] ;;
    if ok then
      assign (with_is_flying true) ;;
      assign (with_imu_ready false) ;;
      t <- time_time ;;
      assign (with_takeoff_time t) ;;
      print Takeoff_successful ;;
      spawn (Notify_imu_ready imu_stabilization_delay)
    else print Takeoff_failed.

Definition land : M unit :=
  self <- read id ;;
  if negb (is_flying self) then print Already_on_ground
  else
    print Landing ;;
    tello_attr "land" ;;
    ok <- execute_command cmd_land [] ;;
    if ok then
      assign (with_is_flying false) ;;
      assign (with_imu_ready false) ;;
      print Landing_successful
    else print Landing_failed.

Definition flip_forward : M bool :=
  self <- read id ;;
  if negb (is_flying self) then
    print Flip_requires_takeoff ;;
    ret false
  else if negb (imu_ready self) then
    print Imu_must_stabilize ;;
    ret false
  else
    print Performing_flip ;;
    tello_attr "flip_forward" ;;
    execute_command cmd_flip_forward [].

Definition emergency_stop : M unit :=
  self <- read id ;;
  when (is_some (tello self) && connected self)
    (try_except
       (link_call (Send_rc_control 0 0 0 0) ;; ret tt)
       (fun _ => ret tt)).

Definition start_rc_mode : M unit :=
  self <- read id ;;
  print (Start_rc_mode_called (is_some (tello self))
           (connection_status self) (rc_mode_active self)) ;;
  if negb (rc_mode_active self) && is_some (tello self) && connected self
  then
    assign (with_rc_mode_active true) ;;
    assign (with_rc_stop_event false) ;;
    print Rc_mode_activated
  else if rc_mode_active self then print Rc_mode_already_active
  else print Rc_mode_not_started.

Definition stop_rc_mode : M unit :=
  self <- read id ;;
  when (rc_mode_active self)
    (assign (with_rc_mode_active false) ;;
     assign (with_rc_stop_event true) ;;
     when (is_some (tello self) && connected self)
       (try_except
          (link_call (Send_rc_control 0 0 0 0) ;; ret tt)
          (fun _ => ret tt)) ;;
     assign (with_current_rc_values rc_zero) ;;
     print Rc_mode_deactivated).

(** The key codes of pygame that the calculator looks for. *)
Definition K_a : Z := 97.
Definition K_d : Z := 100.
Definition K_e : Z := 101.
Definition K_i : Z := 105.
Definition K_k : Z := 107.
Definition K_q : Z := 113.
Definition K_s : Z := 115.
Definition K_w : Z := 119.

(** [key in active_keys]. *)
Definition held (key : Z) (active_keys : gset Z) : bool :=
  bool_decide (key ∈ active_keys).

Definition calculate_rc_values (self : DroneController)
  (active_keys : gset Z) : Res RcValues :=
  res_bind (rc_speed_of self) (fun rc_speed =>
  let left_right := 0 in
  let forward_back := 0 in
  let up_down := 0 in
  let yaw := 0 in
  let left_right :=
    if held K_a active_keys then left_right - rc_speed else left_right in
  let left_right :=
    if held K_d active_keys then left_right + rc_speed else left_right in
  let forward_back :=
    if held K_w active_keys then forward_back + rc_speed
    else forward_back in
  let forward_back :=
    if held K_s active_keys then forward_back - rc_speed
    else forward_back in
  let up_down :=
    if held K_i active_keys then up_down + rc_speed else up_down in
  let up_down :=
    if held K_k active_keys then up_down - rc_speed else up_down in
  let yaw := if held K_q active_keys then yaw - rc_speed else yaw in
  let yaw := if held K_e active_keys then yaw + rc_speed else yaw in
  Val {| left_right := left_right;
         forward_back := forward_back;
         up_down := up_down;
         yaw := yaw |}).

(** The list [active_movements] of the debug line. *)
Definition active_movements (v : RcValues) : list (string * Z) :=
  (if negb (left_right v =? 0) then [("LR"%string, left_right v)] else [])
  ++ (if negb (forward_back v =? 0) then [("FB"%string, forward_back v)]
      else [])
  ++ (if negb (up_down v =? 0) then [("UD"%string, up_down v)] else [])
  ++ (if negb (yaw v =? 0) then [("YAW"%string, yaw v)] else []).

Definition update_rc_control (active_keys : gset Z) : M unit :=
  self <- read id ;;
  print (Update_rc_called (rc_mode_active self) (size active_keys)) ;;
  if negb (rc_mode_active self) || negb (is_some (tello self))
     || negb (connected self)
  then
    print (Rc_control_skipped (rc_mode_active self) (is_some (tello self))
             (connection_status self))
  else
    new_values <- lift (calculate_rc_values self active_keys) ;;
    when (negb (RcValues_eqb new_values (current_rc_values self)))
      (assign (with_current_rc_values new_values) ;;
       try_except
         (link_call (Send_rc_control (left_right new_values)
                       (forward_back new_values) (up_down new_values)
                       (yaw new_values)) ;;
          match active_movements new_values with
          | [] => ret tt
          | l =>
              print (Rc_active
                       (float_gt (speed_multiplier self) (float_of_Z 1)) l)
          end)
         (fun e => print (Rc_control_failed (exn_message e)))).

Definition disconnect : M unit :=
  self <- read id ;;
  when (rc_mode_active self) stop_rc_mode ;;
  self <- read id ;;
  when (is_some (tello self))
    (try_except
       (when (is_flying self) (link_call (Invoke cmd_land []) ;; ret tt) ;;
        link_call Link_end ;;
        ret tt)
       (fun _ => ret tt)) ;;
  assign (with_connection_status DISCONNECTED) ;;
  assign (with_tello None).

(** The eight movement methods.  [global_variables] is not part of the
    sources at hand; its three magnitudes are parameters. *)
Section Movement.

Variables REAL_MOVEMENT_SPEED REAL_VERTICAL_SPEED REAL_ROTATION_SPEED : Z.

Definition movement (attr : string) (command_func : Command)
  (magnitude : Z) : M unit :=
  tello_attr attr ;;
  execute_movement_command command_func [AInt magnitude] ;;
  ret tt.

Definition move_forward : M unit :=
  movement "move_forward" cmd_move_forward REAL_MOVEMENT_SPEED.
Definition move_back : M unit :=
  movement "move_back" cmd_move_back REAL_MOVEMENT_SPEED.
Definition move_left : M unit :=
  movement "move_left" cmd_move_left REAL_MOVEMENT_SPEED.
Definition move_right : M unit :=
  movement "move_right" cmd_move_right REAL_MOVEMENT_SPEED.
Definition move_up : M unit :=
  movement "move_up" cmd_move_up REAL_VERTICAL_SPEED.
Definition move_down : M unit :=
  movement "move_down" cmd_move_down REAL_VERTICAL_SPEED.
Definition rotate_clockwise : M unit :=
  movement "rotate_clockwise" cmd_rotate_clockwise REAL_ROTATION_SPEED.
Definition rotate_counter_clockwise : M unit :=
  movement "rotate_counter_clockwise" cmd_rotate_counter_clockwise
    REAL_ROTATION_SPEED.

End Movement.

(** ** Runs of the controller *)

(** What can happen to a controller: a call of one of its methods by the
    user interface, or the body of a spawned task being run. *)
Inductive Op : Type :=
| call_connect
| call_disconnect
| call_update_telemetry
| call_set_speed_multiplier (multiplier : float)
| call_clear_command_queue
| call_check_ready_beep
| call_can_execute_command
| call_execute_command (command_func : Command) (args : list Arg)
| call_check_imu_ready
| call_execute_movement_command (command_func : Command) (args : list Arg)
| call_execute_rc_movement (command_func : Command) (args : list Arg)
| call_takeoff
| call_land
| call_move_forward
| call_move_back
| call_move_left
| call_move_right
| call_move_up
| call_move_down
| call_rotate_clockwise
| call_rotate_counter_clockwise
| call_flip_forward
| call_emergency_stop
| call_start_rc_mode
| call_stop_rc_mode
| call_update_rc_control (active_keys : gset Z)
| run_notify_imu_ready
| run_rc_stop_timer.

Definition void {A : Type} (m : M A) : M unit := m ;; ret tt.

Definition self_of {A : Type} (r : Res A * DroneController * World)
  : DroneController := snd (fst r).
Definition world_of {A : Type} (r : Res A * DroneController * World)
  : World := snd r.
Definition result_of {A : Type} (r : Res A * DroneController * World)
  : Res A := fst (fst r).

Section Operations.

Variables REAL_MOVEMENT_SPEED REAL_VERTICAL_SPEED REAL_ROTATION_SPEED : Z.

Definition perform (op : Op) : M unit :=
  match op with
  | call_connect => void connect
  | call_disconnect => disconnect
  | call_update_telemetry => update_telemetry
  | call_set_speed_multiplier m => set_speed_multiplier m
  | call_clear_command_queue => clear_command_queue
  | call_check_ready_beep => check_ready_beep
  | call_can_execute_command => void can_execute_command
  | call_execute_command f args => void (execute_command f args)
  | call_check_imu_ready => void check_imu_ready
  | call_execute_movement_command f args =>
      void (execute_movement_command f args)
  | call_execute_rc_movement f args => void (execute_rc_movement f args)
  | call_takeoff => takeoff
  | call_land => land
  | call_move_forward => move_forward REAL_MOVEMENT_SPEED
  | call_move_back => move_back REAL_MOVEMENT_SPEED
  | call_move_left => move_left REAL_MOVEMENT_SPEED
  | call_move_right => move_right REAL_MOVEMENT_SPEED
  | call_move_up => move_up REAL_VERTICAL_SPEED
  | call_move_down => move_down REAL_VERTICAL_SPEED
  | call_rotate_clockwise => rotate_clockwise REAL_ROTATION_SPEED
  | call_rotate_counter_clockwise =>
      rotate_counter_clockwise REAL_ROTATION_SPEED
  | call_flip_forward => void flip_forward
  | call_emergency_stop => emergency_stop
  | call_start_rc_mode => start_rc_mode
  | call_stop_rc_mode => stop_rc_mode
  | call_update_rc_control keys => update_rc_control keys
  | run_notify_imu_ready => notify_imu_ready
  | run_rc_stop_timer => rc_stop_timer
  end.

(** One operation; an exception that escapes it ends the operation and
    leaves the controller as it was when raised. *)
Definition step (c : DroneController * World) (op : Op)
  : DroneController * World :=
  let r := perform op (fst c) (snd c) in (self_of r, world_of r).

Definition run (ops : list Op) (c : DroneController * World)
  : DroneController * World :=
  fold_left step ops c.

End Operations.

(** Worlds to run the controller in: a clock that gives the listed
    readings (and stays at the last one), a link on which every call
    succeeds, and a link on which exactly the [k]-th call raises. *)
Definition clock_of (readings : list Q) : nat -> Q :=
  fun n => List.nth n readings (List.last readings 0%Q).

Definition link_ok : nat -> LinkCall -> Outcome := fun _ _ => Returns 0.

Definition link_failing_at (k : nat) (msg : string)
  : nat -> LinkCall -> Outcome :=
  fun n _ => if (n =? k)%nat then Raises msg else Returns 0.

Definition world_at (readings : list Q) (l : nat -> LinkCall -> Outcome)
  : World :=
  {| clock := clock_of readings; reads := 0; link := l;
     calls := []; out := []; spawned := [] |}.

(** ** Vocabulary of the properties *)

(** [keeps R m]: whatever the controller and the world are, running [m]
    takes the controller to one related to it by [R], whether [m] returns
    or raises. *)
Definition keeps (R : DroneController -> DroneController -> Prop)
  {A : Type} (m : M A) : Prop :=
  forall self w, R self (self_of (m self w)).

(** [returns m]: [m] never raises. *)
Definition returns {A : Type} (m : M A) : Prop :=
  forall self w, exists a, result_of (m self w) = Val a.

(** [ensures Q m]: when [m] returns, the controller satisfies [Q]. *)
Definition ensures {A : Type} (Q : DroneController -> Prop) (m : M A)
  : Prop :=
  forall self w,
    match result_of (m self w) with
    | Val _ => Q (self_of (m self w))
    | Exc _ => True
    end.

(** The two flight flags are what they were. *)
Definition same_flight (s s' : DroneController) : Prop :=
  is_flying s' = is_flying s /\ imu_ready s' = imu_ready s.

(** The invariant of the flight state: a grounded controller does not
    hold the stabilisation flag. *)
Definition grounded_unready (s : DroneController) : Prop :=
  is_flying s = false -> imu_ready s = false.

(** What every operation does to the flight flags: it leaves them alone or
    it ends in a state of the invariant. *)
Definition flight_safe (s s' : DroneController) : Prop :=
  grounded_unready s' \/ same_flight s s'.

(** A controller in flight whose stabilisation flag is set, connected. *)
Definition in_flight_ready : DroneController :=
  with_imu_ready true
    (with_is_flying true
       (with_connection_status CONNECTED
          (with_tello (Some TelloObject) (init true)))).

(** Two more controllers: connected on the ground, and in flight before
    the stabilisation flag is set. *)
Definition grounded_connected : DroneController :=
  with_connection_status CONNECTED
    (with_tello (Some TelloObject) (init true)).

Definition in_flight_unready (takeoff_at : Q) : DroneController :=
  with_takeoff_time takeoff_at
    (with_last_command_time takeoff_at
       (with_is_flying true grounded_connected)).

(** [polls n]: [n] calls of [can_execute_command] in a row; the instant
    each call read and what it returned, then the controller and the world
    after the last. *)
Fixpoint polls (n : nat) (self : DroneController) (w : World)
  : list (Q * bool) * (DroneController * World) :=
  match n with
  | O => ([], (self, w))
  | S n' =>
      match can_execute_command self w with
      | (Val b, self', w') =>
          let (h, c) := polls n' self' w' in ((now w, b) :: h, c)
      | (Exc _, self', w') => ([], (self', w'))
      end
  end.

(** The throttle in the words of the specification: a call is granted iff
    at least the cooldown has passed since the last granted call ([last]
    is its instant), and a granted call becomes the last granted one. *)
Fixpoint throttled (last : Q) (h : list (Q * bool)) : Prop :=
  match h with
  | [] => True
  | (t, b) :: h' =>
      (b = true <-> (command_cooldown <= t - last)%Q)
      /\ throttled (if b then t else last) h'
  end.

(** The instant of the last granted call of a history. *)
Fixpoint last_granted (last : Q) (h : list (Q * bool)) : Q :=
  match h with
  | [] => last
  | (t, b) :: h' => last_granted (if b then t else last) h'
  end.

(** Granted calls of a history are at least the cooldown apart. *)
Fixpoint spaced (h : list (Q * bool)) : Prop :=
  match h with
  | [] => True
  | (t, b) :: h' =>
      (b = true ->
       Forall (fun e => snd e = true -> (command_cooldown <= fst e - t)%Q) h')
      /\ spaced h'
  end.

(** The range of an axis value on the link. *)
Definition in_rc_range (z : Z) : Prop := -100 <= z <= 100.

(** What one key adds to its axis. *)
Definition contribution (key : Z) (active_keys : gset Z) (rc_speed : Z)
  : Z :=
  if held key active_keys then rc_speed else 0.

(** The three controllers on which the code departs from its own account
    of itself: one whose multiplier was set to a negative number, one with
    three queued commands, and one in continuous mode. *)
Definition reversed : DroneController :=
  self_of (set_speed_multiplier (float_of_Z (-3)) (init true)
             (world_at [] link_ok)).

Definition with_three_queued : DroneController :=
  with_command_queue [cmd_move_forward; cmd_move_back; cmd_land]
    (init true).

Definition in_rc_mode : DroneController :=
  with_rc_mode_active true grounded_connected.

(** The pulse that stands for a movement: the axis of the primitive, with
    the sign of its direction. *)
Definition rc_pulse (command_func : Command) (rc_speed : Z)
  : option LinkCall :=
  match command_func with
  | cmd_move_forward => Some (Send_rc_control 0 rc_speed 0 0)
  | cmd_move_back => Some (Send_rc_control 0 (- rc_speed) 0 0)
  | cmd_move_left => Some (Send_rc_control (- rc_speed) 0 0 0)
  | cmd_move_right => Some (Send_rc_control rc_speed 0 0 0)
  | cmd_move_up => Some (Send_rc_control 0 0 rc_speed 0)
  | cmd_move_down => Some (Send_rc_control 0 0 (- rc_speed) 0)
  | cmd_rotate_clockwise => Some (Send_rc_control 0 0 0 rc_speed)
  | cmd_rotate_counter_clockwise => Some (Send_rc_control 0 0 0 (- rc_speed))
  | cmd_takeoff | cmd_land | cmd_flip_forward => None
  end.

(** The discrete primitives among the calls issued on the link. *)
Definition invocations (l : list LinkCall) : list (Command * list Arg) :=
  flat_map (fun c => match c with
                     | Invoke f args => [(f, args)]
                     | _ => []
                     end) l.

(** Three runs from a fresh controller.  In the first the controller takes
    off, lands and takes off again, and the task spawned by the first
    take-off runs after the second.  In the second and the third a second
    [connect] fails in flight; the third is observed after the delay. *)
Definition stale_task_run : DroneController * World :=
  run 30 30 30
    [call_connect; call_takeoff; call_land; call_takeoff;
     run_notify_imu_ready]
    (init true,
     world_at [999; 1000; 1001; 1002; 1003; 1004; 1005; 1005]%Q link_ok).

Definition lost_link_run : DroneController * World :=
  run 30 30 30 [call_connect; call_takeoff; call_connect]
    (init true,
     world_at [999; 1000; 1001; 1002; 1002]%Q
       (link_failing_at 7 "timeout")).

Definition lost_link_late_run : DroneController * World :=
  run 30 30 30 [call_connect; call_takeoff; call_connect]
    (init true,
     world_at [999; 1000; 1001; 1010; 1010]%Q
       (link_failing_at 7 "timeout")).

(** A fourth run: after the delay a movement is made, and the world is
    observed 0.2 s later. *)
Definition hasty_run : DroneController * World :=
  run 30 30 30 [call_connect; call_takeoff; call_move_forward]
    (init true,
     world_at [999; 1000; 1001; 1005; 1005; 1005 + (2 # 10);
               1005 + (2 # 10)]%Q link_ok).

(** The sign of a float; NaN has none. *)
Definition float_sign (x : float) : option bool :=
  match x with
  | S754_zero s | S754_infinity s | S754_finite s _ _ => Some s
  | S754_nan => None
  end.

(** Fresh controller, connected and just taken off. *)
Definition after_takeoff_run : DroneController * World :=
  run 30 30 30 [call_connect; call_takeoff]
    (init true, world_at [999; 1000; 1001; 1002; 1002; 1005; 1005]%Q link_ok).

(** The link fields are what they were. *)
Definition same_link (s s' : DroneController) : Prop :=
  tello s' = tello s /\ connection_status s' = connection_status s.

(** A connected controller holds a link handle. *)
Definition linked (s : DroneController) : Prop :=
  connected s = true -> tello s <> None.

(** What every operation does to the link fields: it leaves them alone or
    it ends in a state where a connected controller holds a handle. *)
Definition link_safe (s s' : DroneController) : Prop :=
  linked s' \/ same_link s s'.

(** [careful m]: the only exception that escapes [m] is the
    [AttributeError] of a missing link handle. *)
Definition careful {A : Type} (m : M A) : Prop :=
  forall self w,
    match result_of (m self w) with
    | Val _ => True
    | Exc e => tello self = None /\ exists attr, e = AttributeError attr
    end.

(** The errors of the conversions between [int] and [float]. *)
Definition conversion_error (e : Exn) : Prop :=
  (exists msg, e = OverflowError msg) \/ (exists msg, e = ValueError msg).

(** The operations that convert a number outside any [try], and the
    arguments they scale. *)
Definition converting (op : Op) : bool :=
  match op with
  | call_execute_movement_command _ _
  | call_move_forward | call_move_back | call_move_left | call_move_right
  | call_move_up | call_move_down
  | call_rotate_clockwise | call_rotate_counter_clockwise
  | call_update_rc_control _ => true
  | _ => false
  end.

Definition op_args (ms vs rs : Z) (op : Op) : list Arg :=
  match op with
  | call_execute_movement_command _ args => args
  | call_move_forward | call_move_back | call_move_left | call_move_right =>
      [AInt ms]
  | call_move_up | call_move_down => [AInt vs]
  | call_rotate_clockwise | call_rotate_counter_clockwise => [AInt rs]
  | _ => []
  end.

(** Only the telemetry fields and the stamp of the last beep differ. *)
Definition telemetry_only (s s' : DroneController) : Prop :=
  exists b h f t,
    s' = with_last_ready_beep t
           (with_flight_time f (with_height h (with_battery_level b s))).

(** The conditions under which [check_ready_beep] announces. *)
Definition ready_to_announce (self : DroneController) (t : Q) : bool :=
  is_flying self && imu_ready self
  && (length (command_queue self) =? 0)%nat
  && Q_ge (t - last_ready_beep self) ready_beep_interval.

(** * The interface around the controller

    [DroneInterface] (src/drone_interface.py) and the click handler of
    [GamepadInterface] (src/gamepad_interface.py): the dispatch of keys and
    clicks to the controller, the held keys, and the periodic update.
    Rendering is read-only on the controller and is not part of the
    model. *)

(** More key codes of pygame (version 2 for the modifier keys). *)
Definition K_SPACE : Z := 32.
Definition K_f : Z := 102.
Definition K_h : Z := 104.
Definition K_l : Z := 108.
Definition K_t : Z := 116.
Definition K_LCTRL : Z := 1073742048.
Definition K_LSHIFT : Z := 1073742049.
Definition K_RCTRL : Z := 1073742052.
Definition K_RSHIFT : Z := 1073742053.

(** [pygame.Rect(x, y, w, h)] and [collidepoint]: the right and the bottom
    edge are outside. *)
Record Rect : Type := mkRect { rect_x : Z; rect_y : Z; rect_w : Z; rect_h : Z }.

Definition collidepoint (r : Rect) (pos : Z * Z) : bool :=
  (rect_x r <=? fst pos) && (fst pos <? rect_x r + rect_w r)
  && (rect_y r <=? snd pos) && (snd pos <? rect_y r + rect_h r).

(** The events of [pygame.event.get()] that the interface looks at. *)
Inductive Event : Type :=
| QUIT
| KEYDOWN (key : Z)
| KEYUP (key : Z)
| MOUSEBUTTONDOWN (button : Z) (pos : Z * Z)
| OTHER_EVENT.

(** The attributes of [DroneInterface] that are not rendering objects. *)
Record DroneInterface : Type := mkInterface {
  running : bool;
  drone_controller : DroneController;
  active_keys : gset Z;
  last_telemetry_update : Q;
  shift_pressed : bool;
  ctrl_pressed : bool
}.

Definition telemetry_update_interval : Q := 1.

(** [self.connect_button], and [self.buttons] of the
    [GamepadInterface(400, 50, 450, 650)] that the interface builds, in
    the order of the dictionary. *)
Definition connect_button : Rect := mkRect 900 50 150 40.

Definition gamepad_buttons (x y : Z) : list (string * Rect) :=
  [("takeoff"%string, mkRect (x + 50) (y + 400) 100 40);
   ("land"%string, mkRect (x + 170) (y + 400) 100 40);
   ("emergency"%string, mkRect (x + 290) (y + 400) 100 40)].

Definition buttons : list (string * Rect) := gamepad_buttons 400 50.

(** [DroneInterface.__init__], around a fresh controller. *)
Definition init_interface (audio : bool) : DroneInterface :=
  {| running := true;
     drone_controller := init audio;
     active_keys := ∅;
     last_telemetry_update := 0;
     shift_pressed := false;
     ctrl_pressed := false |}.

Definition with_running (v : bool) (ui : DroneInterface) : DroneInterface :=
  {| running := v; drone_controller := drone_controller ui;
     active_keys := active_keys ui;
     last_telemetry_update := last_telemetry_update ui;
     shift_pressed := shift_pressed ui; ctrl_pressed := ctrl_pressed ui |}.

Definition with_drone_controller (v : DroneController)
  (ui : DroneInterface) : DroneInterface :=
  {| running := running ui; drone_controller := v;
     active_keys := active_keys ui;
     last_telemetry_update := last_telemetry_update ui;
     shift_pressed := shift_pressed ui; ctrl_pressed := ctrl_pressed ui |}.

Definition with_active_keys (v : gset Z) (ui : DroneInterface)
  : DroneInterface :=
  {| running := running ui; drone_controller := drone_controller ui;
     active_keys := v;
     last_telemetry_update := last_telemetry_update ui;
     shift_pressed := shift_pressed ui; ctrl_pressed := ctrl_pressed ui |}.

Definition with_last_telemetry_update (v : Q) (ui : DroneInterface)
  : DroneInterface :=
  {| running := running ui; drone_controller := drone_controller ui;
     active_keys := active_keys ui;
     last_telemetry_update := v;
     shift_pressed := shift_pressed ui; ctrl_pressed := ctrl_pressed ui |}.

Definition with_shift_pressed (v : bool) (ui : DroneInterface)
  : DroneInterface :=
  {| running := running ui; drone_controller := drone_controller ui;
     active_keys := active_keys ui;
     last_telemetry_update := last_telemetry_update ui;
     shift_pressed := v; ctrl_pressed := ctrl_pressed ui |}.

Definition with_ctrl_pressed (v : bool) (ui : DroneInterface)
  : DroneInterface :=
  {| running := running ui; drone_controller := drone_controller ui;
     active_keys := active_keys ui;
     last_telemetry_update := last_telemetry_update ui;
     shift_pressed := shift_pressed ui; ctrl_pressed := v |}.

(** The threads the interface starts, and the lines it prints itself; a
    line is kept with the number of lines the controller had printed
    before it. *)
Inductive UiThread : Type :=
| Connect_thread
| Telemetry_thread.

Inductive UiOutput : Type :=
| Ctrl_pressed_line
| Ctrl_released_line
| Rc_update_line (movement : gset Z).

Record UiWorld : Type := mkUiWorld {
  world : World;
  threads : list UiThread;
  ui_out : list (nat * UiOutput)
}.

Definition with_world (v : World) (uw : UiWorld) : UiWorld :=
  {| world := v; threads := threads uw; ui_out := ui_out uw |}.

Definition ui_world_at (w : World) : UiWorld :=
  {| world := w; threads := []; ui_out := [] |}.

(** A method body of the interface. *)
Definition UI (A : Type) : Type :=
  DroneInterface -> UiWorld -> Res A * DroneInterface * UiWorld.

Definition ui_ret {A : Type} (a : A) : UI A := fun ui uw => (Val a, ui, uw).

Definition ui_bind {A B : Type} (m : UI A) (k : A -> UI B) : UI B :=
  fun ui uw =>
    match m ui uw with
    | (Val a, ui', uw') => k a ui' uw'
    | (Exc e, ui', uw') => (Exc e, ui', uw')
    end.

Definition ui_read {A : Type} (f : DroneInterface -> A) : UI A :=
  fun ui uw => (Val (f ui), ui, uw).

Definition ui_assign (f : DroneInterface -> DroneInterface) : UI unit :=
  fun ui uw => (Val tt, f ui, uw).

Definition ui_print (o : UiOutput) : UI unit :=
  fun ui uw =>
    (Val tt, ui,
     {| world := world uw; threads := threads uw;
        ui_out := ui_out uw ++ [(length (out (world uw)), o)] |}).

Definition start_thread (t : UiThread) : UI unit :=
  fun ui uw =>
    (Val tt, ui,
     {| world := world uw; threads := threads uw ++ [t];
        ui_out := ui_out uw |}).

(** A call of a method of [self.drone_controller]. *)
Definition call {A : Type} (m : M A) : UI A :=
  fun ui uw =>
    let r := m (drone_controller ui) (world uw) in
    (result_of r, with_drone_controller (self_of r) ui,
     with_world (world_of r) uw).

Definition ui_when (b : bool) (m : UI unit) : UI unit :=
  if b then m else ui_ret tt.

Declare Scope ui_scope.
Delimit Scope ui_scope with ui.
Bind Scope ui_scope with UI.
Notation "x <- m ;; k" := (ui_bind m (fun x => k))
  (at level 100, m at next level, k at level 200, only parsing) : ui_scope.
Notation "m ;; k" := (ui_bind m (fun _ => k))
  (at level 100, k at level 200, only parsing) : ui_scope.

Definition is_shift (key : Z) : bool := (key =? K_LSHIFT) || (key =? K_RSHIFT).
Definition is_ctrl (key : Z) : bool := (key =? K_LCTRL) || (key =? K_RCTRL).

(** The set [movement_keys] of [update]. *)
Definition movement_keys : gset Z :=
  {[ K_w; K_a; K_s; K_d; K_q; K_e; K_i; K_k ]}.

Section Interface.

Variables REAL_MOVEMENT_SPEED REAL_VERTICAL_SPEED REAL_ROTATION_SPEED : Z.

Local Open Scope ui_scope.

(** A bound method of the controller, called. *)
Definition invoke (op : Op) : UI unit :=
  call (perform REAL_MOVEMENT_SPEED REAL_VERTICAL_SPEED REAL_ROTATION_SPEED
          op).

(** The two dictionaries of [handle_key_press]. *)
Definition non_movement_commands : gmap Z Op :=
  list_to_map
    [(K_t, call_takeoff); (K_l, call_land); (K_h, call_emergency_stop);
     (K_f, call_flip_forward)].

Definition key_commands : gmap Z Op :=
  list_to_map
    [(K_w, call_move_forward); (K_s, call_move_back);
     (K_a, call_move_left); (K_d, call_move_right);
     (K_q, call_rotate_counter_clockwise); (K_e, call_rotate_clockwise);
     (K_i, call_move_up); (K_k, call_move_down);
     (K_t, call_takeoff); (K_l, call_land); (K_h, call_emergency_stop);
     (K_f, call_flip_forward)].

Definition handle_key_press (key : Z) : UI unit :=
  if key =? K_SPACE then call clear_command_queue
  else
    ui <- ui_read id ;;
    if negb (connected (drone_controller ui)) then ui_ret tt
    else if ctrl_pressed ui then
      match non_movement_commands !! key with
      | Some op => invoke op
      | None => ui_ret tt
      end
    else
      match key_commands !! key with
      | Some op => invoke op
      | None => ui_ret tt
      end.

(** [GamepadInterface.handle_click]: the loop over the buttons. *)
Fixpoint handle_click (bs : list (string * Rect)) (pos : Z * Z) : UI unit :=
  match bs with
  | [] => ui_ret tt
  | (button_name, button_rect) :: bs' =>
      ui_when (collidepoint button_rect pos)
        (if String.eqb button_name "emergency" then call emergency_stop
         else
           ui <- ui_read id ;;
           if connected (drone_controller ui) then
             if String.eqb button_name "takeoff" then call takeoff
             else if String.eqb button_name "land" then call land
             else ui_ret tt
           else ui_ret tt) ;;
      handle_click bs' pos
  end.

Definition handle_mouse_click (pos : Z * Z) : UI unit :=
  ui_when (collidepoint connect_button pos)
    (ui <- ui_read id ;;
     if ConnectionStatus_eqb (connection_status (drone_controller ui))
          DISCONNECTED
     then start_thread Connect_thread
     else call disconnect) ;;
  handle_click buttons pos.

(** The body of the loop of [handle_events], for one event. *)
Definition handle_event (event : Event) : UI unit :=
  match event with
  | QUIT => ui_assign (with_running false)
  | KEYDOWN key =>
      ui_assign (fun ui => with_active_keys ({[ key ]} ∪ active_keys ui) ui) ;;
      ui_when (is_shift key)
        (ui_assign (with_shift_pressed true) ;;
         call (set_speed_multiplier (float_of_Z 3))) ;;
      ui_when (is_ctrl key)
        (ui_assign (with_ctrl_pressed true) ;;
         ui_print Ctrl_pressed_line ;;
         call start_rc_mode) ;;
      handle_key_press key
  | KEYUP key =>
      ui_assign (fun ui => with_active_keys (active_keys ui ∖ {[ key ]}) ui) ;;
      ui_when (is_shift key)
        (ui_assign (with_shift_pressed false) ;;
         call (set_speed_multiplier (float_of_Z 1))) ;;
      ui_when (is_ctrl key)
        (ui_assign (with_ctrl_pressed false) ;;
         ui_print Ctrl_released_line ;;
         call stop_rc_mode)
  | MOUSEBUTTONDOWN button pos =>
      ui_when (button =? 1) (handle_mouse_click pos)
  | OTHER_EVENT => ui_ret tt
  end.

(** [handle_events], on the events that [pygame.event.get()] returned. *)
Fixpoint handle_events (events : list Event) : UI unit :=
  match events with
  | [] => ui_ret tt
  | event :: rest => handle_event event ;; handle_events rest
  end.

Definition update : UI unit :=
  current_time <- call time_time ;;
  ui <- ui_read id ;;
  ui_when (Q_ge (current_time - last_telemetry_update ui)
             telemetry_update_interval)
    (ui_when (connected (drone_controller ui))
       (start_thread Telemetry_thread) ;;
     ui_assign (with_last_telemetry_update current_time)) ;;
  ui <- ui_read id ;;
  ui_when (ctrl_pressed ui && connected (drone_controller ui))
    (ui_when (negb (bool_decide (active_keys ui = ∅)))
       (let active_movement := active_keys ui ∩ movement_keys in
        ui_when (negb (bool_decide (active_movement = ∅)))
          (ui_print (Rc_update_line active_movement))) ;;
     call (update_rc_control (active_keys ui))).

(** The loop of [run], fed with the events of successive frames; the
    result tells whether the loop has ended (and the link was torn down)
    or waits for more frames. *)
Fixpoint main_loop (frames : list (list Event)) : UI bool :=
  match frames with
  | [] =>
      ui <- ui_read id ;;
      if running ui then ui_ret false
      else call disconnect ;; ui_ret true
  | events :: rest =>
      ui <- ui_read id ;;
      if running ui then handle_events events ;; update ;; main_loop rest
      else call disconnect ;; ui_ret true
  end.

(** The bodies of the threads, up to their first call on the link. *)
Definition thread_body (t : UiThread) : UI (option Pending) :=
  match t with
  | Connect_thread => call connect_begin
  | Telemetry_thread => call (telemetry_begin false)
  end.

(** What can happen to the interface: a frame of the loop; a thread that
    starts to run, or goes on after the call it was blocked in; a task of
    the controller being run.  Frames, thread segments and tasks come in
    any order. *)
Inductive UiOp : Type :=
| do_frame (events : list Event)
| do_thread (t : UiThread)
| do_resume (p : Pending)
| do_notify_imu_ready
| do_rc_stop_timer.

Definition ui_perform (o : UiOp) : UI unit :=
  match o with
  | do_frame events => handle_events events ;; update
  | do_thread t => thread_body t ;; ui_ret tt
  | do_resume p => call (resume p) ;; ui_ret tt
  | do_notify_imu_ready => call notify_imu_ready
  | do_rc_stop_timer => call rc_stop_timer
  end.

Definition ui_step (c : DroneInterface * UiWorld) (o : UiOp)
  : DroneInterface * UiWorld :=
  let r := ui_perform o (fst c) (snd c) in (snd (fst r), snd r).

Definition ui_run (os : list UiOp) (c : DroneInterface * UiWorld)
  : DroneInterface * UiWorld :=
  fold_left ui_step os c.

End Interface.

(** [ui_keeps R m]: running [m] takes the interface to one related to it
    by [R], whether [m] returns or raises. *)
Definition ui_keeps (R : DroneInterface -> DroneInterface -> Prop)
  {A : Type} (m : UI A) : Prop :=
  forall ui uw, R ui (snd (fst (m ui uw))).

(** The multiplier, the queue and the continuous mode are what they
    were. *)
Definition same_settings (s s' : DroneController) : Prop :=
  speed_multiplier s' = speed_multiplier s
  /\ command_queue s' = command_queue s
  /\ rc_mode_active s' = rc_mode_active s.

(** What the interface maintains about its controller: the multiplier is
    the one of the shift state, nothing is ever queued, and the continuous
    mode is active only while a Ctrl key counts as held. *)
Definition consistent (ui : DroneInterface) : Prop :=
  speed_multiplier (drone_controller ui)
  = float_of_Z (if shift_pressed ui then 3 else 1)
  /\ command_queue (drone_controller ui) = []
  /\ (rc_mode_active (drone_controller ui) = true -> ctrl_pressed ui = true).

(** The operations that touch none of the multiplier, the queue and the
    continuous mode. *)
Definition ordinary (op : Op) : bool :=
  match op with
  | call_set_speed_multiplier _ | call_clear_command_queue
  | call_start_rc_mode | call_stop_rc_mode | call_disconnect => false
  | _ => true
  end.

(** [consistent] is kept. *)
Definition stays_consistent (ui ui' : DroneInterface) : Prop :=
  consistent ui -> consistent ui'.

(** The held keys are what they were. *)
Definition same_keys (ui ui' : DroneInterface) : Prop :=
  active_keys ui' = active_keys ui.

Definition result_of_ui {A : Type} (r : Res A * DroneInterface * UiWorld)
  : Res A := fst (fst r).
Definition interface_of {A : Type} (r : Res A * DroneInterface * UiWorld)
  : DroneInterface := snd (fst r).
Definition ui_world_of {A : Type} (r : Res A * DroneInterface * UiWorld)
  : UiWorld := snd r.

(** The points of a rectangle. *)
Definition inside (r : Rect) (pos : Z * Z) : Prop :=
  rect_x r <= fst pos < rect_x r + rect_w r
  /\ rect_y r <= snd pos < rect_y r + rect_h r.

(** The three buttons of the gamepad panel. *)
Definition takeoff_button : Rect := mkRect 450 450 100 40.
Definition land_button : Rect := mkRect 570 450 100 40.
Definition emergency_button : Rect := mkRect 690 450 100 40.

(** A stopped interface stays stopped. *)
Definition stays_stopped (ui ui' : DroneInterface) : Prop :=
  running ui = false -> running ui' = false.

(** A run of the interface in which a second click on the connect button
    comes while the thread of the first is blocked in [connect()]: the
    click starts the thread, the thread builds the link object (call 0)
    and issues the connection (call 1), the second click disconnects, and
    the connection is then accepted. *)
Definition overtaken_run : DroneInterface * UiWorld :=
  ui_run 30 30 30
    [do_frame [MOUSEBUTTONDOWN 1 (950, 60)];
     do_thread Connect_thread;
     do_resume (In_Tello 0);
     do_frame [MOUSEBUTTONDOWN 1 (950, 60)];
     do_resume (In_connect 1)]
    (init_interface true, ui_world_at (world_at [1000%Q] link_ok)).

(** ** The battery bar of the telemetry panel

    The one computation of [TelemetryPanel.draw]
    (src/telemetry_panel.py): the rectangle and the colour of the battery
    fill.  The colours are the names of [global_variables]. *)
Inductive Color : Type :=
| GREEN
| ORANGE
| RED.

(** [int((battery_level / 100) * 198)]. *)
Definition fill_width (battery_level : Z) : Z :=
  py_int (inject_Z battery_level / 100 * 198).

(** [bar_rect], for a panel at [(x, y)]: [y_offset] is 80 there. *)
Definition bar_rect (x y : Z) : Rect := mkRect (x + 10) (y + 80 + 25) 200 20.

(** What is drawn inside the bar: nothing, or a rectangle in a colour. *)
Definition battery_fill (x y : Z) (battery_level : Z)
  : option (Color * Rect) :=
  if fill_width battery_level >? 0 then
    let fill_color :=
      if battery_level >? 30 then GREEN
      else if battery_level >? 15 then ORANGE else RED in
    Some (fill_color,
          mkRect (rect_x (bar_rect x y) + 1) (rect_y (bar_rect x y) + 1)
            (fill_width battery_level) 18)
  else None.

(** * Properties *)

(** ** Frame rules

    For a preorder [R], [keeps R] goes through sequencing and exception
    handling. *)

Section Keeps.

Variable R : DroneController -> DroneController -> Prop.
Hypothesis R_refl : forall s, R s s.
Hypothesis R_trans : forall a b c, R a b -> R b c -> R a c.

Lemma keeps_ret {A : Type} (a : A) : keeps R (ret a).
Proof. intros self w. apply R_refl. Qed.

Lemma keeps_throw {A : Type} (e : Exn) : keeps R (@throw A e).
Proof. intros self w. apply R_refl. Qed.

Lemma keeps_read {A : Type} (f : DroneController -> A) : keeps R (read f).
Proof. intros self w. apply R_refl. Qed.

Lemma keeps_time_time : keeps R time_time.
Proof. intros self w. apply R_refl. Qed.

Lemma keeps_print (o : Output) : keeps R (print o).
Proof. intros self w. apply R_refl. Qed.

Lemma keeps_spawn (d : Deferred) : keeps R (spawn d).
Proof. intros self w. apply R_refl. Qed.

Lemma keeps_link_call (c : LinkCall) : keeps R (link_call c).
Proof.
  intros self w. unfold link_call.
  destruct (link w (length (calls w)) c); apply R_refl.
Qed.

Lemma keeps_lift {A : Type} (r : Res A) : keeps R (lift r).
Proof. intros self w. apply R_refl. Qed.

Lemma keeps_link_issue (c : LinkCall) : keeps R (link_issue c).
Proof. intros self w. apply R_refl. Qed.

Lemma keeps_link_answer (n : nat) (c : LinkCall) :
  keeps R (link_answer n c).
Proof.
  intros self w. unfold link_answer.
  destruct (link w n c); apply R_refl.
Qed.

Lemma keeps_tello_attr (attr : string) : keeps R (tello_attr attr).
Proof.
  intros self w. unfold tello_attr. destruct (tello self); apply R_refl.
Qed.

Lemma keeps_assign (f : DroneController -> DroneController) :
  (forall s, R s (f s)) -> keeps R (assign f).
Proof. intros H self w. apply H. Qed.

Lemma keeps_bind {A B : Type} (m : M A) (k : A -> M B) :
  keeps R m -> (forall a, keeps R (k a)) -> keeps R (bind m k).
Proof.
  intros Hm Hk self w. unfold bind.
  specialize (Hm self w).
  destruct (m self w) as [[[a | e] self'] w']; cbn in *.
  - eapply R_trans; [exact Hm | apply Hk].
  - exact Hm.
Qed.

Lemma keeps_try_except {A : Type} (m : M A) (h : Exn -> M A) :
  keeps R m -> (forall e, keeps R (h e)) -> keeps R (try_except m h).
Proof.
  intros Hm Hh self w. unfold try_except.
  specialize (Hm self w).
  destruct (m self w) as [[[a | e] self'] w']; cbn in *.
  - exact Hm.
  - eapply R_trans; [exact Hm | apply Hh].
Qed.

Lemma keeps_when (b : bool) (m : M unit) :
  keeps R m -> keeps R (when b m).
Proof. intros Hm. destruct b; cbn; [exact Hm | apply keeps_ret]. Qed.

Lemma keeps_void {A : Type} (m : M A) : keeps R m -> keeps R (void m).
Proof. intros Hm. apply keeps_bind; [exact Hm | intros; apply keeps_ret]. Qed.

End Keeps.

Lemma keeps_weaken (R R' : DroneController -> DroneController -> Prop)
  {A : Type} (m : M A) :
  (forall s s', R s s' -> R' s s') -> keeps R m -> keeps R' m.
Proof. intros H Hm self w. apply H, Hm. Qed.

(** Decomposition of a method body along its sequencing, branches included;
    [leaf] closes the side conditions of the assignments and the calls of
    other methods. *)
Ltac keeps_go Hrefl Htrans leaf :=
  repeat first
    [ solve [ leaf ]
    | apply (keeps_ret _ Hrefl)
    | apply (keeps_throw _ Hrefl)
    | apply (keeps_read _ Hrefl)
    | apply (keeps_time_time _ Hrefl)
    | apply (keeps_print _ Hrefl)
    | apply (keeps_spawn _ Hrefl)
    | apply (keeps_link_call _ Hrefl)
    | apply (keeps_lift _ Hrefl)
    | apply (keeps_link_issue _ Hrefl)
    | apply (keeps_link_answer _ Hrefl)
    | apply (keeps_tello_attr _ Hrefl)
    | apply (keeps_when _ Hrefl)
    | apply (keeps_void _ Hrefl Htrans)
    | apply (keeps_bind _ Htrans); [ | intro ]
    | apply (keeps_try_except _ Htrans); [ | intro ]
    | apply keeps_assign; solve [ leaf ]
    | match goal with
      | |- keeps _ (if ?b then _ else _) => destruct b
      | |- keeps _ (match ?x with _ => _ end) => destruct x
      end ].

(** ** The flight flags are touched by take-off, landing and the
    stabilisation check only *)


Lemma same_flight_refl (s : DroneController) : same_flight s s.
Proof. split; reflexivity. Qed.

Lemma same_flight_trans (a b c : DroneController) :
  same_flight a b -> same_flight b c -> same_flight a c.
Proof. intros [H1 H2] [H3 H4]. split; congruence. Qed.

Create HintDb flight discriminated.

Ltac flight_leaf :=
  first [ intros; split; reflexivity | auto with flight nocore ].
Ltac flight := keeps_go same_flight_refl same_flight_trans flight_leaf.

Lemma play_beep_flight (f : Z) (d : Q) : keeps same_flight (play_beep f d).
Proof. unfold play_beep. flight. Qed.
#[local] Hint Resolve play_beep_flight : flight.

Lemma check_ready_beep_flight : keeps same_flight check_ready_beep.
Proof. unfold check_ready_beep. flight. Qed.
#[local] Hint Resolve check_ready_beep_flight : flight.

Lemma update_telemetry_flight : keeps same_flight update_telemetry.
Proof. unfold update_telemetry. flight. Qed.
#[local] Hint Resolve update_telemetry_flight : flight.

Lemma connect_flight : keeps same_flight connect.
Proof. unfold connect. flight. Qed.

Lemma set_speed_multiplier_flight (m : float) :
  keeps same_flight (set_speed_multiplier m).
Proof. unfold set_speed_multiplier. flight. Qed.

Lemma clear_command_queue_flight : keeps same_flight clear_command_queue.
Proof. unfold clear_command_queue. flight. Qed.

Lemma can_execute_command_flight : keeps same_flight can_execute_command.
Proof. unfold can_execute_command. flight. Qed.
#[local] Hint Resolve can_execute_command_flight : flight.

Lemma execute_command_flight (f : Command) (args : list Arg) :
  keeps same_flight (execute_command f args).
Proof. unfold execute_command, report_command_failure. flight. Qed.
#[local] Hint Resolve execute_command_flight : flight.

Lemma execute_rc_movement_flight (f : Command) (args : list Arg) :
  keeps same_flight (execute_rc_movement f args).
Proof. unfold execute_rc_movement. flight. Qed.
#[local] Hint Resolve execute_rc_movement_flight : flight.

Lemma rc_stop_timer_flight : keeps same_flight rc_stop_timer.
Proof. unfold rc_stop_timer. flight. Qed.

Lemma flip_forward_flight : keeps same_flight flip_forward.
Proof. unfold flip_forward. flight. Qed.

Lemma emergency_stop_flight : keeps same_flight emergency_stop.
Proof. unfold emergency_stop. flight. Qed.

Lemma start_rc_mode_flight : keeps same_flight start_rc_mode.
Proof. unfold start_rc_mode. flight. Qed.

Lemma stop_rc_mode_flight : keeps same_flight stop_rc_mode.
Proof. unfold stop_rc_mode. flight. Qed.
#[local] Hint Resolve stop_rc_mode_flight : flight.

Lemma update_rc_control_flight (keys : gset Z) :
  keeps same_flight (update_rc_control keys).
Proof. unfold update_rc_control. flight. Qed.

Lemma disconnect_flight : keeps same_flight disconnect.
Proof. unfold disconnect. flight. Qed.

(** ** Methods that never raise, and what the tail of a method ensures *)

Lemma returns_ret {A : Type} (a : A) : returns (ret a).
Proof. intros self w. eexists; reflexivity. Qed.

Lemma returns_bind {A B : Type} (m : M A) (k : A -> M B) :
  returns m -> (forall a, returns (k a)) -> returns (bind m k).
Proof.
  intros Hm Hk self w. unfold bind.
  destruct (Hm self w) as [a Ha].
  destruct (m self w) as [[r self'] w']; cbn in Ha; subst r.
  apply Hk.
Qed.

Lemma returns_try_except {A : Type} (m : M A) (h : Exn -> M A) :
  (forall e, returns (h e)) -> returns (try_except m h).
Proof.
  intros Hh self w. unfold try_except.
  destruct (m self w) as [[[a | e] self'] w'];
    [ eexists; reflexivity | apply Hh ].
Qed.

Lemma returns_when (b : bool) (m : M unit) :
  returns m -> returns (when b m).
Proof. intros H. destruct b; [exact H | apply returns_ret]. Qed.

Ltac returns_go leaf :=
  repeat first
    [ apply returns_ret
    | apply returns_try_except; intro
    | apply returns_when
    | apply returns_bind; [ | intro ]
    | solve [ intros ? ?; eexists; reflexivity ]
    | solve [ leaf ]
    | match goal with
      | |- returns (if ?b then _ else _) => destruct b
      | |- returns (match ?x with _ => _ end) => destruct x
      end ].

Lemma ensures_bind {A B : Type} (Q : DroneController -> Prop) (m : M A)
  (k : A -> M B) :
  (forall a, ensures Q (k a)) -> ensures Q (bind m k).
Proof.
  intros Hk self w. unfold bind.
  destruct (m self w) as [[[a | e] self'] w']; cbn; [ apply Hk | exact I ].
Qed.

Lemma stop_rc_mode_returns : returns stop_rc_mode.
Proof. unfold stop_rc_mode. returns_go fail. Qed.

Lemma disconnect_returns : returns disconnect.
Proof.
  unfold disconnect. returns_go ltac:(apply stop_rc_mode_returns).
Qed.

Lemma disconnect_ensures :
  ensures (fun s => connection_status s = DISCONNECTED /\ tello s = None)
    disconnect.
Proof.
  unfold disconnect. do 4 (apply ensures_bind; intro).
  intros self w. cbn. split; reflexivity.
Qed.

(** C10. From every state and in every world, [disconnect] returns (link
    errors during the teardown are swallowed) with the status
    [DISCONNECTED] and no link handle, and [is_flying] and [imu_ready] are
    what they were before the call; they still are after a [connect] that
    follows, so a controller disconnected in flight stays in flight. *)
Theorem disconnect_leaves_flight_state
  (self : DroneController) (w w' : World) :
  let r := disconnect self w in
  let r' := connect (self_of r) w' in
  result_of r = Val tt
  /\ connection_status (self_of r) = DISCONNECTED
  /\ tello (self_of r) = None
  /\ is_flying (self_of r) = is_flying self
  /\ imu_ready (self_of r) = imu_ready self
  /\ is_flying (self_of r') = is_flying self
  /\ imu_ready (self_of r') = imu_ready self.
Proof.
  intros r r'.
  destruct (disconnect_returns self w) as [[] Hret].
  pose proof (disconnect_ensures self w) as Hens. rewrite Hret in Hens.
  destruct Hens as [Hs Ht].
  destruct (disconnect_flight self w) as [Hf Hi].
  destruct (connect_flight (self_of r) w') as [Hf' Hi'].
  subst r r'. repeat split; try assumption; congruence.
Qed.

(** ** The invariant of the flight state *)

Lemma flight_safe_refl s : flight_safe s s.
Proof. right. apply same_flight_refl. Qed.

Lemma flight_safe_trans a b c : flight_safe a b -> flight_safe b c -> flight_safe a c.
Proof.
  intros Hab [Hc | Hbc]; [ left; exact Hc | ].
  destruct Hab as [Hb | Hab].
  - left. destruct Hbc as [H1 H2]. intros Hc. rewrite H2. apply Hb. congruence.
  - right. eapply same_flight_trans; eassumption.
Qed.

Lemma flight_safe_inv s s' : flight_safe s s' -> grounded_unready s -> grounded_unready s'.
Proof.
  intros [H | [H1 H2]] Hs; [ exact H | ].
  intros Hc. rewrite H2. apply Hs. congruence.
Qed.

Lemma check_imu_ready_safe : keeps flight_safe check_imu_ready.
Proof.
  intros self w. unfold check_imu_ready, bind, read, when, time_time, assign, ret, self_of.
  cbn. destruct (is_flying self) eqn:Hf; cbn.
  - destruct (Q_ge _ _); cbn.
    + left. intros H. cbn in H. congruence.
    + right. apply same_flight_refl.
  - right. apply same_flight_refl.
Qed.

Lemma notify_imu_ready_safe : keeps flight_safe notify_imu_ready.
Proof.
  intros self w. unfold notify_imu_ready, bind, read, when, assign, print, self_of.
  cbn. destruct (is_flying self) eqn:Hf; cbn.
  - left. intros H. cbn in H. congruence.
  - right. apply same_flight_refl.
Qed.

Lemma takeoff_flags (self : DroneController) (w : World) :
  let self' := self_of (takeoff self w) in
  (is_flying self' = true /\ imu_ready self' = false)
  \/ same_flight self self'.
Proof.
  unfold takeoff.
  pose proof (execute_command_flight cmd_takeoff []) as Hx.
  generalize dependent (execute_command cmd_takeoff []). intros m Hx.
  unfold self_of, bind, read, print, tello_attr. cbn.
  destruct (is_flying self) eqn:Hf; [ right; apply same_flight_refl | ].
  destruct (tello self) eqn:Ht; cbn; [ | right; apply same_flight_refl ].
  specialize (Hx self (with_out (out w ++ [Attempting_takeoff]) w)).
  unfold self_of in Hx.
  destruct (m _ _) as [[[ok | e] s1] w1]; cbn in *.
  - destruct ok; cbn.
    + left. split; reflexivity.
    + right. exact Hx.
  - right. exact Hx.
Qed.

Lemma land_flags (self : DroneController) (w : World) :
  let self' := self_of (land self w) in
  (is_flying self' = false /\ imu_ready self' = false)
  \/ same_flight self self'.
Proof.
  unfold land.
  pose proof (execute_command_flight cmd_land []) as Hx.
  generalize dependent (execute_command cmd_land []). intros m Hx.
  unfold self_of, bind, read, print, tello_attr. cbn.
  destruct (is_flying self) eqn:Hf; cbn; [ | right; apply same_flight_refl ].
  destruct (tello self) eqn:Ht; cbn; [ | right; apply same_flight_refl ].
  specialize (Hx self (with_out (out w ++ [Landing]) w)).
  unfold self_of in Hx.
  destruct (m _ _) as [[[ok | e] s1] w1]; cbn in *.
  - destruct ok; cbn.
    + left. split; reflexivity.
    + right. exact Hx.
  - right. exact Hx.
Qed.

Lemma takeoff_safe : keeps flight_safe takeoff.
Proof.
  intros self w. destruct (takeoff_flags self w) as [[Hf Hr] | H].
  - left. intros Hg. congruence.
  - right. exact H.
Qed.

Lemma land_safe : keeps flight_safe land.
Proof.
  intros self w. destruct (land_flags self w) as [[Hf Hr] | H].
  - left. intros _. exact Hr.
  - right. exact H.
Qed.

Lemma same_flight_safe {A : Type} (m : M A) :
  keeps same_flight m -> keeps flight_safe m.
Proof. apply keeps_weaken. intros s s' H. right. exact H. Qed.

Create HintDb safe discriminated.
#[local] Hint Resolve check_imu_ready_safe notify_imu_ready_safe takeoff_safe
  land_safe : safe.

Ltac safe_leaf :=
  first [ auto with safe nocore
        | apply same_flight_safe; auto with flight nocore ].
Ltac safe := keeps_go flight_safe_refl flight_safe_trans safe_leaf.

Lemma execute_movement_command_safe (f : Command) (args : list Arg) :
  keeps flight_safe (execute_movement_command f args).
Proof. unfold execute_movement_command. safe. Qed.
#[local] Hint Resolve execute_movement_command_safe : safe.

Lemma movement_safe (attr : string) (f : Command) (magnitude : Z) :
  keeps flight_safe (movement attr f magnitude).
Proof. unfold movement. safe. Qed.
#[local] Hint Resolve movement_safe : safe.

#[local] Hint Resolve connect_flight disconnect_flight
  set_speed_multiplier_flight clear_command_queue_flight
  rc_stop_timer_flight flip_forward_flight emergency_stop_flight
  start_rc_mode_flight update_rc_control_flight : flight.

Lemma perform_safe (ms vs rs : Z) (op : Op) :
  keeps flight_safe (perform ms vs rs op).
Proof.
  destruct op; cbn [perform];
    unfold move_forward, move_back, move_left, move_right, move_up,
      move_down, rotate_clockwise, rotate_counter_clockwise; safe.
Qed.

Lemma run_grounded_unready (ms vs rs : Z) (ops : list Op)
  (c : DroneController * World) :
  grounded_unready (fst c) ->
  grounded_unready (fst (run ms vs rs ops c)).
Proof.
  revert c. induction ops as [ | op ops IH ]; intros [self w] H; cbn.
  - exact H.
  - apply IH. cbn. apply (flight_safe_inv self); [ | exact H ].
    apply perform_safe.
Qed.

Lemma init_grounded_unready (audio : bool) : grounded_unready (init audio).
Proof. intros _. reflexivity. Qed.

(** C4. In a state where [imu_ready] is false whenever [is_flying] is
    false, every operation of the controller (each public method, and the
    bodies of the two spawned tasks) ends in such a state, in every world
    and whether it returns or raises; so afterwards [imu_ready] is set only
    if the controller is flying.  A [takeoff] from the ground leaves
    [imu_ready] false whether the take-off succeeds or not, and a [land]
    that grounds the controller leaves it false. *)
Theorem grounded_unready_invariant (ms vs rs : Z) (op : Op)
  (self : DroneController) (w : World) :
  grounded_unready self ->
  let self' := fst (step ms vs rs (self, w) op) in
  grounded_unready self'
  /\ (imu_ready self' = true -> is_flying self' = true)
  /\ (op = call_takeoff -> is_flying self = false ->
      imu_ready self' = false)
  /\ (op = call_land -> is_flying self' = false -> imu_ready self' = false).
Proof.
  intros H self'.
  assert (H' : grounded_unready self').
  { apply (flight_safe_inv self); [ | exact H ]. apply perform_safe. }
  split; [ exact H' | ]. split; [ | split ].
  - intros Hr. destruct (is_flying self') eqn:Hf; [ reflexivity | ].
    rewrite (H' Hf) in Hr. discriminate.
  - intros -> Hg. subst self'.
    change (imu_ready (self_of (takeoff self w)) = false).
    destruct (takeoff_flags self w) as [[_ Hr] | [_ Hr]].
    + exact Hr.
    + rewrite Hr. exact (H Hg).
  - intros _ Hg. exact (H' Hg).
Qed.

Lemma grounded_unready_invariant_witness :
  grounded_unready in_flight_ready
  /\ grounded_unready
       (fst (step 30 30 30
               (in_flight_ready, world_at [1000%Q] link_ok) call_land)).
Proof.
  split.
  - intros H. vm_compute in H. discriminate.
  - apply (grounded_unready_invariant 30 30 30 call_land in_flight_ready
             (world_at [1000%Q] link_ok)).
    intros H. vm_compute in H. discriminate.
Defined.

(** ** Symbolic execution of a method body *)

#[local] Arguments float_mul : simpl never.
#[local] Arguments float_of_Z : simpl never.
#[local] Arguments float_gt : simpl never.
#[local] Arguments float_ge : simpl never.
#[local] Arguments int_of_float : simpl never.
#[local] Arguments rc_speed_of : simpl never.
#[local] Arguments scale_args : simpl never.

Ltac unfold_m :=
  unfold bind, ret, read, assign, print, spawn, time_time, tello_attr,
    try_except, when, link_call, link_issue, link_answer, lift, throw, void,
    self_of, world_of, result_of in *.

Lemma Q_ge_true (a b : Q) : Q_ge a b = true <-> (b <= a)%Q.
Proof. unfold Q_ge. apply Qle_bool_iff. Qed.

Lemma Q_ge_false (a b : Q) : Q_ge a b = false <-> (a < b)%Q.
Proof.
  unfold Q_ge. split.
  - intros E. apply Qnot_le_lt. intros H. apply Qle_bool_iff in H.
    congruence.
  - intros H. destruct (Qle_bool b a) eqn:E; [ | reflexivity ].
    apply Qle_bool_iff in E. exfalso. apply (Qlt_not_le _ _ H E).
Qed.

Ltac use_facts :=
  repeat match goal with
         | H : ?x = _ |- context [?x] => rewrite H
         end.
Ltac exec := unfold_m; repeat (progress (cbn; use_facts)).

Lemma takeoff_success (self : DroneController) (w : World) :
  is_flying self = false ->
  is_flying (self_of (takeoff self w)) = true ->
  imu_ready (self_of (takeoff self w)) = false
  /\ takeoff_time (self_of (takeoff self w)) = clock w (S (reads w))
  /\ spawned (world_of (takeoff self w))
     = spawned w ++ [Notify_imu_ready imu_stabilization_delay]
  /\ result_of (takeoff self w) = Val tt.
Proof.
  intros Hg.
  unfold takeoff, execute_command, can_execute_command,
    report_command_failure.
  exec.
  destruct (tello self) eqn:Ht; exec; [ | congruence ].
  destruct (connected self) eqn:Hc; exec; [ | congruence ].
  destruct (Q_ge _ _) eqn:Hq; exec; [ | congruence ].
  destruct (link w _ _) eqn:Hl; exec.
  - intros _. repeat split; reflexivity.
  - destruct (contains _ _); exec; congruence.
Qed.

Lemma check_imu_ready_grounded (self : DroneController) (w : World) :
  is_flying self = false -> check_imu_ready self w = (Val false, self, w).
Proof. intros Hg. unfold check_imu_ready. exec. reflexivity. Qed.

Lemma check_imu_ready_elapsed (self : DroneController) (w : World) :
  is_flying self = true ->
  (imu_stabilization_delay <= now w - takeoff_time self)%Q ->
  check_imu_ready self w
  = (Val true, with_imu_ready true self, with_reads (S (reads w)) w).
Proof.
  intros Hf Hd. apply Q_ge_true in Hd.
  unfold check_imu_ready. exec. reflexivity.
Qed.

Lemma check_imu_ready_waiting (self : DroneController) (w : World) :
  is_flying self = true ->
  (now w - takeoff_time self < imu_stabilization_delay)%Q ->
  check_imu_ready self w
  = (Val (imu_ready self), self, with_reads (S (reads w)) w).
Proof.
  intros Hf Hd. apply Q_ge_false in Hd.
  unfold check_imu_ready. exec. reflexivity.
Qed.

Lemma notify_imu_ready_flying (self : DroneController) (w : World) :
  is_flying self = true ->
  notify_imu_ready self w
  = (Val tt, with_imu_ready true self,
     with_out (out w ++ [Imu_stabilized]) w).
Proof. intros Hf. unfold notify_imu_ready. exec. reflexivity. Qed.

(** ** Take-off and the stabilisation delay *)

Lemma takeoff_succeeds (v : Z) (self : DroneController) (w : World) :
  is_flying self = false -> tello self <> None -> connected self = true ->
  (command_cooldown <= now w - last_command_time self)%Q ->
  link w (length (calls w)) (Invoke cmd_takeoff []) = Returns v ->
  is_flying (self_of (takeoff self w)) = true.
Proof.
  intros Hg Ht Hc Hq Hl. apply Q_ge_true in Hq. unfold now in Hq.
  destruct (tello self) eqn:E; [ | congruence ].
  unfold takeoff, execute_command, can_execute_command,
    report_command_failure.
  exec. reflexivity.
Qed.

(** C3. A [takeoff] from the ground succeeds when the link handle is
    there, the status is [CONNECTED], the cooldown has elapsed and the link
    accepts the command.  A [takeoff] that takes a grounded controller
    into flight leaves [imu_ready] false, stamps [takeoff_time] with the
    reading of the clock it takes once the link has answered, and spawns
    the task that sleeps for the stabilisation delay.  From then on, whenever a reading of the
    clock is at least 3 s after that stamp, [check_imu_ready] sets
    [imu_ready] and returns true; so does it in any flying state whose
    delay has elapsed, and the body of the spawned task sets the flag in
    any flying state.  On a grounded controller [check_imu_ready] returns
    false and changes nothing. *)
Theorem takeoff_then_imu_ready (self : DroneController) (w w2 : World) :
  (is_flying self = false -> tello self <> None -> connected self = true ->
   (command_cooldown <= now w - last_command_time self)%Q ->
   (exists v, link w (length (calls w)) (Invoke cmd_takeoff []) = Returns v)
   -> is_flying (self_of (takeoff self w)) = true)
  /\ (is_flying self = false ->
   is_flying (self_of (takeoff self w)) = true ->
   let self1 := self_of (takeoff self w) in
   imu_ready self1 = false
   /\ takeoff_time self1 = clock w (S (reads w))
   /\ spawned (world_of (takeoff self w))
      = spawned w ++ [Notify_imu_ready imu_stabilization_delay]
   /\ ((imu_stabilization_delay <= now w2 - clock w (S (reads w)))%Q ->
       result_of (check_imu_ready self1 w2) = Val true
       /\ imu_ready (self_of (check_imu_ready self1 w2)) = true)
   /\ imu_ready (self_of (notify_imu_ready self1 w2)) = true)
  /\ (is_flying self = true ->
      (imu_stabilization_delay <= now w - takeoff_time self)%Q ->
      result_of (check_imu_ready self w) = Val true
      /\ imu_ready (self_of (check_imu_ready self w)) = true)
  /\ (is_flying self = true ->
      imu_ready (self_of (notify_imu_ready self w)) = true)
  /\ (is_flying self = false ->
      check_imu_ready self w = (Val false, self, w)).
Proof.
  split; [ | split; [ | split; [ | split ] ] ].
  - intros Hg Ht Hc Hq [v Hl].
    exact (takeoff_succeeds v self w Hg Ht Hc Hq Hl).
  - intros Hg Hf self1.
    destruct (takeoff_success self w Hg Hf) as (Hr & Ht & Hs & _).
    fold self1 in Hr, Ht. split; [ exact Hr | ].
    split; [ exact Ht | ]. split; [ exact Hs | ]. split.
    + intros Hd. rewrite <- Ht in Hd.
      rewrite (check_imu_ready_elapsed self1 w2 Hf Hd). split; reflexivity.
    + rewrite (notify_imu_ready_flying self1 w2 Hf). reflexivity.
  - intros Hf Hd. rewrite (check_imu_ready_elapsed self w Hf Hd).
    split; reflexivity.
  - intros Hf. rewrite (notify_imu_ready_flying self w Hf). reflexivity.
  - apply check_imu_ready_grounded.
Qed.

Lemma takeoff_then_imu_ready_witness :
  let w := world_at [1000; 1004]%Q link_ok in
  let w2 := world_at [1007 # 1]%Q link_ok in
  let self1 := self_of (takeoff grounded_connected w) in
  (is_flying self1 = true /\ imu_ready self1 = false
   /\ takeoff_time self1 = 1004%Q
   /\ result_of (check_imu_ready self1 w2) = Val true)
  /\ check_imu_ready grounded_connected w = (Val false, grounded_connected, w).
Proof.
  intros w w2 self1.
  destruct (takeoff_then_imu_ready grounded_connected w w2)
    as (Hs & Ha & _ & _ & Hd).
  assert (Hf : is_flying self1 = true).
  { apply Hs; [ reflexivity | discriminate | reflexivity | | ].
    - vm_compute. discriminate.
    - exists 0. reflexivity. }
  destruct (Ha eq_refl Hf) as (H1 & H2 & _ & H4 & _).
  split; [ | exact (Hd eq_refl) ].
  split; [ exact Hf | ]. split; [ exact H1 | ]. split; [ exact H2 | ].
  apply H4. vm_compute. discriminate.
Defined.

(** ** Flips *)

Lemma flip_forward_refused (self : DroneController) (w : World) :
  is_flying self = false \/ imu_ready self = false ->
  flip_forward self w
  = (Val false, self,
     with_out (out w ++ [if is_flying self then Imu_must_stabilize
                         else Flip_requires_takeoff]) w).
Proof.
  intros H. unfold flip_forward.
  destruct (is_flying self) eqn:Hf; exec; [ | reflexivity ].
  destruct H as [H | H]; [ discriminate | ]. exec. reflexivity.
Qed.

(** A flip with both flags set goes to the dispatcher, whatever the time
    since the take-off. *)
Lemma flip_forward_dispatched (self : DroneController) (w : World) :
  is_flying self = true -> imu_ready self = true ->
  tello self <> None -> connected self = true ->
  (command_cooldown <= now w - last_command_time self)%Q ->
  calls (world_of (flip_forward self w))
  = calls w ++ [Invoke cmd_flip_forward []]
  /\ result_of (flip_forward self w)
     = Val match link w (length (calls w)) (Invoke cmd_flip_forward []) with
           | Returns _ => true
           | Raises _ => false
           end.
Proof.
  intros Hf Hr Ht Hc Hq. apply Q_ge_true in Hq. unfold now in Hq.
  destruct (tello self) eqn:E; [ | congruence ].
  unfold flip_forward, execute_command, can_execute_command,
    report_command_failure.
  exec. destruct (link w _ _); exec; [ split; reflexivity | ].
  destruct (contains _ _); split; reflexivity.
Qed.

(** C9, as the code has it.  When [is_flying] or [imu_ready] is false,
    [flip_forward] returns False, leaves the controller as it is and calls
    nothing on the link (it reads no clock, consumes no cooldown and spawns
    nothing): there is no fall-back on the continuous control.  The guard
    is the flag [imu_ready], not the time since the take-off: with both
    flags set, a link handle, the status [CONNECTED] and the cooldown
    elapsed, the flip is invoked on the link, whenever the take-off was.
    The guard is stricter than that of a movement: in flight before the
    flag is set a movement is served, by a pulse on the link, where the
    flip is refused. *)
Theorem flip_forward_needs_imu_ready (self : DroneController) (w : World) :
  let r := flip_forward self w in
  (is_flying self = false \/ imu_ready self = false ->
   result_of r = Val false
   /\ self_of r = self
   /\ calls (world_of r) = calls w
   /\ spawned (world_of r) = spawned w
   /\ reads (world_of r) = reads w)
  /\ (is_flying self = true -> imu_ready self = true ->
      tello self <> None -> connected self = true ->
      (command_cooldown <= now w - last_command_time self)%Q ->
      calls (world_of r) = calls w ++ [Invoke cmd_flip_forward []]
      /\ result_of r
         = Val match link w (length (calls w)) (Invoke cmd_flip_forward [])
               with
               | Returns _ => true
               | Raises _ => false
               end)
  /\ (let s := in_flight_unready 1000 in
      let w0 := world_at [1001; 1001]%Q link_ok in
      result_of (execute_movement_command cmd_move_forward [AInt 30] s w0)
      = Val true
      /\ calls (world_of (execute_movement_command cmd_move_forward
                            [AInt 30] s w0))
         = [Send_rc_control 0 50 0 0]
      /\ result_of (flip_forward s w0) = Val false
      /\ calls (world_of (flip_forward s w0)) = []).
Proof.
  intros r. split; [ | split ].
  - intros H. subst r. rewrite (flip_forward_refused self w H).
    repeat split; reflexivity.
  - intros Hf Hr Ht Hc Hq. subst r.
    apply (flip_forward_dispatched self w Hf Hr Ht Hc Hq).
  - vm_compute. repeat split; reflexivity.
Qed.

Lemma flip_forward_needs_imu_ready_witness :
  let s := in_flight_unready 1000 in
  let w := world_at [1001]%Q link_ok in
  (is_flying s = false \/ imu_ready s = false)
  /\ result_of (flip_forward s w) = Val false
  /\ calls (world_of (flip_forward s w)) = calls w
  /\ calls (world_of (flip_forward (with_imu_ready true s) w))
     = [Invoke cmd_flip_forward []].
Proof.
  intros s w.
  assert (H : is_flying s = false \/ imu_ready s = false)
    by (right; reflexivity).
  split; [ exact H | ].
  destruct (flip_forward_needs_imu_ready s w) as (Ha & _).
  destruct (Ha H) as (H1 & _ & H3 & _).
  destruct (flip_forward_needs_imu_ready (with_imu_ready true s) w)
    as (_ & Hb & _).
  destruct Hb as (H4 & _);
    [ reflexivity | reflexivity | discriminate | reflexivity
    | vm_compute; discriminate | ].
  split; [ exact H1 | ]. split; [ exact H3 | exact H4 ].
Defined.

(** C9, as stated, fails on the code: a flip can be dispatched during the
    stabilisation window.  After a take-off, a landing and a second
    take-off, the task of the first take-off sets [imu_ready]; a flip 1 s
    after the second take-off is then invoked on the link. *)
Lemma flip_counterexample :
  let self := fst stale_task_run in
  let w := snd stale_task_run in
  let r := flip_forward self w in
  is_flying self = true
  /\ imu_ready self = true
  /\ (now w - takeoff_time self < imu_stabilization_delay)%Q
  /\ calls (world_of r) = calls w ++ [Invoke cmd_flip_forward []]
  /\ result_of r = Val true.
Proof.
  cbv zeta.
  split; [ vm_compute; reflexivity | ].
  split; [ vm_compute; reflexivity | ].
  split; vm_compute; [ reflexivity | ].
  split; reflexivity.
Qed.

(** ** The command throttle *)

Lemma can_execute_command_eq (self : DroneController) (w : World) :
  can_execute_command self w
  = if Q_ge (now w - last_command_time self) command_cooldown
    then (Val true, with_last_command_time (now w) self,
          with_reads (S (reads w)) w)
    else (Val false, self, with_reads (S (reads w)) w).
Proof.
  unfold can_execute_command. exec.
  destruct (Q_ge _ _); reflexivity.
Qed.

Lemma polls_throttled (n : nat) (self : DroneController) (w : World) :
  let h := fst (polls n self w) in
  length h = n
  /\ throttled (last_command_time self) h
  /\ last_command_time (fst (snd (polls n self w)))
     = last_granted (last_command_time self) h.
Proof.
  revert self w. induction n as [ | n IH ]; intros self w; cbn [polls].
  - repeat split; reflexivity.
  - rewrite can_execute_command_eq.
    destruct (Q_ge _ _) eqn:Hq.
    + specialize (IH (with_last_command_time (now w) self)
                    (with_reads (S (reads w)) w)).
      destruct (polls n _ _) as [h c]. cbn in *.
      destruct IH as (Hl & Ht & Hg).
      split; [ congruence | ]. split; [ | exact Hg ].
      split; [ | exact Ht ].
      split; [ intros _; apply Q_ge_true, Hq | reflexivity ].
    + specialize (IH self (with_reads (S (reads w)) w)).
      destruct (polls n _ _) as [h c]. cbn in *.
      destruct IH as (Hl & Ht & Hg).
      split; [ congruence | ]. split; [ | exact Hg ].
      split; [ | exact Ht ].
      split; [ discriminate | ].
      intros H. apply Q_ge_true in H. congruence.
Qed.

Lemma throttled_after (last0 last : Q) (h : list (Q * bool)) :
  (last0 <= last)%Q -> throttled last h ->
  Forall (fun e => snd e = true -> (command_cooldown <= fst e - last0)%Q) h.
Proof.
  revert last. induction h as [ | [t b] h IH ]; intros last Hle Ht.
  - constructor.
  - destruct Ht as [Hb Ht]. constructor.
    + cbn. intros ->. apply proj1 in Hb. specialize (Hb eq_refl).
      unfold command_cooldown in *. lra.
    + destruct b.
      * apply (IH t); [ | exact Ht ].
        apply proj1 in Hb. specialize (Hb eq_refl).
        unfold command_cooldown in *. lra.
      * apply (IH last); assumption.
Qed.

Lemma throttled_spaced (last : Q) (h : list (Q * bool)) :
  throttled last h -> spaced h.
Proof.
  revert last. induction h as [ | [t b] h IH ]; intros last Ht.
  - exact I.
  - destruct Ht as [Hb Ht]. split.
    + intros ->. apply (throttled_after t t); [ lra | exact Ht ].
    + eapply IH. exact Ht.
Qed.

Lemma execute_command_attempt (f : Command) (args : list Arg) (msg : string)
  (self : DroneController) (w : World) :
  tello self <> None -> connected self = true ->
  (command_cooldown <= now w - last_command_time self)%Q ->
  link w (length (calls w)) (Invoke f args) = Raises msg ->
  result_of (execute_command f args self w) = Val false
  /\ self_of (execute_command f args self w)
     = with_last_command_time (now w) self.
Proof.
  intros Ht Hc Hq Hl. apply Q_ge_true in Hq.
  destruct (tello self) eqn:E; [ | congruence ].
  unfold execute_command, can_execute_command, report_command_failure.
  exec. destruct (contains _ _); split; reflexivity.
Qed.

(** C2. [can_execute_command] returns true iff the instant it reads is at
    least 0.5 s after [last_command_time]; when it returns true it stamps
    that instant as [last_command_time] and changes nothing else, and when
    it returns false it changes nothing.  So a call that follows a granted
    one by less than 0.5 s is refused, and along any number of calls a
    call is granted iff at least 0.5 s have passed since the last granted
    one, granted calls being at least 0.5 s apart.  This holds for every
    clock, a monotone one included.  The stamp is taken by the attempt: an
    [execute_command] whose link call raises has consumed the window. *)
Theorem can_execute_command_throttle (self : DroneController) (w : World)
  (n : nat) :
  let r := can_execute_command self w in
  (result_of r = Val true
   <-> (command_cooldown <= now w - last_command_time self)%Q)
  /\ (result_of r = Val true ->
      self_of r = with_last_command_time (now w) self)
  /\ (result_of r <> Val true -> result_of r = Val false /\ self_of r = self)
  /\ (result_of r = Val true ->
      (now (world_of r) - now w < command_cooldown)%Q ->
      result_of (can_execute_command (self_of r) (world_of r)) = Val false)
  /\ (let h := fst (polls n self w) in
      length h = n
      /\ throttled (last_command_time self) h
      /\ spaced h
      /\ last_command_time (fst (snd (polls n self w)))
         = last_granted (last_command_time self) h)
  /\ (forall f args msg,
        tello self <> None -> connected self = true ->
        (command_cooldown <= now w - last_command_time self)%Q ->
        link w (length (calls w)) (Invoke f args) = Raises msg ->
        result_of (execute_command f args self w) = Val false
        /\ last_command_time (self_of (execute_command f args self w))
           = now w).
Proof.
  intros r. subst r. rewrite can_execute_command_eq.
  destruct (Q_ge (now w - last_command_time self) command_cooldown) eqn:Hq.
  - pose proof (proj1 (Q_ge_true _ _) Hq) as Hle.
    split; [ split; [ intros _; exact Hle | reflexivity ] | ].
    split; [ reflexivity | ].
    split; [ intros H; exfalso; apply H; reflexivity | ].
    split.
    + intros _ Hlt. rewrite can_execute_command_eq.
      cbn [self_of world_of fst snd] in *.
      assert (Hf : Q_ge (now (with_reads (S (reads w)) w)
                         - last_command_time
                             (with_last_command_time (now w) self))
                     command_cooldown = false).
      { apply Q_ge_false. cbn [last_command_time with_last_command_time].
        exact Hlt. }
      rewrite Hf. reflexivity.
    + split.
      * destruct (polls_throttled n self w) as (H1 & H2 & H3).
        split; [ exact H1 | ]. split; [ exact H2 | ].
        split; [ exact (throttled_spaced _ _ H2) | exact H3 ].
      * intros f args msg Ht Hc Hq' Hl.
        destruct (execute_command_attempt f args msg self w Ht Hc Hq' Hl)
          as [H1 H2].
        split; [ exact H1 | rewrite H2; reflexivity ].
  - pose proof (proj1 (Q_ge_false _ _) Hq) as Hlt.
    split; [ split; [ discriminate | ] | ].
    { intros H. apply Q_ge_true in H. congruence. }
    split; [ discriminate | ].
    split; [ intros _; split; reflexivity | ].
    split; [ discriminate | ].
    split.
    + destruct (polls_throttled n self w) as (H1 & H2 & H3).
      split; [ exact H1 | ]. split; [ exact H2 | ].
      split; [ exact (throttled_spaced _ _ H2) | exact H3 ].
    + intros f args msg Ht Hc Hq' Hl.
      destruct (execute_command_attempt f args msg self w Ht Hc Hq' Hl)
        as [H1 H2].
      split; [ exact H1 | rewrite H2; reflexivity ].
Qed.

Lemma can_execute_command_throttle_witness :
  let w := world_at [1000; 1000 + (3 # 10); 1000 + (6 # 10)]%Q
             (link_failing_at 0 "error") in
  fst (polls 3 (init true) w)
  = [(1000, true); (1000 + (3 # 10), false); (1000 + (6 # 10), true)]%Q
  /\ throttled 0 (fst (polls 3 (init true) w))
  /\ result_of (execute_command cmd_takeoff [] grounded_connected w)
     = Val false
  /\ last_command_time
       (self_of (execute_command cmd_takeoff [] grounded_connected w))
     = 1000%Q.
Proof.
  intros w. split; [ vm_compute; reflexivity | ].
  destruct (can_execute_command_throttle (init true) w 3)
    as (_ & _ & _ & _ & (_ & Ht & _) & _).
  split; [ exact Ht | ].
  destruct (can_execute_command_throttle grounded_connected w 0)
    as (_ & _ & _ & _ & _ & Hx).
  apply (Hx cmd_takeoff [] "error"%string).
  - discriminate.
  - reflexivity.
  - vm_compute. discriminate.
  - reflexivity.
Defined.

(** ** The control vector *)

(** *** Floats: signs and conversions *)

Lemma binary_round_aux_sign (s : bool) (m e : Z) (l : location) :
  let x := binary_round_aux 53 1024 s m e l in
  x = S754_nan \/ float_sign x = Some s.
Proof.
  unfold binary_round_aux.
  destruct (shr_fexp 53 1024 m e l) as [mrs' e'].
  destruct (shr_fexp 53 1024 _ e' loc_Exact) as [mrs'' e''].
  destruct (shr_m mrs'') as [ | p | p ].
  - right. reflexivity.
  - destruct (e'' <=? 1024 - 53)%Z; right; reflexivity.
  - left. reflexivity.
Qed.

(** The product of two floats has the product of their signs. *)
Lemma float_mul_sign (x y : float) (sx sy : bool) :
  float_sign x = Some sx -> float_sign y = Some sy ->
  float_mul x y = S754_nan \/ float_sign (float_mul x y) = Some (xorb sx sy).
Proof.
  intros Hx Hy. unfold float_mul.
  destruct x as [a | a | | a mx ex], y as [b | b | | b my ey];
    cbn in Hx, Hy; try discriminate;
    injection Hx as <-; injection Hy as <-; cbn [SFmul];
    try (right; reflexivity); try (left; reflexivity).
  apply binary_round_aux_sign.
Qed.

(** [int(x)] has the sign of [x]. *)
Lemma int_of_float_sign (x : float) (z : Z) :
  int_of_float x = Val z ->
  match float_sign x with
  | Some false => 0 <= z
  | Some true => z <= 0
  | None => False
  end.
Proof.
  unfold int_of_float.
  destruct x as [s | s | | s m e]; cbn [float_sign]; try discriminate.
  - intros H. injection H as <-. destruct s; lia.
  - intros H. injection H as <-.
    assert (Ha : 0 <= (if 0 <=? e then Z.pos m * 2 ^ e
                       else Z.pos m / 2 ^ (- e))).
    { destruct (Z.leb_spec 0 e).
      - apply Z.mul_nonneg_nonneg; [ lia | apply Z.pow_nonneg; lia ].
      - apply Z.div_pos; [ lia | apply Z.pow_pos_nonneg; lia ]. }
    destruct s; cbn [cond_Zopp]; lia.
Qed.

(** [int(x)] raises exactly on the infinities and on NaN. *)
Lemma int_of_float_raises (x : float) (e : Exn) :
  int_of_float x = Exc e ->
  (exists s, x = S754_infinity s)
  /\ e = OverflowError "cannot convert float infinity to integer"
  \/ x = S754_nan /\ e = ValueError "cannot convert float NaN to integer".
Proof.
  unfold int_of_float. destruct x as [s | s | | s m ex]; try discriminate.
  - intros H. injection H as <-. left. split; [ exists s | ]; reflexivity.
  - intros H. injection H as <-. right. split; reflexivity.
Qed.

Lemma float_ge_zero_sign (x : float) :
  float_ge x (float_of_Z 0) = true ->
  (exists s, x = S754_zero s) \/ float_sign x = Some false.
Proof.
  unfold float_ge. change (float_of_Z 0) with (S754_zero false).
  destruct x as [s | s | | s m e]; cbn.
  - intros _. left. exists s. reflexivity.
  - destruct s; [ discriminate | right; reflexivity ].
  - discriminate.
  - destruct s; [ discriminate | right; reflexivity ].
Qed.

(** The floats that the literals of the program and of the examples
    denote: [1.0 = 0x1.0p+0], [3.0 = 0x1.8p+1], [-3.0], [50.0],
    [0.7 = 0x1.6666666666666p-1] and [2.3 = 0x1.2666666666666p+1]. *)
Lemma float_literals :
  float_of_Z 1 = S754_finite false 4503599627370496 (-52)
  /\ float_of_Z 3 = S754_finite false 6755399441055744 (-51)
  /\ float_of_Z (-3) = S754_finite true 6755399441055744 (-51)
  /\ float_of_Z 50 = S754_finite false 7036874417766400 (-47)
  /\ decimal 7 10 = S754_finite false 6305039478318694 (-53)
  /\ decimal 23 10 = S754_finite false 5179139571476070 (-51).
Proof. vm_compute. repeat split; reflexivity. Qed.

(** The speed, written with the product alone. *)
Lemma rc_speed_of_eq (self : DroneController) :
  rc_speed_of self
  = res_bind (int_of_float (float_mul (float_of_Z 50) (speed_multiplier self)))
      (fun z => Val (Z.min z 100)).
Proof. reflexivity. Qed.

Lemma rc_speed_of_product (self : DroneController) (v : Z) :
  rc_speed_of self = Val v ->
  exists z,
    int_of_float (float_mul (float_of_Z 50) (speed_multiplier self)) = Val z
    /\ v = Z.min z 100.
Proof.
  rewrite rc_speed_of_eq.
  destruct (int_of_float _) as [z | e]; cbn; [ | discriminate ].
  intros H. injection H as <-. exists z. split; reflexivity.
Qed.

(** With a multiplier that is not negative the speed, when there is one,
    lies between 0 and 100. *)
Lemma rc_speed_of_bounds (self : DroneController) (v : Z) :
  float_ge (speed_multiplier self) (float_of_Z 0) = true ->
  rc_speed_of self = Val v -> 0 <= v <= 100.
Proof.
  intros Hm Hv. apply rc_speed_of_product in Hv as (z & Hz & ->).
  assert (0 <= z); [ | lia ].
  apply float_ge_zero_sign in Hm as [[s Hm] | Hm].
  - rewrite Hm in Hz. destruct s; vm_compute in Hz; injection Hz as <-; lia.
  - pose proof (float_mul_sign (float_of_Z 50) (speed_multiplier self)
                  false false eq_refl Hm) as [Hn | Hs].
    + rewrite Hn in Hz. discriminate.
    + apply int_of_float_sign in Hz. rewrite Hs in Hz. exact Hz.
Qed.

Lemma rc_speed_of_one (self : DroneController) :
  speed_multiplier self = float_of_Z 1 -> rc_speed_of self = Val 50.
Proof. intros H. rewrite rc_speed_of_eq, H. vm_compute. reflexivity. Qed.

Lemma rc_speed_of_three (self : DroneController) :
  speed_multiplier self = float_of_Z 3 -> rc_speed_of self = Val 100.
Proof. intros H. rewrite rc_speed_of_eq, H. vm_compute. reflexivity. Qed.

(** *** The vector *)

(** The vector that the held keys give at a speed. *)
Lemma calculate_rc_values_axes (self : DroneController) (keys : gset Z) :
  calculate_rc_values self keys
  = res_bind (rc_speed_of self) (fun v =>
      Val {| left_right := contribution K_d keys v - contribution K_a keys v;
             forward_back :=
               contribution K_w keys v - contribution K_s keys v;
             up_down := contribution K_i keys v - contribution K_k keys v;
             yaw := contribution K_e keys v - contribution K_q keys v |}).
Proof.
  unfold calculate_rc_values, contribution.
  destruct (rc_speed_of self) as [v | e]; cbn [res_bind]; [ | reflexivity ].
  destruct (held K_a keys), (held K_d keys), (held K_w keys),
    (held K_s keys), (held K_i keys), (held K_k keys), (held K_q keys),
    (held K_e keys); do 2 f_equal; lia.
Qed.

Lemma held_singleton (key key' : Z) :
  held key {[ key' ]} = (key =? key').
Proof.
  unfold held. destruct (Z.eqb_spec key key') as [ -> | Hne ].
  - apply bool_decide_eq_true. set_solver.
  - apply bool_decide_eq_false. set_solver.
Qed.

Lemma calculate_rc_values_forward (self : DroneController) (v : Z) :
  rc_speed_of self = Val v ->
  calculate_rc_values self {[ K_w ]} = Val (mkRc 0 v 0 0).
Proof.
  intros H. rewrite calculate_rc_values_axes, H. cbn [res_bind].
  unfold contribution. rewrite !held_singleton. cbn. do 2 f_equal. lia.
Qed.

(** C5. The vector computed by [calculate_rc_values] is a function of the
    held keys and of the speed multiplier only (two controllers with the
    same multiplier give the same result, and the computation is a value,
    not an action).  When [int(50 * speed_multiplier)] has a value [z],
    with [v = min(z, 100)] each of the eight keys adds [+v] or [-v] to its
    axis, whatever the other keys are; so two opposing keys held together
    leave their axis at 0.  With only forward held the vector is
    [(0, 50, 0, 0)] for the multiplier 1.0 and [(0, 100, 0, 0)] for 3.0;
    the product is the rounded one of the floats, so the multiplier 0.7
    gives [(0, 35, 0, 0)].  When [int] raises, on a product that is an
    infinity or NaN, the computation raises the same exception. *)
Theorem calculate_rc_values_spec (self other : DroneController)
  (keys : gset Z) :
  let product := float_mul (float_of_Z 50) (speed_multiplier self) in
  (forall z, int_of_float product = Val z ->
   let v := Z.min z 100 in
   exists r,
     calculate_rc_values self keys = Val r
     /\ left_right r = contribution K_d keys v - contribution K_a keys v
     /\ forward_back r = contribution K_w keys v - contribution K_s keys v
     /\ up_down r = contribution K_i keys v - contribution K_k keys v
     /\ yaw r = contribution K_e keys v - contribution K_q keys v
     /\ (K_a ∈ keys -> K_d ∈ keys -> left_right r = 0)
     /\ (K_w ∈ keys -> K_s ∈ keys -> forward_back r = 0)
     /\ (K_i ∈ keys -> K_k ∈ keys -> up_down r = 0)
     /\ (K_q ∈ keys -> K_e ∈ keys -> yaw r = 0))
  /\ (forall e, int_of_float product = Exc e ->
      calculate_rc_values self keys = Exc e)
  /\ (speed_multiplier other = speed_multiplier self ->
      calculate_rc_values other keys = calculate_rc_values self keys)
  /\ (speed_multiplier self = float_of_Z 1 ->
      calculate_rc_values self {[ K_w ]} = Val (mkRc 0 50 0 0))
  /\ (speed_multiplier self = float_of_Z 3 ->
      calculate_rc_values self {[ K_w ]} = Val (mkRc 0 100 0 0))
  /\ (speed_multiplier self = decimal 7 10 ->
      calculate_rc_values self {[ K_w ]} = Val (mkRc 0 35 0 0)).
Proof.
  intros product.
  split.
  { intros z Hz v. rewrite calculate_rc_values_axes, rc_speed_of_eq.
    fold product. rewrite Hz. cbn [res_bind]. fold v.
    eexists. split; [ reflexivity | ].
    cbn [left_right forward_back up_down yaw].
    do 4 (split; [ reflexivity | ]).
    unfold contribution, held.
    repeat split; intros H1 H2;
      rewrite !bool_decide_eq_true_2 by assumption; lia. }
  split.
  { intros e He. rewrite calculate_rc_values_axes, rc_speed_of_eq.
    fold product. rewrite He. reflexivity. }
  split.
  { intros H. rewrite !calculate_rc_values_axes, !rc_speed_of_eq, H.
    reflexivity. }
  split; [ | split ]; intros H; apply calculate_rc_values_forward;
    rewrite rc_speed_of_eq, H; vm_compute; reflexivity.
Qed.

Lemma calculate_rc_values_spec_witness :
  let boosted := with_speed_multiplier (float_of_Z 3) (init true) in
  (exists r, calculate_rc_values boosted {[ K_a; K_d; K_w ]} = Val r
             /\ left_right r = 0 /\ forward_back r = 100)
  /\ calculate_rc_values (init true) {[ K_w ]} = Val (mkRc 0 50 0 0)
  /\ calculate_rc_values boosted {[ K_w ]} = Val (mkRc 0 100 0 0)
  /\ calculate_rc_values (with_speed_multiplier float_inf (init true))
       {[ K_w ]}
     = Exc (OverflowError "cannot convert float infinity to integer").
Proof.
  intros boosted.
  destruct (calculate_rc_values_spec boosted boosted {[ K_a; K_d; K_w ]})
    as (Hv & _ & _ & _ & H3 & _).
  destruct (calculate_rc_values_spec (init true) boosted {[ K_w ]})
    as (_ & _ & _ & H1 & _).
  destruct (calculate_rc_values_spec
              (with_speed_multiplier float_inf (init true)) boosted {[ K_w ]})
    as (_ & He & _).
  split.
  { destruct (Hv 150) as (r & Hr & _ & Hfb & _ & _ & Hlr & _);
      [ vm_compute; reflexivity | ].
    exists r. split; [ exact Hr | ]. split; [ apply Hlr; set_solver | ].
    rewrite Hfb. unfold contribution, held.
    rewrite bool_decide_eq_true_2 by set_solver.
    rewrite bool_decide_eq_false_2 by (vm_compute; set_solver).
    reflexivity. }
  split; [ apply H1; reflexivity | ].
  split; [ apply H3; reflexivity | ].
  apply He. vm_compute. reflexivity.
Defined.

(** The vector is within the range of the link as soon as the speed is at
    least -100, which every multiplier that is not negative gives. *)
Lemma calculate_rc_values_in_range (self : DroneController)
  (keys : gset Z) (v : Z) (r : RcValues) :
  rc_speed_of self = Val v -> -100 <= v ->
  calculate_rc_values self keys = Val r ->
  in_rc_range (left_right r) /\ in_rc_range (forward_back r)
  /\ in_rc_range (up_down r) /\ in_rc_range (yaw r).
Proof.
  intros Hv H. rewrite calculate_rc_values_axes, Hv. cbn [res_bind].
  intros Hr. injection Hr as <-.
  assert (v <= 100).
  { apply rc_speed_of_product in Hv as (z & _ & ->). lia. }
  unfold contribution, in_rc_range.
  cbn [left_right forward_back up_down yaw].
  destruct (held K_a keys), (held K_d keys), (held K_w keys),
    (held K_s keys), (held K_i keys), (held K_k keys), (held K_q keys),
    (held K_e keys); lia.
Qed.

Lemma calculate_rc_values_in_range_nonneg (self : DroneController)
  (keys : gset Z) (r : RcValues) :
  float_ge (speed_multiplier self) (float_of_Z 0) = true ->
  calculate_rc_values self keys = Val r ->
  in_rc_range (left_right r) /\ in_rc_range (forward_back r)
  /\ in_rc_range (up_down r) /\ in_rc_range (yaw r).
Proof.
  intros H Hr.
  destruct (rc_speed_of self) as [v | e] eqn:Hv.
  - apply (calculate_rc_values_in_range self keys v r Hv); [ | exact Hr ].
    pose proof (rc_speed_of_bounds self v H Hv). lia.
  - rewrite calculate_rc_values_axes, Hv in Hr. discriminate.
Qed.

(** C8. After [set_speed_multiplier(-3.0)], which the method accepts, the
    vector computed with the right key held is [(-150, 0, 0, 0)] and with
    the left key held [(150, 0, 0, 0)]: the lateral component is outside
    [-100, 100].  The cap of the code is [min(_, 100)], which bounds the
    speed from above only. *)
Theorem calculate_rc_values_negative_multiplier :
  speed_multiplier reversed = float_of_Z (-3)
  /\ calculate_rc_values reversed {[ K_d ]} = Val (mkRc (-150) 0 0 0)
  /\ calculate_rc_values reversed {[ K_a ]} = Val (mkRc 150 0 0 0)
  /\ (forall r, calculate_rc_values reversed {[ K_d ]} = Val r ->
      ~ in_rc_range (left_right r))
  /\ (forall r, calculate_rc_values reversed {[ K_a ]} = Val r ->
      ~ in_rc_range (left_right r)).
Proof.
  assert (Hs : rc_speed_of reversed = Val (-150)).
  { vm_compute. reflexivity. }
  assert (Hd : calculate_rc_values reversed {[ K_d ]}
               = Val (mkRc (-150) 0 0 0)).
  { rewrite calculate_rc_values_axes, Hs. unfold contribution. cbn [res_bind].
    rewrite !held_singleton. reflexivity. }
  assert (Ha : calculate_rc_values reversed {[ K_a ]}
               = Val (mkRc 150 0 0 0)).
  { rewrite calculate_rc_values_axes, Hs. unfold contribution. cbn [res_bind].
    rewrite !held_singleton. reflexivity. }
  split; [ reflexivity | ]. split; [ exact Hd | ]. split; [ exact Ha | ].
  rewrite Hd, Ha. unfold in_rc_range.
  split; intros r Hr; injection Hr as <-; cbn; lia.
Qed.

(** ** The command queue *)

Lemma clear_command_queue_nonempty (self : DroneController) (w : World) :
  command_queue self <> [] ->
  clear_command_queue self w
  = (Val tt, with_command_queue [] self,
     with_out (out w ++ [Cleared 0]
               ++ (if audio_enabled self then [Beep 800 (1 # 10)] else []))
       w).
Proof.
  intros H. unfold clear_command_queue, play_beep.
  destruct (command_queue self) as [ | c q ] eqn:E; [ congruence | ].
  exec. destruct (audio_enabled self); exec;
    rewrite <- ?app_assoc; reflexivity.
Qed.

(** C6. On the empty queue [clear_command_queue] prints the line of the
    queue with nothing to clear and leaves the queue empty.  On a queue of
    three commands it empties the queue, and the count it prints is 0, not
    3: the count is the length of the queue read after the queue has been
    cleared. *)
Theorem clear_command_queue_count :
  let w := world_at [] link_ok in
  (command_queue (self_of (clear_command_queue (init true) w)) = []
   /\ out (world_of (clear_command_queue (init true) w))
      = [No_commands_to_clear])
  /\ length (command_queue with_three_queued) = 3%nat
  /\ command_queue (self_of (clear_command_queue with_three_queued w)) = []
  /\ out (world_of (clear_command_queue with_three_queued w))
     = [Cleared 0; Beep 800 (1 # 10)].
Proof.
  intros w. split; [ split; reflexivity | ].
  split; [ reflexivity | ].
  rewrite clear_command_queue_nonempty by discriminate.
  split; reflexivity.
Qed.

(** ** Continuous control *)

#[local] Arguments calculate_rc_values : simpl never.

Lemma update_rc_control_send_fails (keys : gset Z) (msg : string)
  (new_values : RcValues) (self : DroneController) (w : World) :
  rc_mode_active self = true -> tello self <> None ->
  connected self = true ->
  calculate_rc_values self keys = Val new_values ->
  RcValues_eqb new_values (current_rc_values self) = false ->
  link w (length (calls w))
    (Send_rc_control (left_right new_values) (forward_back new_values)
       (up_down new_values) (yaw new_values)) = Raises msg ->
  result_of (update_rc_control keys self w) = Val tt
  /\ self_of (update_rc_control keys self w)
     = with_current_rc_values new_values self
  /\ out (world_of (update_rc_control keys self w))
     = out w ++ [Update_rc_called true (size keys); Rc_control_failed msg].
Proof.
  intros Ha Ht Hc Hv Hne Hl.
  destruct (tello self) eqn:E; [ | congruence ].
  unfold update_rc_control, lift. exec.
  rewrite <- app_assoc. repeat split; reflexivity.
Qed.

Lemma update_rc_control_unchanged (keys : gset Z) (new_values : RcValues)
  (self : DroneController) (w : World) :
  rc_mode_active self = true -> tello self <> None ->
  connected self = true ->
  calculate_rc_values self keys = Val new_values ->
  RcValues_eqb new_values (current_rc_values self) = true ->
  update_rc_control keys self w
  = (Val tt, self,
     with_out (out w ++ [Update_rc_called true (size keys)]) w).
Proof.
  intros Ha Ht Hc Hv He.
  destruct (tello self) eqn:E; [ | congruence ].
  unfold update_rc_control, lift. exec. reflexivity.
Qed.

(** C7. In continuous mode, connected, with the stored vector at zero and
    the forward key held, an [update_rc_control] whose [send_rc_control]
    raises catches and reports the failure, and the stored vector
    [current_rc_values] is no longer the one before the call: it is the
    vector that was not sent, assigned before the call on the link.  The
    next update with the same key held finds nothing changed and sends
    nothing. *)
Theorem update_rc_control_failed_send :
  let w := world_at [] (link_failing_at 0 "timeout") in
  let r := update_rc_control {[ K_w ]} in_rc_mode w in
  let r' := update_rc_control {[ K_w ]} (self_of r) (world_of r) in
  current_rc_values in_rc_mode = rc_zero
  /\ result_of r = Val tt
  /\ calls (world_of r) = [Send_rc_control 0 50 0 0]
  /\ out (world_of r)
     = [Update_rc_called true 1; Rc_control_failed "timeout"]
  /\ current_rc_values (self_of r) = mkRc 0 50 0 0
  /\ self_of r <> in_rc_mode
  /\ calls (world_of r') = calls (world_of r).
Proof.
  intros w r r'.
  assert (Hv : calculate_rc_values in_rc_mode {[ K_w ]}
               = Val (mkRc 0 50 0 0)).
  { apply calculate_rc_values_forward, rc_speed_of_one. reflexivity. }
  assert (Hs : size ({[ K_w ]} : gset Z) = 1%nat) by apply size_singleton.
  destruct (update_rc_control_send_fails {[ K_w ]} "timeout" (mkRc 0 50 0 0)
              in_rc_mode w)
    as (H1 & H2 & H3); try reflexivity; try discriminate; try exact Hv.
  fold r in H1, H2, H3. rewrite Hs in H3.
  assert (Hc : calls (world_of r) = [Send_rc_control 0 50 0 0]).
  { reflexivity. }
  split; [ reflexivity | ]. split; [ exact H1 | ]. split; [ exact Hc | ].
  split; [ exact H3 | ]. split; [ rewrite H2; reflexivity | ].
  split; [ rewrite H2; discriminate | ].
  subst r'. rewrite (update_rc_control_unchanged _ (mkRc 0 50 0 0)).
  - reflexivity.
  - rewrite H2. reflexivity.
  - rewrite H2. discriminate.
  - rewrite H2. reflexivity.
  - rewrite H2. apply calculate_rc_values_forward, rc_speed_of_one.
    reflexivity.
  - rewrite H2. reflexivity.
Qed.

(** ** Movement: the pulse during stabilisation, the primitive after it *)

#[local] Arguments execute_rc_movement : simpl never.
#[local] Arguments execute_command : simpl never.

Lemma invocations_app (l l' : list LinkCall) :
  invocations (l ++ l') = invocations l ++ invocations l'.
Proof. unfold invocations. apply flat_map_app. Qed.

Lemma execute_rc_movement_unconnected (f : Command) (args : list Arg)
  (self : DroneController) (w : World) :
  tello self = None \/ connected self = false ->
  execute_rc_movement f args self w = (Val false, self, w).
Proof.
  intros H. unfold execute_rc_movement. unfold bind at 1, read at 1.
  cbv beta. cbn [id].
  destruct H as [H | H]; rewrite H; [ reflexivity | ].
  cbn [negb]. rewrite orb_true_r. reflexivity.
Qed.

Lemma execute_rc_movement_pulse (f : Command) (args : list Arg)
  (rc_speed : Z) (c : LinkCall) (self : DroneController) (w : World) :
  tello self <> None -> connected self = true ->
  rc_speed_of self = Val rc_speed ->
  rc_pulse f rc_speed = Some c ->
  let boost := float_gt (speed_multiplier self) (float_of_Z 1) in
  execute_rc_movement f args self w
  = match link w (length (calls w)) c with
    | Returns _ =>
        (Val true, self,
         with_spawned
           (spawned w ++ [Rc_stop_timer (if boost then 4 # 10 else 3 # 10)])
           (with_out (out w ++ [Rc_pulse boost f rc_speed])
              (with_calls (calls w ++ [c]) w)))
    | Raises msg =>
        (Val false, self,
         with_out (out w ++ [Rc_movement_failed msg])
           (with_calls (calls w ++ [c]) w))
    end.
Proof.
  intros Ht Hc Hv Hp boost. subst boost.
  destruct (tello self) eqn:E; [ | congruence ].
  unfold execute_rc_movement.
  destruct f; cbn in Hp; try discriminate; injection Hp as <-;
    exec; destruct (link w _ _); reflexivity.
Qed.

(** A speed that cannot be computed: the conversion raises inside the
    [try], before anything is sent. *)
Lemma execute_rc_movement_no_speed (f : Command) (args : list Arg)
  (e : Exn) (self : DroneController) (w : World) :
  tello self <> None -> connected self = true ->
  rc_speed_of self = Exc e ->
  execute_rc_movement f args self w
  = (Val false, self,
     with_out (out w ++ [Rc_movement_failed (exn_message e)]) w).
Proof.
  intros Ht Hc Hv.
  destruct (tello self) eqn:E; [ | congruence ].
  unfold execute_rc_movement. exec. reflexivity.
Qed.

Lemma execute_rc_movement_no_pulse (f : Command) (args : list Arg)
  (rc_speed : Z) (self : DroneController) (w : World) :
  tello self <> None -> connected self = true ->
  rc_speed_of self = Val rc_speed ->
  rc_pulse f rc_speed = None ->
  let boost := float_gt (speed_multiplier self) (float_of_Z 1) in
  execute_rc_movement f args self w
  = (Val true, self,
     with_spawned
       (spawned w ++ [Rc_stop_timer (if boost then 4 # 10 else 3 # 10)]) w).
Proof.
  intros Ht Hc Hv Hp boost. subst boost.
  destruct (tello self) eqn:E; [ | congruence ].
  unfold execute_rc_movement.
  destruct f; cbn in Hp; try discriminate; exec; reflexivity.
Qed.

Lemma execute_rc_movement_invokes_nothing (f : Command) (args : list Arg)
  (self : DroneController) (w : World) :
  self_of (execute_rc_movement f args self w) = self
  /\ invocations (calls (world_of (execute_rc_movement f args self w)))
     = invocations (calls w).
Proof.
  destruct (tello self) eqn:Ht.
  2:{ rewrite execute_rc_movement_unconnected by (left; exact Ht).
      split; reflexivity. }
  destruct (connected self) eqn:Hc.
  2:{ rewrite execute_rc_movement_unconnected by (right; exact Hc).
      split; reflexivity. }
  destruct (rc_speed_of self) as [v | e] eqn:Hv.
  2:{ rewrite (execute_rc_movement_no_speed f args e) by congruence.
      split; reflexivity. }
  destruct (rc_pulse f v) as [c | ] eqn:Hp.
  - rewrite (execute_rc_movement_pulse f args v c) by congruence.
    assert (Hi : invocations [c] = []).
    { destruct f; cbn in Hp; try discriminate; injection Hp as <-;
        reflexivity. }
    destruct (link w _ _); cbn; rewrite invocations_app, Hi, app_nil_r;
      split; reflexivity.
  - rewrite (execute_rc_movement_no_pulse f args v) by congruence.
    split; reflexivity.
Qed.

Lemma execute_movement_command_waiting (f : Command) (args : list Arg)
  (self : DroneController) (w : World) :
  is_flying self = true -> imu_ready self = false ->
  (now w - takeoff_time self < imu_stabilization_delay)%Q ->
  execute_movement_command f args self w
  = execute_rc_movement f args self
      (with_out
         (out w ++ [Imu_stabilizing
                      (imu_stabilization_delay
                       - (clock w (S (reads w)) - takeoff_time self))%Q])
         (with_reads (S (S (reads w))) w)).
Proof.
  intros Hf Hr Hd. apply Q_ge_false in Hd.
  unfold execute_movement_command, check_imu_ready. exec. reflexivity.
Qed.

Lemma execute_command_granted (f : Command) (args : list Arg)
  (self : DroneController) (w : World) :
  tello self <> None -> connected self = true ->
  (command_cooldown <= now w - last_command_time self)%Q ->
  calls (world_of (execute_command f args self w))
  = calls w ++ [Invoke f args]
  /\ imu_ready (self_of (execute_command f args self w)) = imu_ready self.
Proof.
  intros Ht Hc Hq. apply Q_ge_true in Hq.
  destruct (tello self) eqn:E; [ | congruence ].
  unfold execute_command, can_execute_command, report_command_failure.
  exec. destruct (link w _ _); exec; [ split; reflexivity | ].
  destruct (contains _ _); split; reflexivity.
Qed.

Lemma execute_movement_command_ready (f : Command) (args : list Arg)
  (modified_args : list Arg) (self : DroneController) (w : World) :
  is_flying self = true ->
  (imu_stabilization_delay <= now w - takeoff_time self)%Q ->
  scale_args (speed_multiplier self) args = Val modified_args ->
  execute_movement_command f args self w
  = execute_command f modified_args (with_imu_ready true self)
      (with_out
         (out w ++ match modified_args with
                   | first :: _ =>
                       [Command_line
                          (float_gt (speed_multiplier self) (float_of_Z 1))
                          f first]
                   | [] => []
                   end)
         (with_reads (S (reads w)) w)).
Proof.
  intros Hf Hd Hs. apply Q_ge_true in Hd.
  unfold execute_movement_command, check_imu_ready. exec.
  destruct modified_args; exec; [ rewrite app_nil_r | ];
    destruct w; reflexivity.
Qed.

(** An argument that cannot be scaled: the conversion raises outside any
    [try], after the stabilisation check and before the cooldown check. *)
Lemma execute_movement_command_unscaled (f : Command) (args : list Arg)
  (e : Exn) (self : DroneController) (w : World) :
  is_flying self = true ->
  (imu_stabilization_delay <= now w - takeoff_time self)%Q ->
  scale_args (speed_multiplier self) args = Exc e ->
  execute_movement_command f args self w
  = (Exc e, with_imu_ready true self, with_reads (S (reads w)) w).
Proof.
  intros Hf Hd Hs. apply Q_ge_true in Hd.
  unfold execute_movement_command, check_imu_ready. exec. reflexivity.
Qed.

Lemma scale_args_single (m : float) (x : Z) (fx : float) (z : Z) :
  float_of_int x = Val fx -> int_of_float (float_mul fx m) = Val z ->
  scale_args m [AInt x] = Val [AInt z].
Proof.
  intros Hx Hz. unfold scale_args, scale_arg, int_times_float.
  rewrite Hx. cbn [res_bind]. rewrite Hz. reflexivity.
Qed.

(** C1, as the code has it.  In flight, with [imu_ready] false and the
    delay not elapsed at the reading of the clock, [execute_movement_command]
    hands the request to [execute_rc_movement]: no discrete primitive is
    invoked and the controller is left as it is.  Without a link handle or
    when not connected nothing is sent and the result is False.  Otherwise,
    when [int(50 * speed_multiplier)] has a value [z], for each of the
    eight movement primitives exactly one pulse is sent, on the axis of
    the primitive with the speed [min(z, 100)], and the result is True iff
    the link accepts it; when [int] raises (the product is an infinity or
    NaN) nothing is sent and the result is False.  In flight with the delay
    elapsed, the call sets [imu_ready]; then, when every number of the
    arguments can be scaled to [int(arg * speed_multiplier)], with a link
    handle, connected and the cooldown elapsed, the discrete primitive is
    invoked with the scaled arguments, and when the scaling raises the
    exception leaves the method and nothing is called. *)
Theorem movement_during_and_after_stabilization (f : Command)
  (args : list Arg) (self : DroneController) (w : World) :
  is_flying self = true ->
  let r := execute_movement_command f args self w in
  let m := speed_multiplier self in
  (imu_ready self = false ->
   (now w - takeoff_time self < imu_stabilization_delay)%Q ->
   invocations (calls (world_of r)) = invocations (calls w)
   /\ self_of r = self
   /\ (tello self = None \/ connected self = false ->
       result_of r = Val false /\ calls (world_of r) = calls w)
   /\ (forall z c, tello self <> None -> connected self = true ->
       int_of_float (float_mul (float_of_Z 50) m) = Val z ->
       rc_pulse f (Z.min z 100) = Some c ->
       calls (world_of r) = calls w ++ [c]
       /\ result_of r
          = Val match link w (length (calls w)) c with
                | Returns _ => true
                | Raises _ => false
                end)
   /\ (forall e, tello self <> None -> connected self = true ->
       int_of_float (float_mul (float_of_Z 50) m) = Exc e ->
       calls (world_of r) = calls w /\ result_of r = Val false))
  /\ ((imu_stabilization_delay <= now w - takeoff_time self)%Q ->
      imu_ready (self_of r) = true
      /\ (forall modified_args,
          scale_args m args = Val modified_args ->
          tello self <> None -> connected self = true ->
          (command_cooldown
           <= clock w (S (reads w)) - last_command_time self)%Q ->
          calls (world_of r) = calls w ++ [Invoke f modified_args])
      /\ (forall x fx z,
          args = [AInt x] -> float_of_int x = Val fx ->
          int_of_float (float_mul fx m) = Val z ->
          tello self <> None -> connected self = true ->
          (command_cooldown
           <= clock w (S (reads w)) - last_command_time self)%Q ->
          calls (world_of r) = calls w ++ [Invoke f [AInt z]])
      /\ (forall e, scale_args m args = Exc e ->
          result_of r = Exc e /\ calls (world_of r) = calls w)).
Proof.
  intros Hf r m. split.
  - intros Hr Hd. subst r.
    rewrite (execute_movement_command_waiting f args self w Hf Hr Hd).
    match goal with
    | |- context [execute_rc_movement f args self ?w2] => set (w2' := w2)
    end.
    destruct (execute_rc_movement_invokes_nothing f args self w2')
      as [Hs Hi].
    split; [ exact Hi | ]. split; [ exact Hs | ]. split; [ | split ].
    + intros H. rewrite (execute_rc_movement_unconnected f args self w2' H).
      split; reflexivity.
    + intros z c Ht Hc Hz Hp.
      assert (Hv : rc_speed_of self = Val (Z.min z 100)).
      { rewrite rc_speed_of_eq. fold m. rewrite Hz. reflexivity. }
      rewrite (execute_rc_movement_pulse f args _ c self w2' Ht Hc Hv Hp).
      change (link w2' (length (calls w2')) c)
        with (link w (length (calls w)) c).
      destruct (link w _ _); split; reflexivity.
    + intros e Ht Hc Hz.
      assert (Hv : rc_speed_of self = Exc e).
      { rewrite rc_speed_of_eq. fold m. rewrite Hz. reflexivity. }
      rewrite (execute_rc_movement_no_speed f args e self w2' Ht Hc Hv).
      split; reflexivity.
  - intros Hd.
    assert (Hgo : forall modified_args,
               scale_args m args = Val modified_args ->
               imu_ready (self_of r) = true
               /\ (tello self <> None -> connected self = true ->
                   (command_cooldown
                    <= clock w (S (reads w)) - last_command_time self)%Q ->
                   calls (world_of r) = calls w ++ [Invoke f modified_args])).
    { intros modified_args Hs. subst r.
      rewrite (execute_movement_command_ready f args modified_args self w
                 Hf Hd Hs).
      match goal with
      | |- context [execute_command f ?a ?s ?w2] => set (w2' := w2)
      end.
      split.
      - destruct (execute_command_flight f modified_args
                    (with_imu_ready true self) w2') as [_ H].
        rewrite H. reflexivity.
      - intros Ht Hc Hq.
        destruct (execute_command_granted f modified_args
                    (with_imu_ready true self) w2') as [H _];
          [ exact Ht | exact Hc | exact Hq | exact H ]. }
    assert (Hno : forall e, scale_args m args = Exc e ->
                            imu_ready (self_of r) = true
                            /\ result_of r = Exc e
                            /\ calls (world_of r) = calls w).
    { intros e Hs. subst r.
      rewrite (execute_movement_command_unscaled f args e self w Hf Hd Hs).
      repeat split; reflexivity. }
    split; [ | split; [ | split ] ].
    + destruct (scale_args m args) as [a | e] eqn:Hs.
      * apply (Hgo a eq_refl).
      * apply (Hno e eq_refl).
    + intros a Hs. apply (Hgo a Hs).
    + intros x fx z -> Hx Hz.
      apply (Hgo [AInt z]). apply (scale_args_single m x fx z Hx Hz).
    + intros e Hs. apply (Hno e Hs).
Qed.

Lemma movement_during_and_after_stabilization_witness :
  let self := fst after_takeoff_run in
  let w := snd after_takeoff_run in
  let r := execute_movement_command cmd_move_forward [AInt 30] self w in
  let r' := execute_movement_command cmd_move_forward [AInt 30]
              (with_speed_multiplier (decimal 23 10) (self_of r))
              (world_of r) in
  (is_flying self = true /\ imu_ready self = false)
  /\ invocations (calls (world_of r)) = invocations (calls w)
  /\ calls (world_of r) = calls w ++ [Send_rc_control 0 50 0 0]
  /\ result_of r = Val true
  /\ calls (world_of r')
     = calls (world_of r) ++ [Invoke cmd_move_forward [AInt 69]].
Proof.
  intros self w r r'.
  assert (Hf : is_flying self = true) by (vm_compute; reflexivity).
  assert (Hr : imu_ready self = false) by (vm_compute; reflexivity).
  destruct (movement_during_and_after_stabilization
              cmd_move_forward [AInt 30] self w Hf) as [Ha _].
  destruct (Ha Hr) as (H1 & H2 & _ & H4 & _); [ vm_compute; reflexivity | ].
  destruct (H4 50 (Send_rc_control 0 50 0 0)) as [H5 H6];
    [ vm_compute; discriminate | vm_compute; reflexivity
    | vm_compute; reflexivity | vm_compute; reflexivity | ].
  assert (Hf' : is_flying (with_speed_multiplier (decimal 23 10) (self_of r))
                = true) by (vm_compute; reflexivity).
  destruct (movement_during_and_after_stabilization
              cmd_move_forward [AInt 30]
              (with_speed_multiplier (decimal 23 10) (self_of r))
              (world_of r) Hf')
    as [_ Hb].
  destruct Hb as (_ & _ & Hb & _); [ vm_compute; discriminate | ].
  split; [ split; assumption | ]. split; [ exact H1 | ].
  split; [ exact H5 | ]. split; [ vm_compute; reflexivity | ].
  apply (Hb 30 (float_of_Z 30) 69);
    [ reflexivity | vm_compute; reflexivity | vm_compute; reflexivity
    | vm_compute; discriminate | vm_compute; reflexivity
    | vm_compute; discriminate ].
Defined.

(** C1, as stated, fails on the code.  The flag [imu_ready] can be set
    before the delay of the current flight has elapsed (by the task of an
    earlier take-off), and then a movement less than 3 s after the
    take-off invokes the discrete primitive.  A controller in flight whose
    connection is in error sends no pulse during the delay, and invokes no
    primitive after it.  And a connected controller, after the delay,
    invokes no primitive for a movement that comes less than 0.5 s after
    the cooldown check of another command. *)
Lemma movement_counterexample :
  (let self := fst stale_task_run in
   let w := snd stale_task_run in
   let r := execute_movement_command cmd_move_forward [AInt 30] self w in
   is_flying self = true
   /\ (now w - takeoff_time self < imu_stabilization_delay)%Q
   /\ calls (world_of r) = calls w ++ [Invoke cmd_move_forward [AInt 30]])
  /\ (let self := fst lost_link_run in
      let w := snd lost_link_run in
      let r := execute_movement_command cmd_move_forward [AInt 30] self w in
      is_flying self = true
      /\ (now w - takeoff_time self < imu_stabilization_delay)%Q
      /\ calls (world_of r) = calls w
      /\ result_of r = Val false)
  /\ (let self := fst lost_link_late_run in
      let w := snd lost_link_late_run in
      let r := execute_movement_command cmd_move_forward [AInt 30] self w in
      is_flying self = true
      /\ (imu_stabilization_delay <= now w - takeoff_time self)%Q
      /\ calls (world_of r) = calls w
      /\ result_of r = Val false)
  /\ (let self := fst hasty_run in
      let w := snd hasty_run in
      let r := execute_movement_command cmd_move_forward [AInt 30] self w in
      invocations (calls w)
      = [(cmd_takeoff, []); (cmd_move_forward, [AInt 30])]
      /\ is_flying self = true /\ tello self <> None
      /\ connected self = true
      /\ (imu_stabilization_delay <= now w - takeoff_time self)%Q
      /\ calls (world_of r) = calls w
      /\ result_of r = Val false).
Proof.
  split; [ | split; [ | split ] ]; cbv zeta.
  - split; [ vm_compute; reflexivity | ].
    split; vm_compute; reflexivity.
  - split; [ vm_compute; reflexivity | ].
    split; [ vm_compute; reflexivity | ].
    split; vm_compute; reflexivity.
  - split; [ vm_compute; reflexivity | ].
    split; [ vm_compute; discriminate | ].
    split; vm_compute; reflexivity.
  - split; [ vm_compute; reflexivity | ].
    split; [ vm_compute; reflexivity | ].
    split; [ vm_compute; discriminate | ].
    split; [ vm_compute; reflexivity | ].
    split; [ vm_compute; discriminate | ].
    split; vm_compute; reflexivity.
Qed.

Lemma execute_movement_command_flying (f : Command) (args : list Arg)
  (self : DroneController) (w : World) :
  is_flying self = true ->
  let self' :=
    if Q_ge (now w - takeoff_time self) imu_stabilization_delay
    then with_imu_ready true self else self in
  execute_movement_command f args self w
  = if imu_ready self' then
      match scale_args (speed_multiplier self) args with
      | Val modified_args =>
          execute_command f modified_args self'
            (with_out
               (out w ++ match modified_args with
                         | first :: _ =>
                             [Command_line
                                (float_gt (speed_multiplier self)
                                   (float_of_Z 1)) f first]
                         | [] => []
                         end)
               (with_reads (S (reads w)) w))
      | Exc e => (Exc e, self', with_reads (S (reads w)) w)
      end
    else
      execute_rc_movement f args self'
        (with_out
           (out w ++ [Imu_stabilizing
                        (imu_stabilization_delay
                         - (clock w (S (reads w)) - takeoff_time self'))%Q])
           (with_reads (S (S (reads w))) w)).
Proof.
  intros Hf self'. subst self'.
  unfold execute_movement_command, check_imu_ready. exec.
  destruct (Q_ge _ _); exec.
  - destruct (scale_args _ args) as [a | e]; exec; [ | reflexivity ].
    destruct a; exec; [ rewrite app_nil_r | ]; destruct w; reflexivity.
  - destruct (imu_ready self) eqn:Hr; exec; [ | reflexivity ].
    destruct (scale_args _ args) as [a | e]; exec; [ | reflexivity ].
    destruct a; exec; [ rewrite app_nil_r | ]; destruct w; reflexivity.
Qed.

Lemma execute_rc_movement_returns (f : Command) (args : list Arg) :
  returns (execute_rc_movement f args).
Proof. unfold execute_rc_movement. returns_go fail. Qed.

Lemma execute_command_returns (f : Command) (args : list Arg) :
  returns (execute_command f args).
Proof.
  unfold execute_command, can_execute_command, report_command_failure.
  returns_go fail.
Qed.

(** The only exception that leaves [execute_movement_command] is the one
    of an argument that cannot be scaled. *)
Lemma execute_movement_command_raises (f : Command) (args : list Arg)
  (e : Exn) (self : DroneController) (w : World) :
  result_of (execute_movement_command f args self w) = Exc e ->
  scale_args (speed_multiplier self) args = Exc e.
Proof.
  destruct (is_flying self) eqn:Hf.
  2:{ unfold execute_movement_command. exec. discriminate. }
  rewrite (execute_movement_command_flying f args self w Hf).
  cbv zeta.
  destruct (imu_ready _).
  - destruct (scale_args _ args) as [a | e'].
    + match goal with
      | |- context [execute_command f a ?s ?w2] =>
          destruct (execute_command_returns f a s w2) as [b Hb]
      end.
      rewrite Hb. discriminate.
    + cbn. intros H. injection H as <-. reflexivity.
  - match goal with
    | |- context [execute_rc_movement f args ?s ?w2] =>
        destruct (execute_rc_movement_returns f args s w2) as [b Hb]
    end.
    rewrite Hb. discriminate.
Qed.

Lemma update_rc_control_raises (keys : gset Z) (e : Exn)
  (self : DroneController) (w : World) :
  result_of (update_rc_control keys self w) = Exc e ->
  rc_speed_of self = Exc e.
Proof.
  unfold update_rc_control.
  destruct (rc_mode_active self) eqn:Ha, (tello self) eqn:Ht,
    (connected self) eqn:Hc; exec; try discriminate.
  rewrite calculate_rc_values_axes.
  destruct (rc_speed_of self) as [v | e']; cbn.
  - destruct (RcValues_eqb _ _); cbn; try discriminate.
    match goal with
    | |- context [link ?a ?b ?c] => destruct (link a b c)
    end; cbn; try discriminate.
    destruct (active_movements _); discriminate.
  - intros H. injection H as <-. reflexivity.
Qed.

(** * Further properties of the controller *)

(** Execution with the clock readings spelled out. *)
Ltac exec_now :=
  unfold_m; unfold now in *; repeat (progress (cbn; use_facts)).

(** ** The emergency stop *)

(** X1. [emergency_stop] looks at neither the flight state nor the
    throttle: with a link handle and the status [CONNECTED] it issues
    exactly one zero vector, otherwise nothing; it never raises, whatever
    the link answers, reads no clock and leaves the controller, the
    cooldown stamp included, as it is. *)
Theorem emergency_stop_always_available (self : DroneController)
  (w : World) :
  let r := emergency_stop self w in
  result_of r = Val tt
  /\ self_of r = self
  /\ reads (world_of r) = reads w
  /\ spawned (world_of r) = spawned w
  /\ calls (world_of r)
     = calls w ++ (if is_some (tello self) && connected self
                   then [Send_rc_control 0 0 0 0] else []).
Proof.
  unfold emergency_stop. exec.
  destruct (is_some (tello self) && connected self); exec.
  - destruct (link w _ _); repeat split; reflexivity.
  - rewrite app_nil_r. repeat split; reflexivity.
Qed.

(** ** The dispatcher *)

Lemma execute_command_unconnected (f : Command) (args : list Arg)
  (self : DroneController) (w : World) :
  tello self = None \/ connected self = false ->
  execute_command f args self w
  = (Val false, self,
     if connected self then w
     else with_out (out w ++ [Cannot_execute (connection_status self)]) w).
Proof.
  intros H. unfold execute_command. exec.
  destruct H as [H | H]; rewrite H; exec.
  - destruct (connected self); reflexivity.
  - rewrite andb_false_r. exec. reflexivity.
Qed.

Lemma execute_command_cooling (f : Command) (args : list Arg)
  (self : DroneController) (w : World) :
  tello self <> None -> connected self = true ->
  (now w - last_command_time self < command_cooldown)%Q ->
  execute_command f args self w
  = (Val false, self, with_reads (S (reads w)) w).
Proof.
  intros Ht Hc Hq. apply Q_ge_false in Hq.
  destruct (tello self) eqn:E; [ | congruence ].
  unfold execute_command, can_execute_command. exec_now. reflexivity.
Qed.

Lemma execute_command_dispatch (f : Command) (args : list Arg)
  (self : DroneController) (w : World) :
  tello self <> None -> connected self = true ->
  (command_cooldown <= now w - last_command_time self)%Q ->
  let w' := with_calls (calls w ++ [Invoke f args])
              (with_reads (S (reads w)) w) in
  execute_command f args self w
  = match link w (length (calls w)) (Invoke f args) with
    | Returns _ => (Val true, with_last_command_time (now w) self, w')
    | Raises msg =>
        (Val false, with_last_command_time (now w) self,
         with_out
           (out w ++ [if contains "No valid imu" msg then Imu_error
                      else Command_failed msg]) w')
    end.
Proof.
  intros Ht Hc Hq w'. subst w'. apply Q_ge_true in Hq.
  destruct (tello self) eqn:E; [ | congruence ].
  unfold execute_command, can_execute_command, report_command_failure.
  exec_now. destruct (link w _ _); exec; [ reflexivity | ].
  destruct (contains _ _); reflexivity.
Qed.

(** X2. [execute_command] never raises.  Without a link handle or when not
    connected it returns False, reads no clock (the cooldown is not
    consumed) and calls nothing; inside the cooldown it returns False and
    calls nothing; and it returns True only when the command was issued
    on the link, exactly once, and the link accepted it. *)
Theorem execute_command_gate (f : Command) (args : list Arg)
  (self : DroneController) (w : World) :
  let r := execute_command f args self w in
  (result_of r = Val true \/ result_of r = Val false)
  /\ (tello self = None \/ connected self = false ->
      result_of r = Val false /\ self_of r = self
      /\ calls (world_of r) = calls w /\ reads (world_of r) = reads w)
  /\ (tello self <> None -> connected self = true ->
      (now w - last_command_time self < command_cooldown)%Q ->
      result_of r = Val false /\ self_of r = self
      /\ calls (world_of r) = calls w)
  /\ (result_of r = Val true ->
      calls (world_of r) = calls w ++ [Invoke f args]
      /\ self_of r = with_last_command_time (now w) self
      /\ exists v, link w (length (calls w)) (Invoke f args) = Returns v).
Proof.
  intros r. subst r.
  assert (Hcase : tello self = None \/ tello self <> None).
  { destruct (tello self); [ right; discriminate | left; reflexivity ]. }
  destruct Hcase as [Ht | Ht'].
  { rewrite execute_command_unconnected by (left; exact Ht).
    split; [ right; reflexivity | ].
    split; [ intros _; destruct (connected self); repeat split;
             reflexivity | ].
    split; [ congruence | discriminate ]. }
  destruct (connected self) eqn:Hc.
  2:{ rewrite execute_command_unconnected by (right; exact Hc).
      rewrite Hc.
      split; [ right; reflexivity | ].
      split; [ intros _; repeat split; reflexivity | ].
      split; [ congruence | discriminate ]. }
  destruct (Qlt_le_dec (now w - last_command_time self) command_cooldown)
    as [Hlt | Hle].
  - rewrite (execute_command_cooling f args self w Ht' Hc Hlt).
    split; [ right; reflexivity | ].
    split; [ intros [H | H]; congruence | ].
    split; [ intros _ _ _; repeat split; reflexivity | discriminate ].
  - rewrite (execute_command_dispatch f args self w Ht' Hc Hle).
    destruct (link w _ _) as [v | msg] eqn:Hl.
    + split; [ left; reflexivity | ].
      split; [ intros [H | H]; congruence | ].
      split; [ intros _ _ Hlt; exfalso; apply (Qlt_not_le _ _ Hlt Hle) | ].
      intros _. split; [ reflexivity | ]. split; [ reflexivity | ].
      exists v. reflexivity.
    + split; [ right; reflexivity | ].
      split; [ intros [H | H]; congruence | ].
      split; [ intros _ _ Hlt; exfalso; apply (Qlt_not_le _ _ Hlt Hle) | ].
      discriminate.
Qed.

(** ** Take-off and landing *)

Lemma takeoff_in_flight (self : DroneController) (w : World) :
  is_flying self = true ->
  takeoff self w = (Val tt, self, with_out (out w ++ [Already_flying]) w).
Proof. intros H. unfold takeoff. exec. reflexivity. Qed.

Lemma land_on_ground (self : DroneController) (w : World) :
  is_flying self = false ->
  land self w = (Val tt, self, with_out (out w ++ [Already_on_ground]) w).
Proof. intros H. unfold land. exec. reflexivity. Qed.

(** X3. Any number of [takeoff] calls on a controller in flight, and any
    number of [land] calls on a grounded one, leave the controller as it
    is, call nothing on the link, read no clock and spawn nothing. *)
Theorem redundant_takeoff_land (ms vs rs : Z) (n : nat)
  (self : DroneController) (w : World) :
  let idle c :=
    fst c = self /\ calls (snd c) = calls w /\ reads (snd c) = reads w
    /\ spawned (snd c) = spawned w in
  (is_flying self = true ->
   idle (run ms vs rs (repeat call_takeoff n) (self, w)))
  /\ (is_flying self = false ->
      idle (run ms vs rs (repeat call_land n) (self, w))).
Proof.
  cbv zeta. split; intros H; revert w.
  - induction n as [ | n IH ]; intros w; cbn; [ repeat split | ].
    unfold step. cbn [perform fst snd].
    rewrite (takeoff_in_flight self w H). cbn [self_of world_of fst snd].
    apply (IH (with_out (out w ++ [Already_flying]) w)).
  - induction n as [ | n IH ]; intros w; cbn; [ repeat split | ].
    unfold step. cbn [perform fst snd].
    rewrite (land_on_ground self w H). cbn [self_of world_of fst snd].
    apply (IH (with_out (out w ++ [Already_on_ground]) w)).
Qed.

Lemma redundant_takeoff_land_witness :
  let c := run 30 30 30 (repeat call_takeoff 3)
             (in_flight_ready, world_at [1000%Q] link_ok) in
  fst c = in_flight_ready /\ calls (snd c) = [].
Proof.
  destruct (redundant_takeoff_land 30 30 30 3 in_flight_ready
              (world_at [1000%Q] link_ok)) as [H _].
  destruct (H eq_refl) as (H1 & H2 & _). split; assumption.
Defined.

(** X4. [land] in flight, with a link handle: the controller is grounded
    afterwards iff it is connected, the cooldown has elapsed and the link
    accepts the command; then both flight flags are false.  Otherwise only
    the cooldown stamp may have changed: the flight flags and the take-off
    stamp are what they were.  Without a link handle [land] in flight
    raises [AttributeError] and changes nothing. *)
Theorem land_outcome (self : DroneController) (w : World) :
  is_flying self = true ->
  let r := land self w in
  (tello self = None ->
   result_of r = Exc (AttributeError "land") /\ self_of r = self
   /\ calls (world_of r) = calls w)
  /\ (tello self <> None ->
      result_of r = Val tt
      /\ (is_flying (self_of r) = false
          <-> connected self = true
              /\ (command_cooldown <= now w - last_command_time self)%Q
              /\ exists v,
                   link w (length (calls w)) (Invoke cmd_land []) = Returns v)
      /\ (is_flying (self_of r) = false -> imu_ready (self_of r) = false)
      /\ (is_flying (self_of r) = true ->
          imu_ready (self_of r) = imu_ready self)
      /\ takeoff_time (self_of r) = takeoff_time self).
Proof.
  intros Hf. cbv zeta. split.
  - intros Ht. unfold land. exec. repeat split; reflexivity.
  - intros Ht. remember (land self w) as r eqn:Hr.
    assert (Hl : land self w
                 = bind (execute_command cmd_land [])
                     (fun ok : bool =>
                        if ok then
                          bind (assign (with_is_flying false))
                            (fun _ => bind (assign (with_imu_ready false))
                                        (fun _ => print Landing_successful))
                        else print Landing_failed)
                     self (with_out (out w ++ [Landing]) w)).
    { destruct (tello self) eqn:E; [ | congruence ].
      unfold land. unfold bind at 1, read at 1. cbn [id]. rewrite Hf.
      cbn [negb]. unfold bind at 1, print at 1. unfold bind at 1.
      unfold tello_attr. rewrite E. reflexivity. }
    rewrite Hl in Hr. clear Hl.
    set (w1 := with_out (out w ++ [Landing]) w) in Hr.
    unfold bind at 1 in Hr.
    destruct (connected self) eqn:Hc.
    2:{ rewrite execute_command_unconnected in Hr by (right; exact Hc).
        rewrite Hc in Hr. unfold print in Hr. subst r. cbn. rewrite Hf.
        repeat split; try reflexivity; try discriminate.
        intros (H & _). discriminate. }
    destruct (Qlt_le_dec (now w - last_command_time self) command_cooldown)
      as [Hlt | Hle].
    { rewrite (execute_command_cooling cmd_land [] self w1 Ht Hc Hlt) in Hr.
      unfold print in Hr. subst r. cbn. rewrite Hf.
      repeat split; try reflexivity; try discriminate.
      intros (_ & H & _). exfalso. apply (Qlt_not_le _ _ Hlt H). }
    rewrite (execute_command_dispatch cmd_land [] self w1 Ht Hc Hle) in Hr.
    change (link w1 (length (calls w1)) (Invoke cmd_land []))
      with (link w (length (calls w)) (Invoke cmd_land [])) in Hr.
    destruct (link w _ _) as [v | msg] eqn:E;
      unfold bind, assign, print in Hr; subst r; cbn.
    + repeat split; try reflexivity; try discriminate; try assumption.
      exists v. reflexivity.
    + rewrite Hf.
      repeat split; try reflexivity; try discriminate.
      intros (_ & _ & [v Hv]). discriminate.
Qed.

Lemma land_outcome_witness :
  let w := world_at [1000%Q] link_ok in
  is_flying in_flight_ready = true
  /\ is_flying (self_of (land in_flight_ready w)) = false
  /\ imu_ready (self_of (land in_flight_ready w)) = false.
Proof.
  intros w.
  destruct (land_outcome in_flight_ready w eq_refl) as [_ H].
  destruct H as (_ & H1 & H2 & _); [ discriminate | ].
  assert (Hg : is_flying (self_of (land in_flight_ready w)) = false).
  { apply H1. split; [ reflexivity | ].
    split; [ vm_compute; discriminate | exists 0; reflexivity ]. }
  split; [ reflexivity | ]. split; [ exact Hg | exact (H2 Hg) ].
Defined.

(** ** Movement on the ground *)

(** X5. A movement requested on a grounded controller is rejected: the
    result is False, nothing is called on the link, nothing is queued, no
    clock is read (the cooldown is not consumed), no task is spawned and
    the controller is left as it is; so it is for each of the eight
    movement methods when the link handle is there. *)
Theorem movement_needs_takeoff (attr : string) (f : Command)
  (args : list Arg) (magnitude : Z) (self : DroneController) (w : World) :
  is_flying self = false ->
  execute_movement_command f args self w
  = (Val false, self, with_out (out w ++ [Movement_requires_takeoff]) w)
  /\ (tello self <> None ->
      movement attr f magnitude self w
      = (Val tt, self,
         with_out (out w ++ [Movement_requires_takeoff]) w)).
Proof.
  intros Hg. split.
  - unfold execute_movement_command. exec. reflexivity.
  - intros Ht. destruct (tello self) eqn:E; [ | congruence ].
    unfold movement, execute_movement_command. exec. reflexivity.
Qed.

Lemma movement_needs_takeoff_witness :
  let w := world_at [1000%Q] link_ok in
  is_flying grounded_connected = false
  /\ calls (world_of (move_forward 30 grounded_connected w)) = []
  /\ self_of (move_forward 30 grounded_connected w) = grounded_connected.
Proof.
  intros w.
  destruct (movement_needs_takeoff "move_forward" cmd_move_forward []
              30 grounded_connected w eq_refl) as [_ H].
  unfold move_forward. rewrite H by discriminate.
  repeat split; reflexivity.
Defined.

(** ** The link handle *)

Lemma same_link_refl (s : DroneController) : same_link s s.
Proof. split; reflexivity. Qed.

Lemma same_link_trans (a b c : DroneController) :
  same_link a b -> same_link b c -> same_link a c.
Proof. intros [H1 H2] [H3 H4]. split; congruence. Qed.

Create HintDb link discriminated.

Ltac link_leaf :=
  first [ intros; split; reflexivity | auto with link nocore ].
Ltac link_frame := keeps_go same_link_refl same_link_trans link_leaf.

Lemma play_beep_link (f : Z) (d : Q) : keeps same_link (play_beep f d).
Proof. unfold play_beep. link_frame. Qed.
#[local] Hint Resolve play_beep_link : link.

Lemma check_ready_beep_link : keeps same_link check_ready_beep.
Proof. unfold check_ready_beep. link_frame. Qed.
#[local] Hint Resolve check_ready_beep_link : link.

Lemma update_telemetry_link : keeps same_link update_telemetry.
Proof. unfold update_telemetry. link_frame. Qed.
#[local] Hint Resolve update_telemetry_link : link.

Lemma can_execute_command_link : keeps same_link can_execute_command.
Proof. unfold can_execute_command. link_frame. Qed.
#[local] Hint Resolve can_execute_command_link : link.

Lemma execute_command_link (f : Command) (args : list Arg) :
  keeps same_link (execute_command f args).
Proof. unfold execute_command, report_command_failure. link_frame. Qed.
#[local] Hint Resolve execute_command_link : link.

Lemma execute_rc_movement_link (f : Command) (args : list Arg) :
  keeps same_link (execute_rc_movement f args).
Proof. unfold execute_rc_movement. link_frame. Qed.
#[local] Hint Resolve execute_rc_movement_link : link.

Lemma check_imu_ready_link : keeps same_link check_imu_ready.
Proof. unfold check_imu_ready. link_frame. Qed.
#[local] Hint Resolve check_imu_ready_link : link.

Lemma execute_movement_command_link (f : Command) (args : list Arg) :
  keeps same_link (execute_movement_command f args).
Proof. unfold execute_movement_command. link_frame. Qed.
#[local] Hint Resolve execute_movement_command_link : link.

Lemma stop_rc_mode_link : keeps same_link stop_rc_mode.
Proof. unfold stop_rc_mode. link_frame. Qed.
#[local] Hint Resolve stop_rc_mode_link : link.

Lemma other_methods_link :
  keeps same_link takeoff /\ keeps same_link land
  /\ keeps same_link flip_forward /\ keeps same_link emergency_stop
  /\ keeps same_link start_rc_mode /\ keeps same_link notify_imu_ready
  /\ keeps same_link rc_stop_timer /\ keeps same_link clear_command_queue
  /\ (forall m, keeps same_link (set_speed_multiplier m))
  /\ (forall keys, keeps same_link (update_rc_control keys))
  /\ (forall attr f x, keeps same_link (movement attr f x)).
Proof.
  repeat split; intros;
    unfold takeoff, land, flip_forward, emergency_stop, start_rc_mode,
      notify_imu_ready, rc_stop_timer, clear_command_queue,
      set_speed_multiplier, update_rc_control, movement;
    link_frame.
Qed.

Lemma play_beep_returns (f : Z) (d : Q) : returns (play_beep f d).
Proof. unfold play_beep. returns_go fail. Qed.

Lemma check_ready_beep_returns : returns check_ready_beep.
Proof.
  unfold check_ready_beep. returns_go ltac:(apply play_beep_returns).
Qed.

Lemma update_telemetry_returns : returns update_telemetry.
Proof. unfold update_telemetry. returns_go fail. Qed.

(** The three ways a [connect] can go. *)
Lemma connect_no_handle (msg : string) (self : DroneController)
  (w : World) :
  link w (length (calls w)) New_Tello = Raises msg ->
  connect self w
  = (Val false, with_connection_status ERROR self,
     with_out (out w ++ [Connection_failed msg])
       (with_calls (calls w ++ [New_Tello]) w)).
Proof. intros H. unfold connect. exec. reflexivity. Qed.

Lemma connect_refused (v : Z) (msg : string) (self : DroneController)
  (w : World) :
  link w (length (calls w)) New_Tello = Returns v ->
  link w (S (length (calls w))) Link_connect = Raises msg ->
  connect self w
  = (Val false,
     with_connection_status ERROR (with_tello (Some TelloObject) self),
     with_out (out w ++ [Connection_failed msg])
       (with_calls (calls w ++ [New_Tello; Link_connect]) w)).
Proof.
  intros H1 H2. unfold connect. exec.
  rewrite length_app, Nat.add_comm. cbn. rewrite H2. cbn.
  rewrite <- app_assoc. reflexivity.
Qed.

Lemma connect_accepted (v v' : Z) (self : DroneController) (w : World) :
  link w (length (calls w)) New_Tello = Returns v ->
  link w (S (length (calls w))) Link_connect = Returns v' ->
  result_of (connect self w) = Val true
  /\ tello (self_of (connect self w)) = Some TelloObject
  /\ connection_status (self_of (connect self w)) = CONNECTED.
Proof.
  intros H1 H2. unfold connect.
  pose proof update_telemetry_returns as Hr.
  pose proof update_telemetry_link as Hk.
  generalize dependent update_telemetry. intros m Hr Hk.
  exec. rewrite length_app, Nat.add_comm. cbn. rewrite H2. cbn.
  match goal with
  | |- context [m ?s ?w2] =>
      specialize (Hr s w2); specialize (Hk s w2);
      destruct (m s w2) as [[[u | e] s3] w3]
  end.
  - destruct Hk as [Ht Hs]. cbn in *. repeat split; assumption.
  - destruct Hr as [a Ha]. discriminate.
Qed.

Lemma connect_returns : returns connect.
Proof. unfold connect. returns_go fail. Qed.

(** X6. [connect] never raises and ends in [CONNECTED] (result True, a
    fresh handle stored) or in [ERROR] (result False), never in
    [CONNECTING]: it succeeds iff the link object could be built and
    accepted the connection.  When the link object could not be built the
    handle of an earlier connection, if any, stays in place.  The flight
    flags and the cooldown stamp are not touched. *)
Theorem connect_outcome (self : DroneController) (w : World) :
  let r := connect self w in
  let n := length (calls w) in
  ((result_of r = Val true /\ connection_status (self_of r) = CONNECTED
    /\ tello (self_of r) = Some TelloObject)
   \/ (result_of r = Val false /\ connection_status (self_of r) = ERROR))
  /\ (result_of r = Val true
      <-> (exists v, link w n New_Tello = Returns v)
          /\ exists v, link w (S n) Link_connect = Returns v)
  /\ ((exists msg, link w n New_Tello = Raises msg) ->
      tello (self_of r) = tello self)
  /\ is_flying (self_of r) = is_flying self
  /\ imu_ready (self_of r) = imu_ready self.
Proof.
  intros r n. subst r n.
  destruct (connect_flight self w) as [Hf Hi].
  destruct (link w (length (calls w)) New_Tello) as [v | msg] eqn:H1.
  - destruct (link w (S (length (calls w))) Link_connect) as [v' | msg]
      eqn:H2.
    + destruct (connect_accepted v v' self w H1 H2) as (Hr & Ht & Hs).
      split; [ left; repeat split; assumption | ].
      split; [ split; [ intros _; split; eexists; reflexivity
                      | intros _; exact Hr ] | ].
      split; [ intros [msg Hm]; discriminate | ].
      split; assumption.
    + pose proof (connect_refused v msg self w H1 H2) as He.
      rewrite He in *. cbn in *.
      split; [ right; split; reflexivity | ].
      split; [ split; [ discriminate | ] | ].
      { intros (_ & v' & Hv). discriminate. }
      split; [ intros [m Hm]; discriminate | ].
      split; assumption.
  - pose proof (connect_no_handle msg self w H1) as He.
    rewrite He in *. cbn in *.
    split; [ right; split; reflexivity | ].
    split; [ split; [ discriminate | ] | ].
    { intros ((v' & Hv) & _). discriminate. }
    split; [ intros _; reflexivity | ].
    split; assumption.
Qed.

Lemma connect_linked (self : DroneController) (w : World) :
  linked (self_of (connect self w)).
Proof.
  destruct (link w (length (calls w)) New_Tello) as [v | msg] eqn:H1.
  - destruct (link w (S (length (calls w))) Link_connect) as [v' | msg]
      eqn:H2.
    + destruct (connect_accepted v v' self w H1 H2) as (_ & Ht & _).
      intros _. rewrite Ht. discriminate.
    + rewrite (connect_refused v msg self w H1 H2). intros H. discriminate.
  - rewrite (connect_no_handle msg self w H1). intros H. discriminate.
Qed.

Lemma disconnect_linked (self : DroneController) (w : World) :
  linked (self_of (disconnect self w)).
Proof.
  destruct (disconnect_returns self w) as [[] Hr].
  pose proof (disconnect_ensures self w) as He. rewrite Hr in He.
  destruct He as [Hs _]. unfold linked, connected. rewrite Hs.
  discriminate.
Qed.

Lemma link_safe_refl (s : DroneController) : link_safe s s.
Proof. right. apply same_link_refl. Qed.

Lemma link_safe_linked (s s' : DroneController) :
  link_safe s s' -> linked s -> linked s'.
Proof.
  intros [H | [H1 H2]] Hs; [ exact H | ].
  unfold linked, connected in *. rewrite H1, H2. exact Hs.
Qed.

Lemma perform_link_safe (ms vs rs : Z) (op : Op) :
  keeps link_safe (perform ms vs rs op).
Proof.
  destruct other_methods_link
    as (H1 & H2 & H3 & H4 & H5 & H6 & H7 & H8 & H9 & H10 & H11).
  assert (Hw : forall A (m : M A), keeps same_link m -> keeps link_safe m).
  { intros A m. apply keeps_weaken. intros s s' H. right. exact H. }
  assert (Hv : forall A (m : M A), keeps link_safe m ->
                                   keeps link_safe (void m)).
  { intros A m Hm self w. specialize (Hm self w).
    unfold void, bind, ret, self_of in *.
    destruct (m self w) as [[[a | e] s'] w']; exact Hm. }
  destruct op; cbn [perform];
    unfold move_forward, move_back, move_left, move_right, move_up,
      move_down, rotate_clockwise, rotate_counter_clockwise;
    try (apply Hv); try solve [ apply Hw; auto with link nocore ].
  - intros self w. left. apply connect_linked.
  - intros self w. left. apply disconnect_linked.
Qed.

(** *** The threads *)

Section Threads.

#[local] Arguments check_ready_beep : simpl never.

Lemma link_call_halves (c : LinkCall) (self : DroneController) (w : World) :
  link_call c self w = bind (link_issue c) (fun n => link_answer n c) self w.
Proof.
  unfold link_call, bind, link_issue, link_answer. cbn.
  destruct (link w _ c); reflexivity.
Qed.

(** The segments of the telemetry thread, run back to back, are
    [update_telemetry]; those of the connect thread are [connect]. *)
Lemma update_telemetry_uninterrupted (self : DroneController) (w : World) :
  bind (telemetry_begin false) (uninterrupted 3) self w
  = update_telemetry self w.
Proof.
  unfold telemetry_begin, update_telemetry, telemetry_done.
  cbn [uninterrupted resume]. unfold telemetry_done.
  destruct (tello self) eqn:Ht, (connected self) eqn:Hc; exec;
    try reflexivity.
  destruct (link w (length (calls w)) Link_get_battery) eqn:?; exec;
    [ | reflexivity ].
  rewrite !length_app. cbn [length].
  destruct (link w (length (calls w) + 1)%nat Link_get_height) eqn:?; exec;
    [ | reflexivity ].
  rewrite !length_app. cbn [length].
  destruct (link w (length (calls w) + 1 + 1)%nat Link_get_flight_time)
    eqn:?; exec; [ | reflexivity ].
  match goal with |- context [check_ready_beep ?s ?w2] =>
    destruct (check_ready_beep s w2) as [[[[] | e] s'] w'] end; reflexivity.
Qed.

Lemma connect_uninterrupted (self : DroneController) (w : World) :
  bind connect_begin (uninterrupted 5) self w = void connect self w.
Proof.
  unfold connect_begin, connect, update_telemetry, connect_failed.
  cbn [uninterrupted resume].
  unfold telemetry_begin, telemetry_done, connect_failed.
  exec.
  destruct (link w (length (calls w)) New_Tello) eqn:?; exec; [ | reflexivity ].
  rewrite !length_app. cbn [length].
  destruct (link w (length (calls w) + 1)%nat Link_connect) eqn:?; exec;
    [ | reflexivity ].
  rewrite !length_app. cbn [length].
  destruct (link w (length (calls w) + 1 + 1)%nat Link_get_battery) eqn:?; exec;
    [ | reflexivity ].
  rewrite !length_app. cbn [length].
  destruct (link w (length (calls w) + 1 + 1 + 1)%nat Link_get_height) eqn:?; exec;
    [ | reflexivity ].
  rewrite !length_app. cbn [length].
  destruct (link w (length (calls w) + 1 + 1 + 1 + 1)%nat
              Link_get_flight_time) eqn:?;
    exec; [ | reflexivity ].
  match goal with |- context [check_ready_beep ?s ?w2] =>
    destruct (check_ready_beep s w2) as [[[[] | e] s'] w'] end; reflexivity.
Qed.

(** A [disconnect] that overtakes the thread of [connect]. *)
Lemma resume_after_disconnect (n : nat) (v : Z) (self : DroneController)
  (w w' : World) :
  link w' n Link_connect = Returns v ->
  let r := resume (In_connect n) (self_of (disconnect self w)) w' in
  result_of r = Val None
  /\ connection_status (self_of r) = CONNECTED
  /\ tello (self_of r) = None
  /\ calls (world_of r) = calls w'.
Proof.
  intros Hl.
  destruct (disconnect_returns self w) as [[] Hr].
  pose proof (disconnect_ensures self w) as He. rewrite Hr in He.
  destruct He as [_ Ht].
  generalize dependent (self_of (disconnect self w)). intros s Ht.
  cbn [resume]. unfold telemetry_begin, telemetry_done. exec.
  repeat split; reflexivity.
Qed.

End Threads.

(** X7. The invariant that a controller whose status is [CONNECTED] holds
    a link handle.  It holds of the fresh controller and is kept by every
    operation (each public method and each spawned task body, in any
    world, returning or raising) that runs from its start to its end
    without another one in between.  It is not an invariant of the
    program: [connect] runs in a thread, and when [disconnect] runs while
    that thread is blocked in the connection call, which is then accepted,
    the thread sets [CONNECTED] on a controller without a handle.  Two
    clicks on the connect button give this state, in which the key of a
    movement raises [AttributeError] out of the event handler. *)
Theorem handle_when_connected (ms vs rs : Z) (ops : list Op) (op : Op)
  (audio : bool) (self : DroneController) (w w' : World) (n : nat) (v : Z) :
  linked (fst (run ms vs rs ops (init audio, w)))
  /\ (linked self -> linked (fst (step ms vs rs (self, w) op)))
  /\ (link w' n Link_connect = Returns v ->
      let r := resume (In_connect n) (self_of (disconnect self w)) w' in
      result_of r = Val None
      /\ connection_status (self_of r) = CONNECTED
      /\ tello (self_of r) = None
      /\ ~ linked (self_of r))
  /\ (let ui := fst overtaken_run in
      let uw := snd overtaken_run in
      threads uw = [Connect_thread]
      /\ calls (world uw) = [New_Tello; Link_connect; Link_end]
      /\ connection_status (drone_controller ui) = CONNECTED
      /\ tello (drone_controller ui) = None
      /\ result_of_ui (handle_events ms vs rs [KEYDOWN K_w] ui uw)
         = Exc (AttributeError "move_forward")).
Proof.
  assert (Hstep : forall c o, linked (fst c) ->
                              linked (fst (step ms vs rs c o))).
  { intros [s w0] o H. apply (link_safe_linked s); [ | exact H ].
    apply perform_link_safe. }
  split; [ | split; [ apply (Hstep (self, w)) | split ] ].
  - assert (H0 : linked (fst (init audio, w))) by (intros H; discriminate).
    revert H0. generalize (init audio, w).
    induction ops as [ | o ops IH ]; intros c Hc; cbn; [ exact Hc | ].
    apply IH, Hstep, Hc.
  - intros Hl r.
    destruct (resume_after_disconnect n v self w w' Hl) as (H1 & H2 & H3 & _).
    fold r in H1, H2, H3.
    split; [ exact H1 | ]. split; [ exact H2 | ]. split; [ exact H3 | ].
    intros H. apply H; [ | exact H3 ].
    unfold connected. rewrite H2. reflexivity.
  - cbv zeta.
    split; [ vm_compute; reflexivity | ].
    split; [ vm_compute; reflexivity | ].
    split; [ vm_compute; reflexivity | ].
    split; [ vm_compute; reflexivity | ].
    vm_compute. reflexivity.
Qed.

(** ** What a method can raise *)

Lemma careful_returns {A : Type} (m : M A) : returns m -> careful m.
Proof.
  intros H self w. destruct (H self w) as [a Ha]. rewrite Ha. exact I.
Qed.

Lemma careful_tello_attr (attr : string) : careful (tello_attr attr).
Proof.
  intros self w. unfold tello_attr, result_of.
  destruct (tello self) eqn:E; cbn; [ exact I | ].
  split; [ reflexivity | eexists; reflexivity ].
Qed.

Lemma careful_bind {A B : Type} (m : M A) (k : A -> M B) :
  careful m -> keeps same_link m -> (forall a, careful (k a)) ->
  careful (bind m k).
Proof.
  intros Hm Hl Hk self w. specialize (Hm self w). specialize (Hl self w).
  unfold bind, result_of, self_of in *.
  destruct (m self w) as [[[a | e] s'] w']; cbn in *; [ | exact Hm ].
  specialize (Hk a s' w'). unfold result_of in Hk.
  destruct (k a s' w') as [[[b | e] s''] w'']; cbn in *; [ exact I | ].
  destruct Hl as [Ht _]. rewrite <- Ht. exact Hk.
Qed.

Lemma careful_try_except {A : Type} (m : M A) (h : Exn -> M A) :
  (forall e, returns (h e)) -> careful (try_except m h).
Proof.
  intros Hh. apply careful_returns. apply returns_try_except. exact Hh.
Qed.

Lemma careful_when (b : bool) (m : M unit) :
  careful m -> careful (when b m).
Proof.
  intros H. destruct b; [ exact H | apply careful_returns, returns_ret ].
Qed.

Ltac careful_go :=
  repeat first
    [ solve [ apply careful_tello_attr ]
    | solve [ apply careful_returns; returns_go assumption ]
    | apply careful_try_except; intro; solve [ returns_go assumption ]
    | apply careful_when
    | apply careful_bind; [ | solve [ link_frame ] | intro ]
    | match goal with
      | |- careful (if ?b then _ else _) => destruct b
      | |- careful (match ?x with _ => _ end) => destruct x
      end ].

Lemma takeoff_careful : careful takeoff.
Proof.
  unfold takeoff.
  pose proof (execute_command_returns cmd_takeoff []) as Hx.
  pose proof (execute_command_link cmd_takeoff []) as Hl.
  generalize dependent (execute_command cmd_takeoff []). intros m Hx Hl.
  careful_go.
Qed.

Lemma land_careful : careful land.
Proof.
  unfold land.
  pose proof (execute_command_returns cmd_land []) as Hx.
  pose proof (execute_command_link cmd_land []) as Hl.
  generalize dependent (execute_command cmd_land []). intros m Hx Hl.
  careful_go.
Qed.

Lemma flip_forward_careful : careful flip_forward.
Proof.
  unfold flip_forward.
  pose proof (execute_command_returns cmd_flip_forward []) as Hx.
  pose proof (execute_command_link cmd_flip_forward []) as Hl.
  generalize dependent (execute_command cmd_flip_forward []).
  intros m Hx Hl. careful_go.
Qed.

(** The operations that convert no number outside a [try]. *)
Lemma perform_careful (ms vs rs : Z) (op : Op) :
  op <> run_rc_stop_timer -> converting op = false ->
  careful (perform ms vs rs op).
Proof.
  intros Hop Hcv.
  pose proof execute_command_returns as Hx.
  destruct op; try congruence; try discriminate; cbn [perform];
    first [ apply takeoff_careful | apply land_careful | idtac ];
    try solve [ apply careful_returns;
                first [ apply disconnect_returns
                      | apply update_telemetry_returns
                      | apply check_ready_beep_returns
                      | apply stop_rc_mode_returns ] ];
    try solve [ apply careful_returns;
                unfold void, set_speed_multiplier, clear_command_queue,
                  can_execute_command, check_imu_ready,
                  execute_rc_movement, emergency_stop, start_rc_mode,
                  notify_imu_ready;
                returns_go ltac:(first [ apply play_beep_returns
                                       | apply connect_returns
                                       | apply Hx ]) ].
  apply careful_bind;
    [ apply flip_forward_careful
    | apply other_methods_link
    | intro; apply careful_returns, returns_ret ].
Qed.

Lemma movement_raises (attr : string) (f : Command) (x : Z) (e : Exn)
  (self : DroneController) (w : World) :
  result_of (movement attr f x self w) = Exc e ->
  tello self = None /\ e = AttributeError attr
  \/ scale_args (speed_multiplier self) [AInt x] = Exc e.
Proof.
  unfold movement.
  pose proof (execute_movement_command_raises f [AInt x]) as Hm.
  generalize dependent (execute_movement_command f [AInt x]). intros m Hm.
  destruct (tello self) eqn:Ht; exec.
  - specialize (Hm e self w). unfold result_of in Hm.
    destruct (m self w) as [[[b | e'] s'] w']; cbn in *; [ discriminate | ].
    intros H. injection H as <-. right. apply Hm. reflexivity.
  - intros H. injection H as <-. left. split; reflexivity.
Qed.

(** The operations that convert a number outside a [try]. *)
Lemma perform_converting (ms vs rs : Z) (op : Op) (e : Exn)
  (self : DroneController) (w : World) :
  converting op = true ->
  result_of (perform ms vs rs op self w) = Exc e ->
  (tello self = None /\ exists attr, e = AttributeError attr)
  \/ rc_speed_of self = Exc e
  \/ scale_args (speed_multiplier self) (op_args ms vs rs op) = Exc e.
Proof.
  intros Hcv.
  destruct op; try discriminate; cbn [perform op_args];
    unfold move_forward, move_back, move_left, move_right, move_up,
      move_down, rotate_clockwise, rotate_counter_clockwise;
    try (intros H; apply movement_raises in H as [[Ht ->] | H];
         [ left; split; [ exact Ht | eexists; reflexivity ]
         | right; right; exact H ]).
  - intros H. right. right.
    apply (execute_movement_command_raises command_func args e self w).
    revert H. unfold void, bind, ret, result_of. cbv beta.
    destruct (execute_movement_command command_func args self w)
      as [[[b | e'] s'] w']; cbn [fst snd]; [ discriminate | ].
    intros H. assert (e' = e) by congruence. subst e'. reflexivity.
  - intros H. right. left.
    apply (update_rc_control_raises _ e self w H).
Qed.

Lemma conversions_raise :
  (forall x e, int_of_float x = Exc e -> conversion_error e)
  /\ (forall z e, float_of_int z = Exc e -> conversion_error e).
Proof.
  split.
  - intros x e H. apply int_of_float_raises in H as [[_ ->] | [_ ->]];
      [ left | right ]; eexists; reflexivity.
  - intros z e. unfold float_of_int.
    destruct (float_of_Z z); try discriminate.
    intros H. injection H as <-. left. eexists. reflexivity.
Qed.

Lemma rc_speed_of_raises (self : DroneController) (e : Exn) :
  rc_speed_of self = Exc e -> conversion_error e.
Proof.
  rewrite rc_speed_of_eq.
  destruct (int_of_float _) as [z | e'] eqn:Hz; cbn; [ discriminate | ].
  intros H. injection H as <-. apply conversions_raise in Hz. exact Hz.
Qed.

Lemma scale_arg_raises (m : float) (arg : Arg) (e : Exn) :
  scale_arg m arg = Exc e -> conversion_error e.
Proof.
  destruct conversions_raise as [Hi Hf].
  destruct arg as [z | x | r]; unfold scale_arg, int_times_float.
  - destruct (float_of_int z) as [fz | e'] eqn:Hz; cbn.
    + destruct (int_of_float _) as [v | e'] eqn:Hv; cbn; [ discriminate | ].
      intros H. injection H as <-. apply (Hi _ _ Hv).
    + intros H. injection H as <-. apply (Hf _ _ Hz).
  - destruct (int_of_float _) as [v | e'] eqn:Hv; cbn; [ discriminate | ].
    intros H. injection H as <-. apply (Hi _ _ Hv).
  - discriminate.
Qed.

Lemma scale_args_raises (m : float) (args : list Arg) (e : Exn) :
  scale_args m args = Exc e -> conversion_error e.
Proof.
  induction args as [ | arg rest IH ]; [ discriminate | ].
  change (scale_args m (arg :: rest))
    with (res_bind (scale_arg m arg) (fun v =>
          res_bind (scale_args m rest) (fun modified_args =>
          Val (v :: modified_args)))).
  destruct (scale_arg m arg) as [v | e'] eqn:Ha; cbn.
  - destruct (scale_args m rest) as [l | e']; cbn; [ discriminate | ].
    intros H. injection H as <-. apply IH. reflexivity.
  - intros H. injection H as <-. apply (scale_arg_raises m arg _ Ha).
Qed.

(** X8. No public method and no body of the stabilisation task lets an
    error of the link escape.  An exception that leaves one of them is the
    [AttributeError] of a missing link handle, or the [OverflowError] or
    [ValueError] of a conversion [int(...)]: that of the speed in
    [update_rc_control], or that of a scaled argument in a movement, both
    made outside any [try].  With a handle, a speed that can be computed
    and arguments that can be scaled they all return.  Without a handle,
    [takeoff] on the ground and every movement method raise before any
    guard of theirs is looked at, and leave the controller as it is. *)
Theorem only_a_missing_handle_raises (ms vs rs : Z) (op : Op)
  (self : DroneController) (w : World) :
  op <> run_rc_stop_timer ->
  let r := perform ms vs rs op self w in
  let m := speed_multiplier self in
  (forall e, result_of r = Exc e ->
   (tello self = None /\ exists attr, e = AttributeError attr)
   \/ (converting op = true
       /\ (rc_speed_of self = Exc e
           \/ scale_args m (op_args ms vs rs op) = Exc e)))
  /\ (forall e, result_of r = Exc e ->
      (exists attr, e = AttributeError attr) \/ conversion_error e)
  /\ (tello self <> None ->
      (exists v, rc_speed_of self = Val v) ->
      (exists a, scale_args m (op_args ms vs rs op) = Val a) ->
      result_of r = Val tt)
  /\ (tello self = None -> is_flying self = false ->
      op = call_takeoff ->
      result_of r = Exc (AttributeError "takeoff") /\ self_of r = self)
  /\ (tello self = None -> op = call_move_forward ->
      result_of r = Exc (AttributeError "move_forward")
      /\ self_of r = self).
Proof.
  intros Hop r m. subst r m.
  assert (H1 : forall e,
             result_of (perform ms vs rs op self w) = Exc e ->
             (tello self = None /\ exists attr, e = AttributeError attr)
             \/ (converting op = true
                 /\ (rc_speed_of self = Exc e
                     \/ scale_args (speed_multiplier self)
                          (op_args ms vs rs op) = Exc e))).
  { intros e He. destruct (converting op) eqn:Hcv.
    - destruct (perform_converting ms vs rs op e self w Hcv He)
        as [H | H]; [ left; exact H | right; split; [ reflexivity | exact H ] ].
    - pose proof (perform_careful ms vs rs op Hop Hcv self w) as Hc.
      rewrite He in Hc. left. exact Hc. }
  split; [ exact H1 | ].
  split; [ | split; [ | split ] ].
  - intros e He. destruct (H1 e He) as [[_ [attr ->]] | [_ [H | H]]].
    + left. exists attr. reflexivity.
    + right. apply (rc_speed_of_raises self e H).
    + right. apply (scale_args_raises _ _ e H).
  - intros Ht [v Hv] [a Ha].
    destruct (result_of _) as [[] | e] eqn:He; [ reflexivity | ].
    destruct (H1 e eq_refl) as [[Hn _] | [_ [H | H]]]; congruence.
  - intros Ht Hg ->. cbn [perform]. unfold takeoff. exec.
    split; reflexivity.
  - intros Ht ->. cbn [perform]. unfold move_forward, movement. exec.
    split; reflexivity.
Qed.

Lemma only_a_missing_handle_raises_witness :
  let w := world_at [1000%Q] (link_failing_at 0 "timeout") in
  result_of (perform 30 30 30 call_takeoff grounded_connected w) = Val tt
  /\ result_of (perform 30 30 30 call_takeoff (init true) w)
     = Exc (AttributeError "takeoff")
  /\ result_of (perform 30 30 30 call_move_forward
                  (with_speed_multiplier float_inf in_flight_ready) w)
     = Exc (OverflowError "cannot convert float infinity to integer").
Proof.
  intros w.
  destruct (only_a_missing_handle_raises 30 30 30 call_takeoff
              grounded_connected w) as (_ & _ & H & _); [ discriminate | ].
  destruct (only_a_missing_handle_raises 30 30 30 call_takeoff
              (init true) w) as (_ & _ & _ & H' & _); [ discriminate | ].
  destruct (only_a_missing_handle_raises 30 30 30 call_move_forward
              (with_speed_multiplier float_inf in_flight_ready) w)
    as (H'' & _); [ discriminate | ].
  split; [ apply H; [ discriminate | eexists | eexists ];
           vm_compute; reflexivity | ].
  split; [ apply H'; reflexivity | ].
  clear H H'.
  destruct (result_of _) as [u | e] eqn:He; [ vm_compute in He; discriminate | ].
  destruct (H'' e eq_refl) as [[Hn _] | [_ [Hs | Hs]]].
  - vm_compute in Hn. discriminate.
  - vm_compute in Hs. injection Hs as <-. reflexivity.
  - vm_compute in Hs. injection Hs as <-. reflexivity.
Defined.

(** ** Telemetry and the ready beep *)

Lemma telemetry_only_refl (s : DroneController) : telemetry_only s s.
Proof.
  exists (battery_level s), (height s), (flight_time s), (last_ready_beep s).
  destruct s. reflexivity.
Qed.

Lemma telemetry_only_trans (a b c : DroneController) :
  telemetry_only a b -> telemetry_only b c -> telemetry_only a c.
Proof.
  intros (b1 & h1 & f1 & t1 & ->) (b2 & h2 & f2 & t2 & ->).
  exists b2, h2, f2, t2. destruct a. reflexivity.
Qed.

Ltac telemetry_leaf :=
  first [ intros s; destruct s; eexists _, _, _, _;
          unfold with_last_ready_beep, with_flight_time, with_height,
            with_battery_level; cbn; reflexivity
        | apply telemetry_only_refl
        | assumption ].
Ltac telemetry_frame :=
  keeps_go telemetry_only_refl telemetry_only_trans telemetry_leaf.

Lemma check_ready_beep_telemetry : keeps telemetry_only check_ready_beep.
Proof. unfold check_ready_beep, play_beep. telemetry_frame. Qed.

Lemma update_telemetry_telemetry : keeps telemetry_only update_telemetry.
Proof.
  unfold update_telemetry. pose proof check_ready_beep_telemetry as H.
  generalize dependent check_ready_beep. intros m H. telemetry_frame.
Qed.

Lemma check_ready_beep_eq (self : DroneController) (w : World) :
  check_ready_beep self w
  = if ready_to_announce self (now w) then
      (Val tt, with_last_ready_beep (now w) self,
       with_out
         (out w ++ (if audio_enabled self then [Beep 1200 (1 # 10)] else [])
          ++ [Ready_for_commands])
         (with_reads (S (reads w)) w))
    else (Val tt, self, with_reads (S (reads w)) w).
Proof.
  unfold check_ready_beep, play_beep, ready_to_announce. exec_now.
  destruct (is_flying self && imu_ready self
            && (length (command_queue self) =? 0)%nat
            && Q_ge _ _); exec; [ | reflexivity ].
  destruct (audio_enabled self); exec; rewrite <- ?app_assoc; reflexivity.
Qed.

Lemma update_telemetry_idle (self : DroneController) (w : World) :
  tello self = None \/ connected self = false ->
  update_telemetry self w = (Val tt, self, w).
Proof.
  intros H. unfold update_telemetry. exec.
  destruct H as [H | H]; rewrite H; [ reflexivity | ].
  rewrite andb_false_r. reflexivity.
Qed.

Lemma update_telemetry_partial (self : DroneController) (w : World) :
  tello self <> None -> connected self = true ->
  let n := length (calls w) in
  (forall msg, link w n Link_get_battery = Raises msg ->
   update_telemetry self w
   = (Val tt, self, with_calls (calls w ++ [Link_get_battery]) w))
  /\ (forall b msg,
        link w n Link_get_battery = Returns b ->
        link w (S n) Link_get_height = Raises msg ->
        update_telemetry self w
        = (Val tt, with_battery_level b self,
           with_calls (calls w ++ [Link_get_battery; Link_get_height])
             (with_out (out w ++ [Battery b]) w)))
  /\ (forall b h msg,
        link w n Link_get_battery = Returns b ->
        link w (S n) Link_get_height = Returns h ->
        link w (S (S n)) Link_get_flight_time = Raises msg ->
        update_telemetry self w
        = (Val tt, with_height h (with_battery_level b self),
           with_calls
             (calls w ++ [Link_get_battery; Link_get_height;
                          Link_get_flight_time])
             (with_out (out w ++ [Battery b]) w))).
Proof.
  intros Ht Hc n. subst n.
  destruct (tello self) eqn:E; [ | congruence ].
  unfold update_telemetry. split; [ | split ].
  - intros msg H1. exec. reflexivity.
  - intros b msg H1 H2. exec.
    rewrite length_app, Nat.add_comm. cbn. rewrite H2. cbn.
    rewrite <- app_assoc. reflexivity.
  - intros b h msg H1 H2 H3. exec.
    rewrite length_app, Nat.add_comm. cbn. rewrite H2. cbn.
    rewrite length_app, Nat.add_comm. cbn.
    rewrite length_app, Nat.add_comm. cbn. rewrite H3. cbn.
    rewrite <- !app_assoc. reflexivity.
Qed.

(** X9. [update_telemetry] is best effort: it never raises; without a link
    handle or when not connected it does nothing at all; whatever the link
    answers, at most the three telemetry fields and the stamp of the last
    beep change (flight flags, link fields, cooldown stamp, multiplier and
    the continuous-control state stay).  It can apply a reading in part:
    when the battery is read and the height raises, the new battery level
    is kept and the height and the flight time are the old ones. *)
Theorem update_telemetry_best_effort (self : DroneController) (w : World) :
  let r := update_telemetry self w in
  let n := length (calls w) in
  result_of r = Val tt
  /\ telemetry_only self (self_of r)
  /\ (tello self = None \/ connected self = false ->
      self_of r = self /\ calls (world_of r) = calls w
      /\ reads (world_of r) = reads w)
  /\ (tello self <> None -> connected self = true ->
      forall b msg,
        link w n Link_get_battery = Returns b ->
        link w (S n) Link_get_height = Raises msg ->
        battery_level (self_of r) = b
        /\ height (self_of r) = height self
        /\ flight_time (self_of r) = flight_time self
        /\ calls (world_of r)
           = calls w ++ [Link_get_battery; Link_get_height]).
Proof.
  intros r n. subst r n.
  split. { destruct (update_telemetry_returns self w) as [[] H]. exact H. }
  split; [ apply update_telemetry_telemetry | ].
  split.
  - intros H. rewrite (update_telemetry_idle self w H).
    repeat split; reflexivity.
  - intros Ht Hc b msg H1 H2.
    destruct (update_telemetry_partial self w Ht Hc) as (_ & H & _).
    rewrite (H b msg H1 H2). repeat split; reflexivity.
Qed.

Lemma update_telemetry_best_effort_witness :
  let w := world_at [1000%Q] (link_failing_at 1 "timeout") in
  let self := with_height 120 grounded_connected in
  battery_level (self_of (update_telemetry self w)) = 0
  /\ height (self_of (update_telemetry self w)) = 120
  /\ calls (world_of (update_telemetry self w))
     = [Link_get_battery; Link_get_height].
Proof.
  intros w self.
  destruct (update_telemetry_best_effort self w) as (_ & _ & _ & H).
  destruct (H ltac:(discriminate) eq_refl 0 "timeout"%string eq_refl
              eq_refl) as (H1 & H2 & _ & H4).
  split; [ exact H1 | ]. split; [ exact H2 | exact H4 ].
Defined.

(** X10. [check_ready_beep] announces (prints the ready line and stamps
    the instant) iff the controller flies, [imu_ready] is set, the queue
    is empty and at least 5 s have passed since the last announcement;
    the tone is played iff the mixer is available, but the line and the
    stamp do not depend on it.  A check that follows an announcement by
    less than 5 s announces nothing and changes nothing. *)
Theorem check_ready_beep_rate (self : DroneController) (w : World) :
  let r := check_ready_beep self w in
  let r' := check_ready_beep (self_of r) (world_of r) in
  (ready_to_announce self (now w) = true ->
   self_of r = with_last_ready_beep (now w) self
   /\ out (world_of r)
      = out w ++ (if audio_enabled self then [Beep 1200 (1 # 10)] else [])
        ++ [Ready_for_commands]
   /\ ((now (world_of r) - now w < ready_beep_interval)%Q ->
       self_of r' = self_of r /\ out (world_of r') = out (world_of r)))
  /\ (ready_to_announce self (now w) = false ->
      self_of r = self /\ out (world_of r) = out w)
  /\ (ready_to_announce self (now w) = true
      <-> is_flying self = true /\ imu_ready self = true
          /\ command_queue self = []
          /\ (ready_beep_interval <= now w - last_ready_beep self)%Q).
Proof.
  intros r r'. subst r r'. split; [ | split ].
  - intros H. rewrite (check_ready_beep_eq self w), H.
    cbn [self_of world_of fst snd]. split; [ reflexivity | ].
    split; [ reflexivity | ].
    intros Hlt. rewrite check_ready_beep_eq.
    assert (Hn : ready_to_announce (with_last_ready_beep (now w) self)
                   (now (with_out
                           (out w
                            ++ (if audio_enabled self
                                then [Beep 1200 (1 # 10)] else [])
                            ++ [Ready_for_commands])
                           (with_reads (S (reads w)) w))) = false).
    { unfold ready_to_announce.
      apply andb_false_iff. right. apply Q_ge_false. exact Hlt. }
    rewrite Hn. split; reflexivity.
  - intros H. rewrite (check_ready_beep_eq self w), H. split; reflexivity.
  - unfold ready_to_announce. rewrite !andb_true_iff, Q_ge_true.
    rewrite Nat.eqb_eq, length_zero_iff_nil. tauto.
Qed.

Lemma check_ready_beep_rate_witness :
  let w := world_at [1000; 1003]%Q link_ok in
  let r := check_ready_beep in_flight_ready w in
  out (world_of r) = [Beep 1200 (1 # 10); Ready_for_commands]
  /\ out (world_of (check_ready_beep (self_of r) (world_of r)))
     = out (world_of r).
Proof.
  intros w r.
  destruct (check_ready_beep_rate in_flight_ready w) as [H _].
  destruct (H eq_refl) as (_ & H2 & H3).
  split; [ exact H2 | ].
  apply H3. vm_compute. reflexivity.
Defined.

(** ** The speed of the continuous control *)

Lemma float_lt_zero_sign (x : float) :
  float_gt (float_of_Z 0) x = true -> float_sign x = Some true.
Proof.
  unfold float_gt. change (float_of_Z 0) with (S754_zero false).
  destruct x as [s | s | | s m e]; cbn; try discriminate;
    destruct s; try discriminate; reflexivity.
Qed.

(** X11. The speed of the continuous control,
    [min(int(50 * speed_multiplier), 100)], where the product is the one
    of the floats.  It has no value exactly when the product is an
    infinity ([int] raises [OverflowError]) or NaN ([ValueError]): so it
    is for a multiplier that is infinite or NaN, and for the finite
    multiplier [2.0 ** 1020].  A value is at most 100; it is not negative
    for a multiplier that is not negative, and not positive for a negative
    one, with no bound from below.  The value is 50 for the multiplier 1.0
    of the interface, 100 for its boost 3.0, and 35 for 0.7, whose product
    with 50 rounds to 35.0. *)
Theorem rc_speed_of_multiplier (self : DroneController) :
  let m := speed_multiplier self in
  let product := float_mul (float_of_Z 50) m in
  let overflow :=
    OverflowError "cannot convert float infinity to integer" in
  let invalid := ValueError "cannot convert float NaN to integer" in
  (forall v, rc_speed_of self = Val v ->
   v <= 100
   /\ (float_ge m (float_of_Z 0) = true -> 0 <= v)
   /\ (float_gt (float_of_Z 0) m = true -> v <= 0))
  /\ (forall e, rc_speed_of self = Exc e <->
      ((exists s, product = S754_infinity s) /\ e = overflow)
      \/ (product = S754_nan /\ e = invalid))
  /\ (m = float_nan -> rc_speed_of self = Exc invalid)
  /\ (forall s, m = S754_infinity s -> rc_speed_of self = Exc overflow)
  /\ (m = float_of_Z (2 ^ 1020) -> rc_speed_of self = Exc overflow)
  /\ (m = float_of_Z 1 -> rc_speed_of self = Val 50)
  /\ (m = float_of_Z 3 -> rc_speed_of self = Val 100)
  /\ (m = decimal 7 10 -> rc_speed_of self = Val 35)
  /\ (m = float_of_Z (-3) -> rc_speed_of self = Val (-150)).
Proof.
  intros m product overflow invalid.
  split.
  { intros v Hv. split; [ | split ].
    - apply rc_speed_of_product in Hv as (z & _ & ->). lia.
    - intros Hm. apply (rc_speed_of_bounds self v Hm Hv).
    - intros Hm. apply float_lt_zero_sign in Hm.
      apply rc_speed_of_product in Hv as (z & Hz & ->).
      assert (z <= 0); [ | lia ].
      pose proof (float_mul_sign (float_of_Z 50) m false true eq_refl Hm)
        as [Hn | Hs].
      + fold m in Hz. rewrite Hn in Hz. discriminate.
      + apply int_of_float_sign in Hz. fold m in Hz. rewrite Hs in Hz.
        exact Hz. }
  split.
  { intros e. rewrite rc_speed_of_eq. fold m product. split.
    - destruct (int_of_float product) as [z | e'] eqn:Hz; cbn;
        [ discriminate | ].
      intros H. injection H as <-. apply int_of_float_raises. exact Hz.
    - intros [[[s ->] ->] | [-> ->]]; reflexivity. }
  split; [ | split ].
  { intros H. rewrite rc_speed_of_eq. fold m. rewrite H. reflexivity. }
  { intros s H. rewrite rc_speed_of_eq. fold m. rewrite H.
    destruct s; reflexivity. }
  split; [ | split; [ | split; [ | split ] ] ];
    intros H; rewrite rc_speed_of_eq; fold m; rewrite H;
    vm_compute; reflexivity.
Qed.

Lemma rc_speed_of_multiplier_witness :
  rc_speed_of (init true) = Val 50
  /\ rc_speed_of (with_speed_multiplier (decimal 7 10) (init true)) = Val 35
  /\ rc_speed_of (with_speed_multiplier float_inf (init true))
     = Exc (OverflowError "cannot convert float infinity to integer").
Proof.
  destruct (rc_speed_of_multiplier (init true))
    as (_ & _ & _ & _ & _ & H1 & _).
  destruct (rc_speed_of_multiplier
              (with_speed_multiplier (decimal 7 10) (init true)))
    as (_ & _ & _ & _ & _ & _ & _ & H2 & _).
  destruct (rc_speed_of_multiplier
              (with_speed_multiplier float_inf (init true)))
    as (_ & _ & _ & H3 & _).
  split; [ apply H1; reflexivity | ].
  split; [ apply H2; reflexivity | ].
  apply (H3 false). reflexivity.
Defined.

(** ** The continuous mode *)

Lemma start_rc_mode_eq (self : DroneController) (w : World) :
  start_rc_mode self w
  = (Val tt,
     (if negb (rc_mode_active self) && is_some (tello self)
         && connected self
      then with_rc_stop_event false (with_rc_mode_active true self)
      else self),
     with_out
       (out w
        ++ [Start_rc_mode_called (is_some (tello self))
              (connection_status self) (rc_mode_active self);
            if negb (rc_mode_active self) && is_some (tello self)
               && connected self
            then Rc_mode_activated
            else if rc_mode_active self then Rc_mode_already_active
                 else Rc_mode_not_started]) w).
Proof.
  unfold start_rc_mode. exec.
  destruct (negb (rc_mode_active self) && is_some (tello self)
            && connected self); exec.
  - rewrite <- app_assoc. reflexivity.
  - destruct (rc_mode_active self); exec; rewrite <- app_assoc;
      reflexivity.
Qed.

Lemma stop_rc_mode_eq (self : DroneController) (w : World) :
  stop_rc_mode self w
  = if rc_mode_active self then
      (Val tt,
       with_current_rc_values rc_zero
         (with_rc_stop_event true (with_rc_mode_active false self)),
       with_out (out w ++ [Rc_mode_deactivated])
         (if is_some (tello self) && connected self
          then with_calls (calls w ++ [Send_rc_control 0 0 0 0]) w
          else w))
    else (Val tt, self, w).
Proof.
  unfold stop_rc_mode. exec.
  destruct (rc_mode_active self); exec; [ | reflexivity ].
  destruct (is_some (tello self) && connected self); exec;
    [ | reflexivity ].
  destruct (link w _ _); reflexivity.
Qed.

(** X12. Entering and leaving the continuous mode.  [start_rc_mode] never
    raises and calls nothing on the link; the mode is active afterwards
    iff it was already, or there is a link handle and the status is
    [CONNECTED]; an active mode is left as it is.  [stop_rc_mode] never
    raises, whatever the link answers; on an inactive mode it does
    nothing at all, on an active one it leaves the mode, zeroes the stored
    vector and sends one zero vector iff there is a handle and the status
    is [CONNECTED].  A start followed by a stop ends with the mode
    inactive and the stored vector at zero. *)
Theorem rc_mode_toggle (self : DroneController) (w w' : World) :
  let r := start_rc_mode self w in
  let r' := stop_rc_mode self w in
  let r'' := stop_rc_mode (self_of r) w' in
  (result_of r = Val tt /\ calls (world_of r) = calls w
   /\ rc_mode_active (self_of r)
      = rc_mode_active self || (is_some (tello self) && connected self)
   /\ (rc_mode_active self = true -> self_of r = self)
   /\ current_rc_values (self_of r) = current_rc_values self)
  /\ (result_of r' = Val tt
      /\ rc_mode_active (self_of r') = false
      /\ (rc_mode_active self = false -> r' = (Val tt, self, w))
      /\ (rc_mode_active self = true ->
          current_rc_values (self_of r') = rc_zero
          /\ calls (world_of r')
             = calls w ++ (if is_some (tello self) && connected self
                           then [Send_rc_control 0 0 0 0] else [])))
  /\ (rc_mode_active (self_of r'') = false
      /\ (rc_mode_active (self_of r) = true ->
          current_rc_values (self_of r'') = rc_zero)).
Proof.
  intros r r' r''. subst r r' r''.
  rewrite start_rc_mode_eq, !stop_rc_mode_eq.
  cbn [self_of world_of result_of fst snd].
  split; [ | split ].
  - split; [ reflexivity | ]. split; [ reflexivity | ].
    destruct (rc_mode_active self) eqn:Ha, (is_some (tello self)),
      (connected self); cbn; rewrite ?Ha; repeat split; try reflexivity;
      congruence.
  - destruct (rc_mode_active self) eqn:Ha; cbn.
    + split; [ reflexivity | ]. split; [ reflexivity | ].
      split; [ discriminate | ]. intros _. split; [ reflexivity | ].
      destruct (is_some (tello self) && connected self); cbn;
        [ reflexivity | rewrite app_nil_r; reflexivity ].
    + split; [ reflexivity | ]. split; [ exact Ha | ].
      split; [ reflexivity | discriminate ].
  - set (s1 := if negb (rc_mode_active self) && is_some (tello self)
                  && connected self
               then with_rc_stop_event false (with_rc_mode_active true self)
               else self).
    destruct (rc_mode_active s1) eqn:Ha; cbn.
    + split; [ reflexivity | intros _; reflexivity ].
    + split; [ exact Ha | discriminate ].
Qed.

Lemma RcValues_eqb_eq (a b : RcValues) : RcValues_eqb a b = true <-> a = b.
Proof.
  unfold RcValues_eqb. rewrite !andb_true_iff, !Z.eqb_eq.
  destruct a, b; cbn. split.
  - intros (((-> & ->) & ->) & ->). reflexivity.
  - intros H. injection H as -> -> -> ->. repeat split; reflexivity.
Qed.

Lemma update_rc_control_skipped (keys : gset Z) (self : DroneController)
  (w : World) :
  rc_mode_active self = false \/ tello self = None
  \/ connected self = false ->
  update_rc_control keys self w
  = (Val tt, self,
     with_out
       (out w ++ [Update_rc_called (rc_mode_active self) (size keys);
                  Rc_control_skipped (rc_mode_active self)
                    (is_some (tello self)) (connection_status self)]) w).
Proof.
  intros H. unfold update_rc_control. exec.
  assert (Hb : negb (rc_mode_active self) || negb (is_some (tello self))
               || negb (connected self) = true).
  { destruct H as [H | [H | H]]; rewrite H; cbn;
      rewrite ?orb_true_r; reflexivity. }
  rewrite Hb. exec. rewrite <- app_assoc. reflexivity.
Qed.

Lemma update_rc_control_sends (keys : gset Z) (v : RcValues)
  (self : DroneController) (w : World) :
  rc_mode_active self = true -> tello self <> None ->
  connected self = true ->
  calculate_rc_values self keys = Val v ->
  result_of (update_rc_control keys self w) = Val tt
  /\ self_of (update_rc_control keys self w)
     = (if RcValues_eqb v (current_rc_values self) then self
        else with_current_rc_values v self)
  /\ calls (world_of (update_rc_control keys self w))
     = calls w ++ (if RcValues_eqb v (current_rc_values self) then []
                   else [Send_rc_control (left_right v) (forward_back v)
                           (up_down v) (yaw v)]).
Proof.
  intros Ha Ht Hc Hv.
  destruct (RcValues_eqb v (current_rc_values self)) eqn:He.
  - rewrite (update_rc_control_unchanged keys v self w Ha Ht Hc Hv He).
    cbn. rewrite app_nil_r. repeat split; reflexivity.
  - destruct (tello self) eqn:E; [ | congruence ].
    unfold update_rc_control. exec.
    destruct (link w _ _); exec.
    + destruct (active_movements _); repeat split; reflexivity.
    + repeat split; reflexivity.
Qed.

(** A vector that cannot be computed: the conversion raises before the
    [try], and the exception leaves the method. *)
Lemma update_rc_control_no_vector (keys : gset Z) (e : Exn)
  (self : DroneController) (w : World) :
  rc_mode_active self = true -> tello self <> None ->
  connected self = true ->
  calculate_rc_values self keys = Exc e ->
  update_rc_control keys self w
  = (Exc e, self,
     with_out (out w ++ [Update_rc_called true (size keys)]) w).
Proof.
  intros Ha Ht Hc Hv.
  destruct (tello self) eqn:E; [ | congruence ].
  unfold update_rc_control. exec. reflexivity.
Qed.

(** X13. [update_rc_control] calls the link at most once.  Unless the
    continuous mode is active, a link handle is there and the status is
    [CONNECTED], it returns, sends nothing and leaves the controller as it
    is.  Otherwise, when the vector of the held keys can be computed, it
    returns, the stored vector is afterwards the computed one, and that
    vector is sent iff it differs from the one stored before: an update
    repeated with the same keys and the same multiplier sends nothing.
    When the vector cannot be computed (the conversion of the speed
    raises), the exception leaves the method, which has sent nothing and
    changed nothing. *)
Theorem update_rc_control_on_change (keys : gset Z)
  (self : DroneController) (w w' : World) :
  let r := update_rc_control keys self w in
  let r' := update_rc_control keys (self_of r) w' in
  (rc_mode_active self = false \/ tello self = None
   \/ connected self = false ->
   result_of r = Val tt /\ self_of r = self /\ calls (world_of r) = calls w)
  /\ (rc_mode_active self = true -> tello self <> None ->
      connected self = true ->
      (forall v, calculate_rc_values self keys = Val v ->
       result_of r = Val tt
       /\ current_rc_values (self_of r) = v
       /\ calls (world_of r)
          = calls w ++ (if RcValues_eqb v (current_rc_values self) then []
                        else [Send_rc_control (left_right v)
                                (forward_back v) (up_down v) (yaw v)])
       /\ calls (world_of r') = calls w'
       /\ self_of r' = self_of r)
      /\ (forall e, calculate_rc_values self keys = Exc e ->
          result_of r = Exc e /\ self_of r = self
          /\ calls (world_of r) = calls w)).
Proof.
  intros r r'. subst r r'. split.
  - intros H. rewrite (update_rc_control_skipped keys self w H).
    repeat split; reflexivity.
  - intros Ha Ht Hc. split.
    + intros v Hcv.
      destruct (update_rc_control_sends keys v self w Ha Ht Hc Hcv)
        as (H1 & H2 & H3).
      split; [ exact H1 | ].
      assert (Hv : current_rc_values
                     (self_of (update_rc_control keys self w)) = v).
      { rewrite H2.
        destruct (RcValues_eqb _ _) eqn:He; [ | reflexivity ].
        symmetry. apply RcValues_eqb_eq, He. }
      split; [ exact Hv | ]. split; [ exact H3 | ].
      assert (Hs : self_of (update_rc_control keys self w)
                   = with_current_rc_values v self).
      { rewrite H2.
        destruct (RcValues_eqb _ _) eqn:He; [ | reflexivity ].
        apply RcValues_eqb_eq in He. rewrite He.
        destruct self; reflexivity. }
      rewrite Hs.
      rewrite (update_rc_control_unchanged keys v); try assumption.
      * cbn. split; reflexivity.
      * apply RcValues_eqb_eq. reflexivity.
    + intros e Hcv.
      rewrite (update_rc_control_no_vector keys e self w Ha Ht Hc Hcv).
      repeat split; reflexivity.
Qed.

(** ** Tearing the link down *)

Lemma disconnect_after_stop (self : DroneController) (w : World) :
  rc_mode_active self = false ->
  let n := length (calls w) in
  let gone := with_tello None (with_connection_status DISCONNECTED self) in
  disconnect self w
  = match tello self with
    | None => (Val tt, gone, w)
    | Some _ =>
        if is_flying self then
          match link w n (Invoke cmd_land []) with
          | Raises _ =>
              (Val tt, gone, with_calls (calls w ++ [Invoke cmd_land []]) w)
          | Returns _ =>
              (Val tt, gone,
               with_calls (calls w ++ [Invoke cmd_land []; Link_end]) w)
          end
        else (Val tt, gone, with_calls (calls w ++ [Link_end]) w)
    end.
Proof.
  intros Ha n gone. subst n gone. unfold disconnect. exec.
  destruct (tello self) eqn:Ht; exec; [ | reflexivity ].
  destruct (is_flying self) eqn:Hf; exec.
  - destruct (link w (length (calls w)) (Invoke cmd_land [])) eqn:Hl;
      exec; [ | reflexivity ].
    destruct (link w _ Link_end); exec; rewrite <- app_assoc; reflexivity.
  - destruct (link w _ _); reflexivity.
Qed.

#[local] Arguments stop_rc_mode : simpl never.

Lemma disconnect_in_rc_mode (self : DroneController) (w : World) :
  rc_mode_active self = true ->
  disconnect self w
  = disconnect (self_of (stop_rc_mode self w))
      (world_of (stop_rc_mode self w)).
Proof.
  intros Ha. rewrite stop_rc_mode_eq, Ha.
  unfold disconnect. exec. rewrite stop_rc_mode_eq. exec. reflexivity.
Qed.

(** X14. What [disconnect] sends.  Without a link handle it sends nothing,
    in flight or not.  With a handle and the continuous mode inactive, a
    grounded controller releases the link ([end]); one in flight first
    commands a landing and releases the link only if the landing command
    was accepted: when it raises, [end] is never called, and the
    controller still drops the handle and shows [DISCONNECTED].  In every
    case the continuous mode is inactive afterwards, and an active one
    with a connected handle has its zero vector sent first. *)
Theorem disconnect_teardown (self : DroneController) (w : World) :
  let r := disconnect self w in
  let n := length (calls w) in
  rc_mode_active (self_of r) = false
  /\ (tello self = None -> calls (world_of r) = calls w)
  /\ (rc_mode_active self = false -> tello self <> None ->
      (is_flying self = false -> calls (world_of r) = calls w ++ [Link_end])
      /\ (is_flying self = true ->
          forall msg, link w n (Invoke cmd_land []) = Raises msg ->
          calls (world_of r) = calls w ++ [Invoke cmd_land []])
      /\ (is_flying self = true ->
          forall v, link w n (Invoke cmd_land []) = Returns v ->
          calls (world_of r) = calls w ++ [Invoke cmd_land []; Link_end]))
  /\ (rc_mode_active self = true -> tello self <> None ->
      connected self = true ->
      exists l, calls (world_of r)
                = calls w ++ Send_rc_control 0 0 0 0 :: l).
Proof.
  intros r n. subst r n. split; [ | split; [ | split ] ].
  - destruct (rc_mode_active self) eqn:Ha.
    + rewrite (disconnect_in_rc_mode self w Ha), stop_rc_mode_eq, Ha.
      cbn [self_of world_of fst snd].
      rewrite disconnect_after_stop by reflexivity.
      destruct (tello _); [ | reflexivity ].
      destruct (is_flying _); [ destruct (link _ _ _) | ]; reflexivity.
    + rewrite disconnect_after_stop by exact Ha.
      destruct (tello self); [ | exact Ha ].
      destruct (is_flying self); [ destruct (link _ _ _) | ]; exact Ha.
  - intros Ht. destruct (rc_mode_active self) eqn:Ha.
    + rewrite (disconnect_in_rc_mode self w Ha), stop_rc_mode_eq, Ha, Ht.
      cbn [self_of world_of fst snd is_some andb].
      rewrite disconnect_after_stop by reflexivity.
      cbn. rewrite Ht. reflexivity.
    + rewrite disconnect_after_stop by exact Ha. rewrite Ht. reflexivity.
  - intros Ha Ht. rewrite disconnect_after_stop by exact Ha.
    destruct (tello self) eqn:E; [ | congruence ].
    split; [ | split ].
    + intros ->. reflexivity.
    + intros -> msg ->. reflexivity.
    + intros -> v ->. reflexivity.
  - intros Ha Ht Hc. destruct (tello self) eqn:E; [ | congruence ].
    rewrite (disconnect_in_rc_mode self w Ha), stop_rc_mode_eq, Ha, E, Hc.
    cbn [self_of world_of fst snd is_some andb].
    rewrite disconnect_after_stop by reflexivity.
    cbn. rewrite E.
    destruct (is_flying self); [ destruct (link _ _ _) | ];
      eexists; cbn; rewrite <- ?app_assoc; reflexivity.
Qed.

Lemma disconnect_teardown_witness :
  let w := world_at [] (link_failing_at 0 "timeout") in
  calls (world_of (disconnect in_flight_ready w)) = [Invoke cmd_land []].
Proof.
  intros w.
  destruct (disconnect_teardown in_flight_ready w) as (_ & _ & H & _).
  destruct H as (_ & H & _); [ reflexivity | discriminate | ].
  exact (H eq_refl "timeout"%string eq_refl).
Defined.

(** ** The fall-back pulse and its timer *)

Lemma rc_stop_timer_no_handle (self : DroneController) (w : World) :
  tello self = None ->
  rc_stop_timer self w = (Exc (AttributeError "send_rc_control"), self, w).
Proof. intros Ht. unfold rc_stop_timer. exec. reflexivity. Qed.

(** X15. The body of the timer that ends a fall-back pulse looks at
    neither the status nor the flight state: with a link handle it sends
    one zero vector, and an error of the link escapes it; without one it
    raises [AttributeError] and sends nothing.  So it does whenever it
    fires after a [disconnect].  It never changes the controller. *)
Theorem rc_stop_timer_outcome (self : DroneController) (w w' : World) :
  let r := rc_stop_timer self w in
  self_of r = self
  /\ (tello self = None ->
      result_of r = Exc (AttributeError "send_rc_control")
      /\ calls (world_of r) = calls w)
  /\ (tello self <> None ->
      calls (world_of r) = calls w ++ [Send_rc_control 0 0 0 0]
      /\ result_of r
         = match link w (length (calls w)) (Send_rc_control 0 0 0 0) with
           | Returns _ => Val tt
           | Raises msg => Exc (TelloException msg)
           end)
  /\ result_of (rc_stop_timer (self_of (disconnect self w)) w')
     = Exc (AttributeError "send_rc_control").
Proof.
  intros r. subst r. split; [ | split; [ | split ] ].
  - unfold rc_stop_timer. exec. destruct (tello self); exec;
      [ destruct (link w _ _) | ]; reflexivity.
  - intros Ht. rewrite (rc_stop_timer_no_handle self w Ht).
    split; reflexivity.
  - intros Ht. destruct (tello self) eqn:E; [ | congruence ].
    unfold rc_stop_timer. exec. destruct (link w _ _); split; reflexivity.
  - destruct (disconnect_returns self w) as [[] Hr].
    pose proof (disconnect_ensures self w) as He. rewrite Hr in He.
    destruct He as [_ Ht].
    rewrite (rc_stop_timer_no_handle _ w' Ht). reflexivity.
Qed.

(** X16. The fall-back pulse, with a link handle and the status
    [CONNECTED].  When the speed [min(int(50 * speed_multiplier), 100)]
    has a value: for a movement primitive the pulse accepted by the link
    is followed by one timer, of 0.4 s when the multiplier is above 1.0
    and of 0.3 s otherwise, and the result is True; when the link raises,
    no timer is started and the result is False; for a command that is not
    a movement nothing is sent, yet the timer is started and the result is
    True; and with a multiplier that is not negative every component of
    the pulse is within [-100, 100].  When the speed has no value (the
    conversion raises, inside the [try]), nothing is sent, no timer is
    started and the result is False. *)
Theorem fallback_pulse (f : Command) (args : list Arg)
  (self : DroneController) (w : World) :
  tello self <> None -> connected self = true ->
  let r := execute_rc_movement f args self w in
  let m := speed_multiplier self in
  let d := if float_gt m (float_of_Z 1) then 4 # 10 else 3 # 10 in
  (forall rc_speed, rc_speed_of self = Val rc_speed ->
   (forall c, rc_pulse f rc_speed = Some c ->
    calls (world_of r) = calls w ++ [c]
    /\ match link w (length (calls w)) c with
       | Returns _ =>
           result_of r = Val true
           /\ spawned (world_of r) = spawned w ++ [Rc_stop_timer d]
       | Raises _ =>
           result_of r = Val false /\ spawned (world_of r) = spawned w
       end)
   /\ (rc_pulse f rc_speed = None ->
       result_of r = Val true /\ calls (world_of r) = calls w
       /\ spawned (world_of r) = spawned w ++ [Rc_stop_timer d])
   /\ (float_ge m (float_of_Z 0) = true ->
       forall a b c d',
         rc_pulse f rc_speed = Some (Send_rc_control a b c d') ->
         in_rc_range a /\ in_rc_range b /\ in_rc_range c
         /\ in_rc_range d'))
  /\ (forall e, rc_speed_of self = Exc e ->
      result_of r = Val false /\ calls (world_of r) = calls w
      /\ spawned (world_of r) = spawned w).
Proof.
  intros Ht Hc r m d. subst r m d. split.
  - intros v Hv. split; [ | split ].
    + intros c Hp.
      rewrite (execute_rc_movement_pulse f args v c self w Ht Hc Hv Hp).
      destruct (link w _ _); repeat split; reflexivity.
    + intros Hp.
      rewrite (execute_rc_movement_no_pulse f args v self w Ht Hc Hv Hp).
      repeat split; reflexivity.
    + intros Hm a b c d' Hp.
      pose proof (rc_speed_of_bounds self v Hm Hv) as Hb.
      unfold in_rc_range.
      destruct f; cbn in Hp; try discriminate;
        injection Hp as <- <- <- <-; lia.
  - intros e He.
    rewrite (execute_rc_movement_no_speed f args e self w Ht Hc He).
    repeat split; reflexivity.
Qed.

Lemma fallback_pulse_witness :
  let self := in_flight_unready 1000 in
  let w := world_at [1001%Q] link_ok in
  result_of (execute_rc_movement cmd_move_left [] self w) = Val true
  /\ spawned (world_of (execute_rc_movement cmd_move_left [] self w))
     = [Rc_stop_timer (3 # 10)]
  /\ result_of (execute_rc_movement cmd_move_left []
                  (with_speed_multiplier float_nan self) w) = Val false.
Proof.
  intros self w.
  destruct (fallback_pulse cmd_move_left [] self w) as [H _];
    [ discriminate | reflexivity | ].
  destruct (H 50 eq_refl) as [H' _].
  destruct (H' (Send_rc_control (-50) 0 0 0) eq_refl) as [_ H''].
  destruct (fallback_pulse cmd_move_left []
              (with_speed_multiplier float_nan self) w) as [_ Hn];
    [ discriminate | reflexivity | ].
  destruct H'' as [H1 H2]. split; [ exact H1 | ]. split; [ exact H2 | ].
  apply (Hn (ValueError "cannot convert float NaN to integer")).
  reflexivity.
Defined.

(** ** Discrete movements and the throttle *)

Lemma execute_movement_command_flagged (f : Command) (args : list Arg)
  (modified_args : list Arg) (self : DroneController) (w : World) :
  is_flying self = true -> imu_ready self = true ->
  scale_args (speed_multiplier self) args = Val modified_args ->
  execute_movement_command f args self w
  = execute_command f modified_args self
      (with_out
         (out w ++ match modified_args with
                   | first :: _ =>
                       [Command_line
                          (float_gt (speed_multiplier self) (float_of_Z 1))
                          f first]
                   | [] => []
                   end)
         (with_reads (S (reads w)) w)).
Proof.
  intros Hf Hr Hs.
  assert (Hi : with_imu_ready true self = self).
  { destruct self. cbn in Hr. subst. reflexivity. }
  rewrite (execute_movement_command_flying f args self w Hf). cbv zeta.
  destruct (Q_ge _ _); rewrite ?Hi, Hr, Hs; reflexivity.
Qed.

(** X17. Discrete movements share the cooldown.  In flight with the delay
    elapsed, a link handle, the status [CONNECTED], the cooldown elapsed
    and arguments that can be scaled, a movement invokes its primitive
    once, with the scaled arguments; a second movement whose cooldown
    check comes less than 0.5 s after that of the first returns False and
    calls nothing on the link: it is dropped, not queued. *)
Theorem discrete_movements_are_throttled (f g : Command)
  (args args' modified_args modified_args' : list Arg)
  (self : DroneController) (w : World) :
  is_flying self = true -> tello self <> None -> connected self = true ->
  (imu_stabilization_delay <= now w - takeoff_time self)%Q ->
  (command_cooldown <= clock w (S (reads w)) - last_command_time self)%Q ->
  (clock w (S (S (S (reads w)))) - clock w (S (reads w))
   < command_cooldown)%Q ->
  scale_args (speed_multiplier self) args = Val modified_args ->
  scale_args (speed_multiplier self) args' = Val modified_args' ->
  let r := execute_movement_command f args self w in
  let r' := execute_movement_command g args' (self_of r) (world_of r) in
  calls (world_of r) = calls w ++ [Invoke f modified_args]
  /\ result_of r' = Val false
  /\ calls (world_of r') = calls (world_of r)
  /\ command_queue (self_of r') = command_queue self.
Proof.
  intros Hf Ht Hc Hd Hq Hlt Hs Hs' r r'. subst r r'.
  rewrite (execute_movement_command_ready f args modified_args self w
             Hf Hd Hs).
  match goal with
  | |- context [execute_command f ?a ?s ?w2] => set (w1 := w2); set (s1 := s)
  end.
  rewrite (execute_command_dispatch f _ s1 w1 Ht Hc Hq).
  set (t1 := now w1).
  assert (Hgo : forall s2 w2,
             s2 = with_last_command_time t1 s1 ->
             clock w2 = clock w -> reads w2 = S (S (reads w)) ->
             result_of (execute_movement_command g args' s2 w2) = Val false
             /\ calls (world_of (execute_movement_command g args' s2 w2))
                = calls w2
             /\ command_queue
                  (self_of (execute_movement_command g args' s2 w2))
                = command_queue self).
  { intros s2 w2 -> Hk Hn.
    rewrite (execute_movement_command_flagged g args' modified_args');
      [ | exact Hf | reflexivity | exact Hs' ].
    rewrite execute_command_cooling.
    - repeat split; reflexivity.
    - exact Ht.
    - exact Hc.
    - unfold now. cbn. rewrite Hk, Hn. exact Hlt. }
  destruct (link w1 _ _); cbn [self_of world_of fst snd].
  - split; [ reflexivity | ]. apply Hgo; reflexivity.
  - split; [ reflexivity | ]. apply Hgo; reflexivity.
Qed.

Lemma discrete_movements_are_throttled_witness :
  let self := with_speed_multiplier (decimal 23 10)
                (with_imu_ready true (in_flight_unready 1000)) in
  let w := world_at [1004; 1004; 1004 + (2 # 10); 1004 + (2 # 10)]%Q
             link_ok in
  let r := execute_movement_command cmd_move_forward [AInt 30] self w in
  calls (world_of r) = [Invoke cmd_move_forward [AInt 69]]
  /\ calls (world_of (execute_movement_command cmd_move_back [AInt 30]
                        (self_of r) (world_of r)))
     = calls (world_of r).
Proof.
  intros self w r.
  destruct (discrete_movements_are_throttled cmd_move_forward cmd_move_back
              [AInt 30] [AInt 30] [AInt 69] [AInt 69] self w)
    as (H1 & _ & H3 & _);
    try reflexivity; try discriminate;
    try (vm_compute; first [ reflexivity | discriminate ]).
  split; [ exact H1 | exact H3 ].
Defined.

(** * Properties of the interface *)

(** ** What the methods of the controller leave alone *)

Lemma same_settings_refl (s : DroneController) : same_settings s s.
Proof. repeat split; reflexivity. Qed.

Lemma same_settings_trans (a b c : DroneController) :
  same_settings a b -> same_settings b c -> same_settings a c.
Proof. intros (H1 & H2 & H3) (H4 & H5 & H6). repeat split; congruence. Qed.

Create HintDb settings discriminated.

Ltac settings_leaf :=
  first [ intros; repeat split; reflexivity
        | auto with settings nocore ].
Ltac settings_frame :=
  keeps_go same_settings_refl same_settings_trans settings_leaf.

Lemma play_beep_settings (f : Z) (d : Q) :
  keeps same_settings (play_beep f d).
Proof. unfold play_beep. settings_frame. Qed.
#[local] Hint Resolve play_beep_settings : settings.

Lemma check_ready_beep_settings : keeps same_settings check_ready_beep.
Proof. unfold check_ready_beep. settings_frame. Qed.
#[local] Hint Resolve check_ready_beep_settings : settings.

Lemma update_telemetry_settings : keeps same_settings update_telemetry.
Proof. unfold update_telemetry. settings_frame. Qed.
#[local] Hint Resolve update_telemetry_settings : settings.

Lemma connect_settings : keeps same_settings connect.
Proof. unfold connect. settings_frame. Qed.
#[local] Hint Resolve connect_settings : settings.

Lemma can_execute_command_settings : keeps same_settings can_execute_command.
Proof. unfold can_execute_command. settings_frame. Qed.
#[local] Hint Resolve can_execute_command_settings : settings.

Lemma execute_command_settings (f : Command) (args : list Arg) :
  keeps same_settings (execute_command f args).
Proof. unfold execute_command, report_command_failure. settings_frame. Qed.
#[local] Hint Resolve execute_command_settings : settings.

Lemma execute_rc_movement_settings (f : Command) (args : list Arg) :
  keeps same_settings (execute_rc_movement f args).
Proof. unfold execute_rc_movement. settings_frame. Qed.
#[local] Hint Resolve execute_rc_movement_settings : settings.

Lemma check_imu_ready_settings : keeps same_settings check_imu_ready.
Proof. unfold check_imu_ready. settings_frame. Qed.
#[local] Hint Resolve check_imu_ready_settings : settings.

Lemma execute_movement_command_settings (f : Command) (args : list Arg) :
  keeps same_settings (execute_movement_command f args).
Proof. unfold execute_movement_command. settings_frame. Qed.
#[local] Hint Resolve execute_movement_command_settings : settings.

Lemma other_methods_settings :
  keeps same_settings takeoff /\ keeps same_settings land
  /\ keeps same_settings flip_forward /\ keeps same_settings emergency_stop
  /\ keeps same_settings notify_imu_ready
  /\ keeps same_settings rc_stop_timer
  /\ (forall keys, keeps same_settings (update_rc_control keys))
  /\ (forall attr f x, keeps same_settings (movement attr f x)).
Proof.
  repeat split; intros;
    unfold takeoff, land, flip_forward, emergency_stop, notify_imu_ready,
      rc_stop_timer, update_rc_control, movement;
    settings_frame.
Qed.

Lemma set_speed_multiplier_eq (m : float) (self : DroneController)
  (w : World) :
  set_speed_multiplier m self w
  = (Val tt, with_speed_multiplier m self,
     with_out (out w ++ [if float_gt m (float_of_Z 1) then Speed_boost m
                         else Normal_speed])
       w).
Proof.
  unfold set_speed_multiplier. exec.
  destruct (float_gt m (float_of_Z 1)); reflexivity.
Qed.

Lemma thread_segments_settings :
  keeps same_settings connect_begin
  /\ (forall c, keeps same_settings (telemetry_begin c))
  /\ (forall p, keeps same_settings (resume p)).
Proof.
  assert (Hd : forall c, keeps same_settings (telemetry_done c)).
  { intros c. unfold telemetry_done. settings_frame. }
  assert (Hb : forall c, keeps same_settings (telemetry_begin c)).
  { intros c. unfold telemetry_begin. settings_frame. }
  assert (Hf : forall e, keeps same_settings (connect_failed e)).
  { intros e. unfold connect_failed. settings_frame. }
  split; [ unfold connect_begin; settings_frame | ].
  split; [ exact Hb | ].
  intros p. destruct p; cbn [resume]; settings_frame.
Qed.

Lemma clear_command_queue_state (self : DroneController) (w : World) :
  self_of (clear_command_queue self w) = with_command_queue [] self.
Proof.
  destruct (command_queue self) as [ | c q ] eqn:E.
  - unfold clear_command_queue. exec.
    destruct self; cbn in *; subst; reflexivity.
  - rewrite clear_command_queue_nonempty by congruence. reflexivity.
Qed.

Lemma disconnect_state (self : DroneController) (w : World) :
  self_of (disconnect self w)
  = with_tello None
      (with_connection_status DISCONNECTED
         (if rc_mode_active self
          then with_current_rc_values rc_zero
                 (with_rc_stop_event true (with_rc_mode_active false self))
          else self)).
Proof.
  destruct (rc_mode_active self) eqn:Ha.
  - rewrite (disconnect_in_rc_mode self w Ha), stop_rc_mode_eq, Ha.
    cbn [self_of world_of fst snd].
    rewrite disconnect_after_stop by reflexivity.
    destruct (tello _); [ | reflexivity ].
    destruct (is_flying _); [ destruct (link _ _ _) | ]; reflexivity.
  - rewrite disconnect_after_stop by exact Ha.
    destruct (tello self); [ | reflexivity ].
    destruct (is_flying self); [ destruct (link _ _ _) | ]; reflexivity.
Qed.

(** ** Frame rules of the interface *)

Section UiKeeps.

Variable R : DroneInterface -> DroneInterface -> Prop.
Hypothesis R_refl : forall s, R s s.
Hypothesis R_trans : forall a b c, R a b -> R b c -> R a c.

Lemma ui_keeps_ret {A : Type} (a : A) : ui_keeps R (ui_ret a).
Proof. intros ui uw. apply R_refl. Qed.

Lemma ui_keeps_read {A : Type} (f : DroneInterface -> A) :
  ui_keeps R (ui_read f).
Proof. intros ui uw. apply R_refl. Qed.

Lemma ui_keeps_print (o : UiOutput) : ui_keeps R (ui_print o).
Proof. intros ui uw. apply R_refl. Qed.

Lemma ui_keeps_start_thread (t : UiThread) : ui_keeps R (start_thread t).
Proof. intros ui uw. apply R_refl. Qed.

Lemma ui_keeps_assign (f : DroneInterface -> DroneInterface) :
  (forall s, R s (f s)) -> ui_keeps R (ui_assign f).
Proof. intros H ui uw. apply H. Qed.

Lemma ui_keeps_bind {A B : Type} (m : UI A) (k : A -> UI B) :
  ui_keeps R m -> (forall a, ui_keeps R (k a)) -> ui_keeps R (ui_bind m k).
Proof.
  intros Hm Hk ui uw. unfold ui_bind. specialize (Hm ui uw).
  destruct (m ui uw) as [[[a | e] ui'] uw']; cbn in *.
  - eapply R_trans; [ exact Hm | apply Hk ].
  - exact Hm.
Qed.

Lemma ui_keeps_when (b : bool) (m : UI unit) :
  ui_keeps R m -> ui_keeps R (ui_when b m).
Proof. intros Hm. destruct b; cbn; [ exact Hm | apply ui_keeps_ret ]. Qed.

Lemma ui_keeps_call {A : Type} (m : M A) :
  (forall ui w, R ui (with_drone_controller
                        (self_of (m (drone_controller ui) w)) ui)) ->
  ui_keeps R (call m).
Proof. intros H ui uw. apply H. Qed.

End UiKeeps.

Ltac ui_keeps_go Hrefl Htrans leaf :=
  repeat first
    [ solve [ leaf ]
    | apply (ui_keeps_ret _ Hrefl)
    | apply (ui_keeps_read _ Hrefl)
    | apply (ui_keeps_print _ Hrefl)
    | apply (ui_keeps_start_thread _ Hrefl)
    | apply (ui_keeps_when _ Hrefl)
    | apply (ui_keeps_bind _ Htrans); [ | intro ]
    | apply ui_keeps_assign; solve [ leaf ]
    | apply ui_keeps_call; solve [ leaf ]
    | match goal with
      | |- ui_keeps _ (if ?b then _ else _) => destruct b
      | |- ui_keeps _ (match ?x with _ => _ end) => destruct x
      end ].

(** ** The interface and its controller agree *)

Lemma stays_consistent_refl (s : DroneInterface) : stays_consistent s s.
Proof. intros H. exact H. Qed.

Lemma stays_consistent_trans (a b c : DroneInterface) :
  stays_consistent a b -> stays_consistent b c -> stays_consistent a c.
Proof. intros H1 H2 H. apply H2, H1, H. Qed.

Lemma perform_settings (ms vs rs : Z) (op : Op) :
  ordinary op = true -> keeps same_settings (perform ms vs rs op).
Proof.
  destruct other_methods_settings
    as (H1 & H2 & H3 & H4 & H5 & H6 & H7 & H8).
  intros Ho. destruct op; try discriminate; cbn [perform];
    unfold move_forward, move_back, move_left, move_right, move_up,
      move_down, rotate_clockwise, rotate_counter_clockwise;
    try (apply (keeps_void _ same_settings_refl same_settings_trans));
    auto with settings nocore.
Qed.

Lemma call_ordinary {A : Type} (m : M A) :
  keeps same_settings m ->
  forall ui w,
    stays_consistent ui
      (with_drone_controller (self_of (m (drone_controller ui) w)) ui).
Proof.
  intros Hs ui w (H1 & H2 & H3).
  destruct (Hs (drone_controller ui) w) as (E1 & E2 & E3).
  unfold consistent. cbn. rewrite E1, E2, E3. repeat split; assumption.
Qed.

Lemma invoke_consistent (ms vs rs : Z) (op : Op) :
  ordinary op = true -> ui_keeps stays_consistent (invoke ms vs rs op).
Proof.
  intros Ho. apply ui_keeps_call. apply call_ordinary.
  apply perform_settings, Ho.
Qed.

Lemma key_commands_ordinary (key : Z) (op : Op) :
  key_commands !! key = Some op \/ non_movement_commands !! key = Some op ->
  ordinary op = true.
Proof.
  intros [H | H]; apply elem_of_list_to_map_2 in H;
    repeat (apply elem_of_cons in H; destruct H as [H | H];
            [ injection H as _ ->; reflexivity | ]);
    apply elem_of_nil in H; contradiction.
Qed.

Lemma clear_consistent : ui_keeps stays_consistent (call clear_command_queue).
Proof.
  apply ui_keeps_call. intros ui w (H1 & H2 & H3).
  rewrite clear_command_queue_state. repeat split; assumption.
Qed.

Lemma handle_key_press_consistent (ms vs rs : Z) (key : Z) :
  ui_keeps stays_consistent (handle_key_press ms vs rs key).
Proof.
  unfold handle_key_press.
  destruct (key =? K_SPACE); [ apply clear_consistent | ].
  apply (ui_keeps_bind _ stays_consistent_trans);
    [ apply (ui_keeps_read _ stays_consistent_refl) | intros ui ].
  destruct (negb _); [ apply (ui_keeps_ret _ stays_consistent_refl) | ].
  destruct (ctrl_pressed ui).
  - destruct (non_movement_commands !! key) as [op | ] eqn:E;
      [ | apply (ui_keeps_ret _ stays_consistent_refl) ].
    apply invoke_consistent, (key_commands_ordinary key). right. exact E.
  - destruct (key_commands !! key) as [op | ] eqn:E;
      [ | apply (ui_keeps_ret _ stays_consistent_refl) ].
    apply invoke_consistent, (key_commands_ordinary key). left. exact E.
Qed.

Lemma shift_consistent (b : bool) :
  ui_keeps stays_consistent
    (ui_bind (ui_assign (with_shift_pressed b))
       (fun _ => call (set_speed_multiplier
                         (float_of_Z (if b then 3 else 1))))).
Proof.
  intros ui uw (H1 & H2 & H3). unfold ui_bind, ui_assign, call.
  rewrite set_speed_multiplier_eq. cbn.
  repeat split; assumption.
Qed.

Lemma ctrl_down_consistent :
  ui_keeps stays_consistent
    (ui_bind (ui_assign (with_ctrl_pressed true))
       (fun _ => ui_bind (ui_print Ctrl_pressed_line)
                   (fun _ => call start_rc_mode))).
Proof.
  intros ui uw (H1 & H2 & H3).
  unfold ui_bind, ui_assign, ui_print, call.
  rewrite start_rc_mode_eq. cbn.
  destruct (negb _ && _ && _); cbn; repeat split; assumption.
Qed.

Lemma ctrl_up_consistent :
  ui_keeps stays_consistent
    (ui_bind (ui_assign (with_ctrl_pressed false))
       (fun _ => ui_bind (ui_print Ctrl_released_line)
                   (fun _ => call stop_rc_mode))).
Proof.
  intros ui uw (H1 & H2 & H3).
  unfold ui_bind, ui_assign, ui_print, call.
  rewrite stop_rc_mode_eq. cbn.
  destruct (rc_mode_active (drone_controller ui)) eqn:Ha; cbn;
    repeat split; try assumption; intros Hx; cbn in Hx; congruence.
Qed.

Lemma disconnect_consistent : ui_keeps stays_consistent (call disconnect).
Proof.
  apply ui_keeps_call. intros ui w (H1 & H2 & H3).
  rewrite disconnect_state. unfold consistent. cbn.
  destruct (rc_mode_active (drone_controller ui)) eqn:Ha; cbn;
    repeat split; try assumption; try discriminate.
  rewrite Ha. discriminate.
Qed.

Lemma ordinary_call_consistent {A : Type} (m : M A) :
  keeps same_settings m -> ui_keeps stays_consistent (call m).
Proof.
  intros Hs. apply ui_keeps_call. apply call_ordinary. exact Hs.
Qed.

Ltac consistent_leaf :=
  first [ intros ui H; exact H
        | apply clear_consistent
        | apply disconnect_consistent
        | apply handle_key_press_consistent
        | apply ordinary_call_consistent;
          first [ apply other_methods_settings
                | apply thread_segments_settings
                | auto with settings nocore ]
        | assumption ].
Ltac consistent_frame :=
  ui_keeps_go stays_consistent_refl stays_consistent_trans consistent_leaf.

Lemma time_time_consistent : ui_keeps stays_consistent (call time_time).
Proof.
  apply ui_keeps_call. intros ui w H. cbn.
  destruct ui. exact H.
Qed.

Lemma handle_click_consistent (bs : list (string * Rect)) (pos : Z * Z) :
  ui_keeps stays_consistent (handle_click bs pos).
Proof.
  induction bs as [ | [name rect] bs IH ]; cbn [handle_click];
    consistent_frame.
Qed.

Lemma handle_mouse_click_consistent (pos : Z * Z) :
  ui_keeps stays_consistent (handle_mouse_click pos).
Proof.
  unfold handle_mouse_click.
  pose proof (handle_click_consistent buttons pos) as H.
  generalize dependent (handle_click buttons pos). intros m H.
  consistent_frame.
Qed.

Lemma handle_event_consistent (ms vs rs : Z) (event : Event) :
  ui_keeps stays_consistent (handle_event ms vs rs event).
Proof.
  pose proof (shift_consistent true) as Hs1.
  pose proof (shift_consistent false) as Hs0.
  pose proof ctrl_down_consistent as Hc1.
  pose proof ctrl_up_consistent as Hc0.
  pose proof handle_mouse_click_consistent as Hm.
  destruct event; cbn [handle_event].
  - consistent_frame.
  - apply (ui_keeps_bind _ stays_consistent_trans);
      [ apply ui_keeps_assign; intros ui H; exact H | intros _ ].
    apply (ui_keeps_bind _ stays_consistent_trans);
      [ apply (ui_keeps_when _ stays_consistent_refl), Hs1 | intros _ ].
    apply (ui_keeps_bind _ stays_consistent_trans);
      [ apply (ui_keeps_when _ stays_consistent_refl), Hc1 | intros _ ].
    apply handle_key_press_consistent.
  - apply (ui_keeps_bind _ stays_consistent_trans);
      [ apply ui_keeps_assign; intros ui H; exact H | intros _ ].
    apply (ui_keeps_bind _ stays_consistent_trans);
      [ apply (ui_keeps_when _ stays_consistent_refl), Hs0 | intros _ ].
    apply (ui_keeps_when _ stays_consistent_refl), Hc0.
  - apply (ui_keeps_when _ stays_consistent_refl), Hm.
  - apply (ui_keeps_ret _ stays_consistent_refl).
Qed.

Lemma handle_events_consistent (ms vs rs : Z) (events : list Event) :
  ui_keeps stays_consistent (handle_events ms vs rs events).
Proof.
  induction events as [ | e es IH ]; cbn [handle_events].
  - apply (ui_keeps_ret _ stays_consistent_refl).
  - apply (ui_keeps_bind _ stays_consistent_trans);
      [ apply handle_event_consistent | intros _; exact IH ].
Qed.

Lemma update_consistent : ui_keeps stays_consistent update.
Proof.
  unfold update. pose proof time_time_consistent as Ht.
  generalize dependent (call time_time). intros m Ht.
  consistent_frame.
Qed.

Lemma ui_perform_consistent (ms vs rs : Z) (o : UiOp) :
  ui_keeps stays_consistent (ui_perform ms vs rs o).
Proof.
  destruct o as [events | [ | ] | p | | ]; cbn [ui_perform thread_body].
  - apply (ui_keeps_bind _ stays_consistent_trans);
      [ apply handle_events_consistent | intros _; apply update_consistent ].
  - consistent_frame.
  - consistent_frame.
  - consistent_frame.
  - consistent_frame.
  - consistent_frame.
Qed.

Lemma ui_run_consistent (ms vs rs : Z) (os : list UiOp)
  (c : DroneInterface * UiWorld) :
  consistent (fst c) -> consistent (fst (ui_run ms vs rs os c)).
Proof.
  revert c. induction os as [ | o os IH ]; intros [ui uw] H; cbn;
    [ exact H | ].
  apply IH. apply (ui_perform_consistent ms vs rs o ui uw), H.
Qed.

Lemma init_interface_consistent (audio : bool) :
  consistent (init_interface audio).
Proof.
  repeat split; try reflexivity; intros H; discriminate.
Qed.

Lemma consistent_multiplier (ui : DroneInterface) :
  consistent ui ->
  speed_multiplier (drone_controller ui) = float_of_Z 1
  \/ speed_multiplier (drone_controller ui) = float_of_Z 3.
Proof.
  intros (H & _). destruct (shift_pressed ui); [ right | left ]; exact H.
Qed.

(** With the multipliers of the interface the vector has a value. *)
Lemma calculate_rc_values_interface (self : DroneController)
  (keys : gset Z) :
  speed_multiplier self = float_of_Z 1
  \/ speed_multiplier self = float_of_Z 3 ->
  exists v, calculate_rc_values self keys = Val v.
Proof.
  intros H. rewrite calculate_rc_values_axes.
  destruct H as [H | H];
    [ rewrite (rc_speed_of_one self H) | rewrite (rc_speed_of_three self H) ];
    eexists; reflexivity.
Qed.

(** X18. Whatever the frames of events, the segments of the threads of
    [connect] and of the telemetry (which other operations may overtake at
    each of their calls on the link) and the tasks that run, in any order
    from the start of the interface on: the speed multiplier of the
    controller is 3.0 exactly while a Shift key counts as held and 1.0
    otherwise; the command queue is empty; and the continuous mode is
    active only while a Ctrl key counts as held.  So, through the
    interface, the control vector always has a value, which lies within
    [-100, 100] on each axis, and [clear_command_queue] always takes the
    branch of the empty queue. *)
Theorem interface_keeps_controller_consistent (ms vs rs : Z)
  (os : list UiOp) (audio : bool) (uw : UiWorld) (keys : gset Z)
  (w : World) :
  let ui := fst (ui_run ms vs rs os (init_interface audio, uw)) in
  let c := drone_controller ui in
  consistent ui
  /\ (speed_multiplier c = float_of_Z 1 \/ speed_multiplier c = float_of_Z 3)
  /\ (exists v,
        calculate_rc_values c keys = Val v
        /\ in_rc_range (left_right v) /\ in_rc_range (forward_back v)
        /\ in_rc_range (up_down v) /\ in_rc_range (yaw v))
  /\ out (world_of (clear_command_queue c w))
     = out w ++ [No_commands_to_clear].
Proof.
  intros ui c.
  assert (H : consistent ui).
  { apply ui_run_consistent, init_interface_consistent. }
  split; [ exact H | ].
  pose proof (consistent_multiplier ui H) as Hm. fold c in Hm.
  destruct H as (H1 & H2 & _). fold c in H1, H2.
  split; [ exact Hm | ].
  split.
  - destruct (calculate_rc_values_interface c keys Hm) as [v Hv].
    exists v. split; [ exact Hv | ].
    apply (calculate_rc_values_in_range_nonneg c keys v); [ | exact Hv ].
    destruct Hm as [-> | ->]; reflexivity.
  - unfold clear_command_queue. exec. reflexivity.
Qed.

(** ** Keys *)

Ltac ui_exec :=
  unfold ui_bind, ui_ret, ui_read, ui_assign, ui_print, start_thread,
    ui_when, call, invoke in *;
  repeat (progress (cbn; use_facts)).

Lemma non_movement_lookup (key : Z) (op : Op) :
  non_movement_commands !! key = Some op ->
  key_commands !! key = Some op /\ (key ∉ movement_keys)
  /\ key <> K_SPACE.
Proof.
  intros H. apply elem_of_list_to_map_2 in H.
  repeat (apply elem_of_cons in H; destruct H as [H | H];
          [ injection H as -> ->;
            split; [ reflexivity | split; [ | discriminate ] ];
            compute_done | ]).
  apply elem_of_nil in H. contradiction.
Qed.

Lemma movement_key_lookup (key : Z) :
  key ∈ movement_keys ->
  non_movement_commands !! key = None /\ key <> K_SPACE.
Proof.
  unfold movement_keys. intros H.
  repeat (apply elem_of_union in H; destruct H as [H | H]);
    apply elem_of_singleton in H; subst key;
    (split; [ reflexivity | discriminate ]).
Qed.

Lemma unknown_key_lookup (key : Z) :
  key_commands !! key = None -> non_movement_commands !! key = None.
Proof.
  intros H. destruct (non_movement_commands !! key) as [op | ] eqn:E;
    [ | reflexivity ].
  apply non_movement_lookup in E. destruct E as [E _]. congruence.
Qed.

(** X19. The dispatch of a key press.  SPACE clears the queue whatever the
    connection.  Any other key does nothing at all unless the status is
    [CONNECTED].  While a Ctrl key counts as held the eight movement keys
    give no discrete command; the keys of take-off, landing, emergency
    stop and flip call the same method with or without Ctrl.  A key that
    is bound to nothing does nothing. *)
Theorem key_press_dispatch (ms vs rs : Z) (key : Z) (ui : DroneInterface)
  (uw : UiWorld) :
  let r := handle_key_press ms vs rs key ui uw in
  (key = K_SPACE -> r = call clear_command_queue ui uw)
  /\ (key <> K_SPACE -> connected (drone_controller ui) = false ->
      r = (Val tt, ui, uw))
  /\ (ctrl_pressed ui = true -> key ∈ movement_keys ->
      r = (Val tt, ui, uw))
  /\ (forall op, connected (drone_controller ui) = true ->
      non_movement_commands !! key = Some op ->
      r = invoke ms vs rs op ui uw)
  /\ (key <> K_SPACE -> key_commands !! key = None ->
      r = (Val tt, ui, uw)).
Proof.
  intros r. subst r. unfold handle_key_press.
  split; [ | split; [ | split; [ | split ] ] ].
  - intros ->. reflexivity.
  - intros Hk Hc. apply Z.eqb_neq in Hk. rewrite Hk.
    unfold ui_bind, ui_read. cbn [id]. rewrite Hc. reflexivity.
  - intros Hc Hm. destruct (movement_key_lookup key Hm) as [Hn Hk].
    apply Z.eqb_neq in Hk. rewrite Hk.
    unfold ui_bind, ui_read. cbn [id]. rewrite Hc, Hn.
    destruct (negb _); reflexivity.
  - intros op Hc Hn. destruct (non_movement_lookup key op Hn) as (Hl & _ & Hk).
    apply Z.eqb_neq in Hk. rewrite Hk.
    unfold ui_bind, ui_read. cbn [id]. rewrite Hc, Hn, Hl. cbn [negb].
    destruct (ctrl_pressed ui); reflexivity.
  - intros Hk Hl. pose proof (unknown_key_lookup key Hl) as Hn.
    apply Z.eqb_neq in Hk. rewrite Hk.
    unfold ui_bind, ui_read. cbn [id]. rewrite Hl, Hn.
    destruct (negb _), (ctrl_pressed ui); reflexivity.
Qed.

Lemma key_press_dispatch_witness :
  let ui := with_ctrl_pressed true
              (with_drone_controller (in_flight_unready 1000)
                 (init_interface true)) in
  let uw := ui_world_at (world_at [1001; 1001]%Q link_ok) in
  handle_key_press 30 30 30 K_w ui uw = (Val tt, ui, uw)
  /\ handle_key_press 30 30 30 K_h ui uw
     = invoke 30 30 30 call_emergency_stop ui uw.
Proof.
  intros ui uw.
  destruct (key_press_dispatch 30 30 30 K_w ui uw) as (_ & _ & H1 & _).
  destruct (key_press_dispatch 30 30 30 K_h ui uw) as (_ & _ & _ & H2 & _).
  split.
  - apply H1; [ reflexivity | compute_done ].
  - apply H2; reflexivity.
Defined.

(** ** The held keys *)

#[local] Arguments set_speed_multiplier : simpl never.
#[local] Arguments start_rc_mode : simpl never.
#[local] Arguments clear_command_queue : simpl never.
#[local] Arguments disconnect : simpl never.
#[local] Arguments update_rc_control : simpl never.
#[local] Arguments emergency_stop : simpl never.
#[local] Arguments takeoff : simpl never.
#[local] Arguments land : simpl never.
#[local] Arguments perform : simpl never.

Lemma same_keys_refl (s : DroneInterface) : same_keys s s.
Proof. reflexivity. Qed.

Lemma same_keys_trans (a b c : DroneInterface) :
  same_keys a b -> same_keys b c -> same_keys a c.
Proof. unfold same_keys. congruence. Qed.

Ltac keys_leaf := first [ intros; reflexivity | assumption ].
Ltac keys_frame := ui_keeps_go same_keys_refl same_keys_trans keys_leaf.

Lemma handle_key_press_keys (ms vs rs : Z) (key : Z) :
  ui_keeps same_keys (handle_key_press ms vs rs key).
Proof. unfold handle_key_press, invoke. keys_frame. Qed.

Lemma handle_click_keys (bs : list (string * Rect)) (pos : Z * Z) :
  ui_keeps same_keys (handle_click bs pos).
Proof.
  induction bs as [ | [name rect] bs IH ]; cbn [handle_click]; keys_frame.
Qed.

Lemma handle_mouse_click_keys (pos : Z * Z) :
  ui_keeps same_keys (handle_mouse_click pos).
Proof.
  unfold handle_mouse_click.
  pose proof (handle_click_keys buttons pos) as H.
  generalize dependent (handle_click buttons pos). intros m H. keys_frame.
Qed.

Lemma key_up_eq (ms vs rs : Z) (key : Z) (ui : DroneInterface)
  (uw : UiWorld) :
  result_of_ui (handle_event ms vs rs (KEYUP key) ui uw) = Val tt
  /\ active_keys (snd (fst (handle_event ms vs rs (KEYUP key) ui uw)))
     = active_keys ui ∖ {[ key ]}.
Proof.
  cbn [handle_event]. unfold ui_bind, ui_assign, ui_when, ui_print, call.
  destruct (is_shift key), (is_ctrl key); cbn;
    rewrite ?set_speed_multiplier_eq, ?stop_rc_mode_eq; cbn;
    try destruct (rc_mode_active _); split; reflexivity.
Qed.

Lemma key_down_keys (ms vs rs : Z) (key : Z) (ui : DroneInterface)
  (uw : UiWorld) :
  active_keys (interface_of (handle_event ms vs rs (KEYDOWN key) ui uw))
  = {[ key ]} ∪ active_keys ui.
Proof.
  cbn [handle_event].
  assert (Hrest : forall m : UI unit,
             ui_keeps same_keys m ->
             active_keys
               (interface_of
                  (ui_bind
                     (ui_assign
                        (fun ui => with_active_keys
                                     ({[ key ]} ∪ active_keys ui) ui))
                     (fun _ => m) ui uw))
             = {[ key ]} ∪ active_keys ui).
  { intros m Hm. unfold ui_bind, ui_assign, interface_of.
    rewrite (Hm _ uw). reflexivity. }
  apply Hrest.
  pose proof (handle_key_press_keys ms vs rs key) as Hk.
  generalize dependent (handle_key_press ms vs rs key). intros m Hk.
  keys_frame.
Qed.

(** X20. The set of held keys follows the key events.  A key pressed is
    in the set from then on, whether or not the command it triggers
    raises; a key event never touches other keys; releasing a key never
    raises and takes the key out.  So a press followed by the release of
    the same key leaves the set without that key, and as it was if the key
    was not held before; mouse events leave the set alone. *)
Theorem held_keys_follow_events (ms vs rs : Z) (key : Z) (button : Z)
  (pos : Z * Z) (ui : DroneInterface) (uw : UiWorld) :
  let down := handle_event ms vs rs (KEYDOWN key) ui uw in
  let up := handle_event ms vs rs (KEYUP key) (interface_of down)
              (ui_world_of down) in
  active_keys (interface_of down) = {[ key ]} ∪ active_keys ui
  /\ result_of_ui up = Val tt
  /\ active_keys (interface_of up) = active_keys ui ∖ {[ key ]}
  /\ (key ∉ active_keys ui -> active_keys (interface_of up) = active_keys ui)
  /\ active_keys
       (interface_of (handle_event ms vs rs (MOUSEBUTTONDOWN button pos)
                        ui uw))
     = active_keys ui.
Proof.
  intros down up.
  pose proof (key_down_keys ms vs rs key ui uw) as Hd. fold down in Hd.
  destruct (key_up_eq ms vs rs key (interface_of down) (ui_world_of down))
    as [Hr Hu].
  fold up in Hr, Hu. unfold interface_of in *.
  split; [ exact Hd | ]. split; [ exact Hr | ].
  rewrite Hu, Hd.
  assert (Hset : forall A : gset Z,
             ({[ key ]} ∪ A) ∖ {[ key ]} = A ∖ {[ key ]}
             /\ (key ∉ A -> ({[ key ]} ∪ A) ∖ {[ key ]} = A)).
  { intros A.
    assert (E : ({[ key ]} ∪ A) ∖ {[ key ]} = A ∖ {[ key ]}).
    { rewrite difference_union_distr_l_L, difference_diag_L.
      apply union_empty_l_L. }
    split; [ exact E | ]. intros Hn. rewrite E.
    apply difference_disjoint_L, disjoint_singleton_r, Hn. }
  split; [ apply Hset | ]. split; [ apply Hset | ].
  cbn [handle_event].
  assert (H : ui_keeps same_keys
                (ui_when (button =? 1) (handle_mouse_click pos))).
  { apply (ui_keeps_when _ same_keys_refl), handle_mouse_click_keys. }
  apply H.
Qed.

Lemma held_keys_follow_events_witness :
  let ui := init_interface true in
  let uw := ui_world_at (world_at [1000%Q] link_ok) in
  let down := handle_event 30 30 30 (KEYDOWN K_w) ui uw in
  active_keys
    (interface_of (handle_event 30 30 30 (KEYUP K_w) (interface_of down)
                     (ui_world_of down)))
  = active_keys ui.
Proof.
  intros ui uw down.
  destruct (held_keys_follow_events 30 30 30 K_w 1 (0, 0) ui uw)
    as (_ & _ & _ & H & _).
  apply H. compute_done.
Defined.

(** ** Clicks *)

#[local] Arguments call : simpl never.
#[local] Arguments start_thread : simpl never.

Lemma collidepoint_inside (r : Rect) (pos : Z * Z) :
  collidepoint r pos = true <-> inside r pos.
Proof.
  unfold collidepoint, inside.
  rewrite !andb_true_iff, !Z.leb_le, !Z.ltb_lt. tauto.
Qed.

Lemma collidepoint_outside (r : Rect) (pos : Z * Z) :
  ~ inside r pos -> collidepoint r pos = false.
Proof.
  intros H. destruct (collidepoint r pos) eqn:E; [ | reflexivity ].
  apply collidepoint_inside in E. contradiction.
Qed.

Lemma ui_bind_ret_tt (m : UI unit) (ui : DroneInterface) (uw : UiWorld) :
  ui_bind m (fun _ => ui_ret tt) ui uw = m ui uw.
Proof.
  unfold ui_bind, ui_ret.
  destruct (m ui uw) as [[[[] | e] ui'] uw']; reflexivity.
Qed.

Ltac click_facts pos :=
  unfold handle_mouse_click, buttons, gamepad_buttons;
  cbn [handle_click];
  change (mkRect (400 + 50) (50 + 400) 100 40) with takeoff_button;
  change (mkRect (400 + 170) (50 + 400) 100 40) with land_button;
  change (mkRect (400 + 290) (50 + 400) 100 40) with emergency_button;
  repeat match goal with
         | H : collidepoint ?r pos = _ |- _ => rewrite H; clear H
         end;
  unfold ui_when, ui_bind, ui_ret, ui_read; cbn.

Ltac outside_of r pos :=
  let H := fresh "Hout" in
  assert (H : collidepoint r pos = false)
    by (apply collidepoint_outside; unfold inside in *; cbn in *; lia).

(** X21. The dispatch of a left click.  On the connect button: when the
    status is [DISCONNECTED] a thread is started for [connect] and nothing
    else happens at the click; otherwise [disconnect] is run at once.  On
    the emergency button: [emergency_stop] is called whatever the status.
    On the take-off and the landing button: the method is called only when
    the status is [CONNECTED].  The four rectangles are disjoint, so a
    click triggers at most one of these, and a click outside all of them
    does nothing. *)
Theorem click_dispatch (pos : Z * Z) (ui : DroneInterface) (uw : UiWorld) :
  let r := handle_mouse_click pos ui uw in
  let c := drone_controller ui in
  (inside connect_button pos ->
   r = if ConnectionStatus_eqb (connection_status c) DISCONNECTED
       then start_thread Connect_thread ui uw
       else call disconnect ui uw)
  /\ (inside emergency_button pos -> r = call emergency_stop ui uw)
  /\ (inside takeoff_button pos ->
      r = if connected c then call takeoff ui uw else (Val tt, ui, uw))
  /\ (inside land_button pos ->
      r = if connected c then call land ui uw else (Val tt, ui, uw))
  /\ (~ inside connect_button pos -> ~ inside emergency_button pos ->
      ~ inside takeoff_button pos -> ~ inside land_button pos ->
      r = (Val tt, ui, uw)).
Proof.
  intros r c. subst r c. destruct pos as [x y].
  split; [ | split; [ | split; [ | split ] ] ].
  - intros Hin. outside_of takeoff_button (x, y).
    outside_of land_button (x, y). outside_of emergency_button (x, y).
    apply collidepoint_inside in Hin. click_facts (x, y).
    destruct (ConnectionStatus_eqb _ _); cbn; [ reflexivity | ].
    destruct (call disconnect ui uw) as [[[[] | e] ui'] uw']; reflexivity.
  - intros Hin. outside_of takeoff_button (x, y).
    outside_of land_button (x, y). outside_of connect_button (x, y).
    apply collidepoint_inside in Hin. click_facts (x, y).
    destruct (call emergency_stop ui uw) as [[[[] | e] ui'] uw'];
      reflexivity.
  - intros Hin. outside_of emergency_button (x, y).
    outside_of land_button (x, y). outside_of connect_button (x, y).
    apply collidepoint_inside in Hin. click_facts (x, y).
    destruct (connected (drone_controller ui)); [ | reflexivity ].
    destruct (call takeoff ui uw) as [[[[] | e] ui'] uw']; reflexivity.
  - intros Hin. outside_of emergency_button (x, y).
    outside_of takeoff_button (x, y). outside_of connect_button (x, y).
    apply collidepoint_inside in Hin. click_facts (x, y).
    destruct (connected (drone_controller ui)); [ | reflexivity ].
    destruct (call land ui uw) as [[[[] | e] ui'] uw']; reflexivity.
  - intros H1 H2 H3 H4.
    apply collidepoint_outside in H1, H2, H3, H4.
    click_facts (x, y). reflexivity.
Qed.

Lemma click_dispatch_witness :
  let ui := init_interface true in
  let uw := ui_world_at (world_at [1000%Q] link_ok) in
  inside connect_button (950, 60)
  /\ threads (ui_world_of (handle_mouse_click (950, 60) ui uw))
     = [Connect_thread]
  /\ calls (world (ui_world_of (handle_mouse_click (950, 60) ui uw))) = [].
Proof.
  intros ui uw.
  assert (Hin : inside connect_button (950, 60)).
  { unfold inside. cbn. lia. }
  destruct (click_dispatch (950, 60) ui uw) as [H _].
  rewrite (H Hin). split; [ exact Hin | split; reflexivity ].
Defined.

(** ** The periodic update *)

Lemma update_eq (ui : DroneInterface) (uw : UiWorld) :
  let t := now (world uw) in
  let c := drone_controller ui in
  let due := Q_ge (t - last_telemetry_update ui) telemetry_update_interval in
  let w1 := with_reads (S (reads (world uw))) (world uw) in
  let rc := update_rc_control (active_keys ui) c w1 in
  let live := ctrl_pressed ui && connected c in
  result_of_ui (update ui uw) = (if live then result_of rc else Val tt)
  /\ last_telemetry_update (interface_of (update ui uw))
     = (if due then t else last_telemetry_update ui)
  /\ threads (ui_world_of (update ui uw))
     = threads uw ++ (if due && connected c then [Telemetry_thread] else [])
  /\ drone_controller (interface_of (update ui uw))
     = (if live then self_of rc else c)
  /\ world (ui_world_of (update ui uw)) = (if live then world_of rc else w1).
Proof.
  intros t c due w1 rc live. subst t c due w1 rc live.
  unfold update, call, time_time, ui_bind, ui_read, ui_when, ui_assign,
    ui_ret, ui_print, start_thread, result_of_ui, interface_of,
    ui_world_of.
  destruct (Q_ge (now (world uw) - last_telemetry_update ui)
              telemetry_update_interval) eqn:Hd,
    (connected (drone_controller ui)) eqn:Hc,
    (ctrl_pressed ui) eqn:Hp;
    repeat (progress (cbn; rewrite ?Hd, ?Hc, ?Hp));
    rewrite ?app_nil_r;
    try (destruct (bool_decide (active_keys ui = ∅)); cbn;
         try (destruct (bool_decide (active_keys ui ∩ movement_keys = ∅));
              cbn));
    try (destruct (result_of (update_rc_control _ _ _)); cbn);
    repeat split; reflexivity.
Qed.

Lemma update_rc_control_returns (keys : gset Z) (self : DroneController)
  (w : World) :
  (exists v, rc_speed_of self = Val v) ->
  result_of (update_rc_control keys self w) = Val tt.
Proof.
  intros [v Hv].
  destruct (result_of (update_rc_control keys self w)) as [[] | e] eqn:He;
    [ reflexivity | ].
  apply update_rc_control_raises in He. congruence.
Qed.

Lemma rc_speed_of_interface (self : DroneController) :
  speed_multiplier self = float_of_Z 1
  \/ speed_multiplier self = float_of_Z 3 ->
  exists v, rc_speed_of self = Val v.
Proof.
  intros [H | H]; eexists;
    [ apply (rc_speed_of_one self H) | apply (rc_speed_of_three self H) ].
Qed.

Lemma update_returns (ui : DroneInterface) (uw : UiWorld) :
  (exists v, rc_speed_of (drone_controller ui) = Val v) ->
  result_of_ui (update ui uw) = Val tt.
Proof.
  intros Hv. destruct (update_eq ui uw) as (H & _). rewrite H.
  destruct (_ && _); [ | reflexivity ].
  apply update_rc_control_returns. exact Hv.
Qed.

(** X22. The periodic update.  It starts a telemetry thread iff at least
    1 s has passed since the last stamp and the status is [CONNECTED], and
    it renews the stamp whenever the second has passed, connected or not;
    an update that follows such a one by less than 1 s starts no thread.
    Unless a Ctrl key counts as held and the status is [CONNECTED], it
    leaves the controller alone and calls nothing on the link.  It returns
    whenever the speed of the continuous control has a value, as it has
    with the multipliers 1.0 and 3.0 that the interface installs; the one
    exception that can leave it is that of the speed, with a Ctrl key held
    and the status [CONNECTED]. *)
Theorem update_schedule (ui : DroneInterface) (uw : UiWorld) :
  let r := update ui uw in
  let r' := update (interface_of r) (ui_world_of r) in
  let t := now (world uw) in
  let c := drone_controller ui in
  let due := Q_ge (t - last_telemetry_update ui) telemetry_update_interval in
  ((exists v, rc_speed_of c = Val v) -> result_of_ui r = Val tt)
  /\ (consistent ui -> result_of_ui r = Val tt)
  /\ (forall e, result_of_ui r = Exc e ->
      rc_speed_of c = Exc e /\ ctrl_pressed ui = true
      /\ connected c = true)
  /\ last_telemetry_update (interface_of r)
     = (if due then t else last_telemetry_update ui)
  /\ threads (ui_world_of r)
     = threads uw ++ (if due && connected c then [Telemetry_thread] else [])
  /\ (ctrl_pressed ui = false \/ connected c = false ->
      drone_controller (interface_of r) = c
      /\ calls (world (ui_world_of r)) = calls (world uw))
  /\ (due = true ->
      (now (world (ui_world_of r)) - t < telemetry_update_interval)%Q ->
      threads (ui_world_of r') = threads (ui_world_of r)).
Proof.
  intros r r' t c due.
  destruct (update_eq ui uw) as (H1 & H2 & H3 & H4 & H5).
  fold r t c due in H1, H2, H3, H4, H5.
  split; [ apply update_returns | ].
  split.
  { intros Hc. apply update_returns, rc_speed_of_interface.
    apply consistent_multiplier, Hc. }
  split.
  { intros e He. rewrite H1 in He.
    destruct (ctrl_pressed ui) eqn:Hp, (connected c) eqn:Hc;
      cbn in He; try discriminate.
    apply update_rc_control_raises in He. repeat split. exact He. }
  split; [ exact H2 | ]. split; [ exact H3 | ]. split.
  - intros H.
    assert (Hl : ctrl_pressed ui && connected c = false).
    { destruct H as [H | H]; rewrite H; [ reflexivity | ].
      apply andb_false_r. }
    rewrite H4, H5, Hl. split; reflexivity.
  - intros Hd Hlt.
    destruct (update_eq (interface_of r) (ui_world_of r)) as (_ & _ & H3' & _).
    fold r' in H3'. rewrite H3'. rewrite H2, Hd.
    assert (Hq : Q_ge (now (world (ui_world_of r)) - t)
                   telemetry_update_interval = false)
      by (apply Q_ge_false; exact Hlt).
    rewrite Hq. cbn. apply app_nil_r.
Qed.

Lemma update_schedule_witness :
  let ui := with_drone_controller grounded_connected (init_interface true) in
  let uw := ui_world_at (world_at [1000; 1000 + (1 # 2)]%Q link_ok) in
  result_of_ui (update ui uw) = Val tt
  /\ threads (ui_world_of (update ui uw)) = [Telemetry_thread]
  /\ threads (ui_world_of (update (interface_of (update ui uw))
                             (ui_world_of (update ui uw))))
     = [Telemetry_thread].
Proof.
  intros ui uw.
  destruct (update_schedule ui uw) as (H1 & _ & _ & _ & H3 & _ & H5).
  split; [ apply H1; exists 50; reflexivity | ].
  split; [ exact H3 | ].
  rewrite H5; [ exact H3 | reflexivity | vm_compute; reflexivity ].
Defined.

(** ** The main loop *)

Lemma stays_stopped_refl (s : DroneInterface) : stays_stopped s s.
Proof. intros H. exact H. Qed.

Lemma stays_stopped_trans (a b c : DroneInterface) :
  stays_stopped a b -> stays_stopped b c -> stays_stopped a c.
Proof. intros H1 H2 H. apply H2, H1, H. Qed.

Ltac stopped_leaf :=
  first [ intros s H; exact H | intros s H; reflexivity
        | intros ui w H; exact H | assumption ].
Ltac stopped_frame :=
  ui_keeps_go stays_stopped_refl stays_stopped_trans stopped_leaf.

Lemma handle_click_stopped (bs : list (string * Rect)) (pos : Z * Z) :
  ui_keeps stays_stopped (handle_click bs pos).
Proof.
  induction bs as [ | [name rect] bs IH ]; cbn [handle_click];
    stopped_frame.
Qed.

Lemma handle_event_stopped (ms vs rs : Z) (event : Event) :
  ui_keeps stays_stopped (handle_event ms vs rs event).
Proof.
  pose proof handle_click_stopped as Hc.
  destruct event; cbn [handle_event];
    unfold handle_key_press, handle_mouse_click, invoke; stopped_frame.
Qed.

Lemma handle_events_stopped (ms vs rs : Z) (events : list Event) :
  ui_keeps stays_stopped (handle_events ms vs rs events).
Proof.
  induction events as [ | e es IH ]; cbn [handle_events]; stopped_frame.
  apply handle_event_stopped.
Qed.

Lemma update_stopped : ui_keeps stays_stopped update.
Proof. unfold update. stopped_frame. Qed.

Lemma handle_events_quit (ms vs rs : Z) (events : list Event)
  (ui : DroneInterface) (uw : UiWorld) :
  In QUIT events ->
  result_of_ui (handle_events ms vs rs events ui uw) = Val tt ->
  running (interface_of (handle_events ms vs rs events ui uw)) = false.
Proof.
  revert ui uw. induction events as [ | e es IH ]; intros ui uw Hin Hr;
    [ contradiction | ].
  cbn [handle_events] in *. unfold ui_bind, result_of_ui, interface_of in *.
  destruct Hin as [-> | Hin].
  - cbn. apply (handle_events_stopped ms vs rs es). reflexivity.
  - destruct (handle_event ms vs rs e ui uw) as [[[[] | x] ui'] uw'];
      [ | discriminate ].
    apply IH; assumption.
Qed.

Lemma main_loop_stopped (ms vs rs : Z) (frames : list (list Event))
  (ui : DroneInterface) (uw : UiWorld) :
  running ui = false ->
  main_loop ms vs rs frames ui uw
  = (Val true,
     with_drone_controller
       (self_of (disconnect (drone_controller ui) (world uw))) ui,
     with_world (world_of (disconnect (drone_controller ui) (world uw))) uw).
Proof.
  intros H.
  destruct (disconnect_returns (drone_controller ui) (world uw)) as [[] Hr].
  destruct frames; cbn [main_loop]; unfold ui_bind, ui_read, ui_ret, call;
    cbn [id]; rewrite H, Hr; reflexivity.
Qed.

(** X23. The loop of [run].  With no frame left a running interface waits
    and nothing has changed.  A frame whose events include QUIT, and whose
    handlers and update return, is the last one: the remaining events of
    the frame and its update are still processed, later frames are not
    looked at, and the link is torn down, the controller ending
    [DISCONNECTED] without a handle.  The update returns whenever the
    handlers do and the interface was consistent before the frame, which
    it is from its start on.  When an exception escapes a handler or the
    update, the loop ends with it, and the controller is not disconnected:
    the state is the one at the exception. *)
Theorem main_loop_ends_on_quit (ms vs rs : Z) (events : list Event)
  (rest : list (list Event)) (ui : DroneInterface) (uw : UiWorld) :
  running ui = true ->
  let r := main_loop ms vs rs (events :: rest) ui uw in
  let h := handle_events ms vs rs events ui uw in
  let u := update (interface_of h) (ui_world_of h) in
  main_loop ms vs rs [] ui uw = (Val false, ui, uw)
  /\ (In QUIT events -> result_of_ui h = Val tt ->
      result_of_ui u = Val tt ->
      result_of_ui r = Val true
      /\ running (interface_of r) = false
      /\ connection_status (drone_controller (interface_of r))
         = DISCONNECTED
      /\ tello (drone_controller (interface_of r)) = None
      /\ r = main_loop ms vs rs [events] ui uw)
  /\ (consistent ui -> result_of_ui u = Val tt)
  /\ (forall e, result_of_ui h = Exc e -> r = (Exc e, interface_of h,
                                               ui_world_of h))
  /\ (forall e, result_of_ui h = Val tt -> result_of_ui u = Exc e ->
      r = (Exc e, interface_of u, ui_world_of u)).
Proof.
  intros Hrun r h u. subst r h u.
  split; [ | split; [ | split; [ | split ] ] ].
  - cbn [main_loop]. unfold ui_bind, ui_read, ui_ret. cbn [id].
    rewrite Hrun. reflexivity.
  - intros Hin Hr Hu.
    pose proof (handle_events_quit ms vs rs events ui uw Hin Hr) as Hq.
    set (h := handle_events ms vs rs events ui uw) in *.
    set (u := update (interface_of h) (ui_world_of h)) in *.
    assert (Hs : running (interface_of u) = false)
      by (apply update_stopped; exact Hq).
    assert (Hgo : forall frames,
               main_loop ms vs rs (events :: frames) ui uw
               = (Val true,
                  with_drone_controller
                    (self_of (disconnect (drone_controller (interface_of u))
                                (world (ui_world_of u))))
                    (interface_of u),
                  with_world
                    (world_of (disconnect (drone_controller (interface_of u))
                                 (world (ui_world_of u))))
                    (ui_world_of u))).
    { intros frames. cbn [main_loop].
      unfold ui_bind at 1, ui_read at 1. cbn [id]. rewrite Hrun.
      unfold ui_bind at 1. subst u h.
      unfold result_of_ui, interface_of, ui_world_of in *.
      destruct (handle_events ms vs rs events ui uw) as [[x ui1] uw1].
      cbn [fst snd] in *. subst x. unfold ui_bind at 1.
      destruct (update ui1 uw1) as [[y ui2] uw2].
      cbn [fst snd] in *. subst y.
      apply (main_loop_stopped ms vs rs frames ui2 uw2 Hs). }
    rewrite (Hgo rest), (Hgo []).
    unfold result_of_ui. cbn [fst snd interface_of].
    destruct (disconnect_returns (drone_controller (interface_of u))
                (world (ui_world_of u))) as [[] Hd].
    pose proof (disconnect_ensures (drone_controller (interface_of u))
                  (world (ui_world_of u))) as He.
    rewrite Hd in He. destruct He as [He1 He2].
    repeat split; assumption.
  - intros Hc. apply update_returns, rc_speed_of_interface.
    apply consistent_multiplier.
    apply (handle_events_consistent ms vs rs events ui uw Hc).
  - intros e He. cbn [main_loop].
    unfold ui_bind at 1, ui_read at 1. cbn [id]. rewrite Hrun.
    unfold ui_bind at 1. unfold result_of_ui, interface_of, ui_world_of in *.
    destruct (handle_events ms vs rs events ui uw) as [[x ui1] uw1].
    cbn in He |- *. subst x. reflexivity.
  - intros e Hr He. cbn [main_loop].
    unfold ui_bind at 1, ui_read at 1. cbn [id]. rewrite Hrun.
    unfold ui_bind at 1. unfold result_of_ui, interface_of, ui_world_of in *.
    destruct (handle_events ms vs rs events ui uw) as [[x ui1] uw1].
    cbn [fst snd] in *. subst x. unfold ui_bind at 1.
    destruct (update ui1 uw1) as [[y ui2] uw2].
    cbn [fst snd] in *. subst y. reflexivity.
Qed.

Lemma main_loop_ends_on_quit_witness :
  let ui := with_drone_controller in_flight_ready (init_interface true) in
  let uw := ui_world_at (world_at [1000%Q] link_ok) in
  let r := main_loop 30 30 30 [[KEYUP K_w; QUIT]; [KEYDOWN K_t]] ui uw in
  result_of_ui r = Val true
  /\ tello (drone_controller (interface_of r)) = None
  /\ calls (world (ui_world_of r)) = [Invoke cmd_land []; Link_end].
Proof.
  intros ui uw r.
  destruct (main_loop_ends_on_quit 30 30 30 [KEYUP K_w; QUIT]
              [[KEYDOWN K_t]] ui uw eq_refl) as (_ & H & Hu & _).
  destruct H as (H1 & _ & _ & H4 & _);
    [ right; left; reflexivity | vm_compute; reflexivity
    | apply Hu; repeat split; try reflexivity; intros Hx; discriminate | ].
  split; [ exact H1 | ]. split; [ exact H4 | ].
  vm_compute. reflexivity.
Defined.

(** * The battery bar *)

Lemma py_int_comp (p q : Q) : (p == q)%Q -> py_int p = py_int q.
Proof.
  unfold Qeq, py_int. destruct p as [a b], q as [c d]. cbn. intros H.
  rewrite <- (Z.quot_mul_cancel_r a (Z.pos b) (Z.pos d)) by lia.
  rewrite <- (Z.quot_mul_cancel_r c (Z.pos d) (Z.pos b)) by lia.
  rewrite H. f_equal. lia.
Qed.

Lemma fill_width_eq (b : Z) : fill_width b = (b * 198) ÷ 100.
Proof.
  unfold fill_width.
  rewrite (py_int_comp _ (Qmake (b * 198) 100)).
  - reflexivity.
  - unfold Qeq, Qdiv, Qmult, Qinv, inject_Z. cbn. lia.
Qed.

(** X24. The fill of the battery bar.  Nothing is drawn for a level of 0
    or less; from 1 on a rectangle is drawn whose width grows with the
    level, red up to 15, orange up to 30 and green above.  For a level of
    at most 100 the fill stays inside the 198 pixels of the bar, which it
    covers exactly at 100; the width is not clamped, so a level above 100
    overflows the bar. *)
Theorem battery_fill_spec (x y : Z) (b b' : Z) :
  (battery_fill x y b = None <-> b <= 0)
  /\ (1 <= b ->
      exists c,
        battery_fill x y b
        = Some (c, mkRect (x + 11) (y + 106) (fill_width b) 18)
        /\ (c = RED <-> b <= 15) /\ (c = ORANGE <-> 15 < b <= 30)
        /\ (c = GREEN <-> 30 < b))
  /\ (b <= b' -> fill_width b <= fill_width b')
  /\ (b <= 100 -> fill_width b <= 198)
  /\ fill_width 100 = 198
  /\ (100 < b -> 198 < fill_width b).
Proof.
  assert (Hpos : 0 < fill_width b <-> 1 <= b).
  { rewrite fill_width_eq. split; intros H.
    - destruct (Z_lt_le_dec b 1) as [Hlt | Hle]; [ | exact Hle ].
      exfalso. assert (b * 198 ÷ 100 <= 0); [ | lia ].
      apply Z.quot_le_upper_bound; lia.
    - assert (1 <= b * 198 ÷ 100); [ | lia ].
      apply Z.quot_le_lower_bound; lia. }
  split; [ | split; [ | split; [ | split; [ | split ] ] ] ].
  - unfold battery_fill. destruct (Z.gtb_spec (fill_width b) 0) as [H | H].
    + split; [ discriminate | ]. intros Hb. apply Hpos in H. lia.
    + split; [ intros _ | reflexivity ].
      destruct (Z_lt_le_dec 0 b) as [Hb | Hb]; [ | exact Hb ].
      assert (0 < fill_width b) by (apply Hpos; lia). lia.
  - intros Hb. unfold battery_fill, bar_rect.
    destruct (Z.gtb_spec (fill_width b) 0) as [H | H];
      [ | apply Hpos in Hb; lia ].
    cbn [rect_x rect_y].
    replace (x + 10 + 1) with (x + 11) by lia.
    replace (y + 80 + 25 + 1) with (y + 106) by lia.
    eexists. split; [ reflexivity | ].
    destruct (Z.gtb_spec b 30), (Z.gtb_spec b 15);
      repeat split; intros; try discriminate; try reflexivity; lia.
  - intros Hle. rewrite !fill_width_eq. apply Z.quot_le_mono; lia.
  - intros Hle. rewrite fill_width_eq.
    apply Z.quot_le_upper_bound; lia.
  - reflexivity.
  - intros Hlt. rewrite fill_width_eq.
    assert (199 <= b * 198 ÷ 100); [ | lia ].
    apply Z.quot_le_lower_bound; lia.
Qed.

Lemma battery_fill_spec_witness :
  battery_fill 50 50 20 = Some (ORANGE, mkRect 61 156 39 18).
Proof.
  destruct (battery_fill_spec 50 50 20 20) as (_ & H & _).
  destruct H as (c & -> & _ & Ho & _); [ lia | ].
  assert (c = ORANGE) by (apply Ho; lia). subst c. reflexivity.
Defined.
